(** * DeepTrader: the trading simulator and the DQN agent

    A shallow embedding of [DeepTrader/trading_environment.py], of the
    numerical core of [DeepTrader/dqn_model.py] and of the data split and
    state size of [DeepTrader/main.py].

    Numbers.  Python and NumPy floats are embedded as exact rationals
    ([Q], compared up to [==]); rounding, infinities and NaN are outside the
    model.  The only irrational operation of the code, the square root inside
    [np.std], is a parameter [np_sqrt] of the simulator section.

    Effects.  [TradingEnvironment] is a mutable object: every method is a
    function from the object before the call to the object after it, paired
    with what the call returns or raises.  The exceptions that are
    modelled: the IndexError of positional indexing into the price series
    ([DataFrame.iloc]), the ValueError of the fitted scikit-learn scaler on
    a window without rows, the ZeroDivisionError of Python's division and
    modulo by zero, and the TypeError of a batch without transitions.  On a
    window with rows the scaler is a function of the window.  NumPy's
    division, which warns instead of raising, is the division of [Q]; the
    statements that depend on its value carry a non-zero divisor as a
    hypothesis. *)

From Stdlib Require Import String.
From Stdlib Require Import QArith Qabs Qminmax Qround ZArith List Sorted Bool Arith
  Lia Lqa.
Import ListNotations.

Open Scope Q_scope.

(** ** Python and NumPy helpers *)

Inductive exn : Type :=
| IndexError
| ValueError
| ZeroDivisionError
| TypeError.

Inductive res (A : Type) : Type :=
| Ok (a : A)
| Raise (e : exn).

Arguments Ok {A} a.
Arguments Raise {A} e.

Definition Qlt_bool (x y : Q) : bool := negb (Qle_bool y x).

(** [float(b)] for a Python bool [b], as in [x * ~done]. *)
Definition Q_of_bool (b : bool) : Q := if b then 1 else 0.

(** [l[-n:]] for [n > 0]. *)
Definition lastn {A : Type} (n : nat) (l : list A) : list A :=
  skipn (length l - n) l.

(** Resolution of one slice bound against a sequence of length [len]. *)
Definition slice_bound (len : nat) (i : Z) : nat :=
  if (i <? 0)%Z then Z.to_nat (Z.max 0 (i + Z.of_nat len))
  else Nat.min (Z.to_nat i) len.

(** [l[start:stop]], also [df.iloc[start:stop]] on rows. *)
Definition py_slice {A : Type} (l : list A) (start stop : Z) : list A :=
  let s := slice_bound (length l) start in
  let e := slice_bound (length l) stop in
  firstn (e - s) (skipn s l).

Definition Qsum (l : list Q) : Q := fold_right Qplus 0 l.

Definition np_mean (l : list Q) : Q := Qsum l / inject_Z (Z.of_nat (length l)).

(** ** The trading environment *)

Module TradingEnvironment.

(** One row of [self.data]: the close price and the row restricted to
    [self.feature_columns]. *)
Record row : Type := mk_row {
  CLOSE : Q;
  feature_values : list Q
}.

Inductive trade_action : Type :=
| sell
| buy.

Definition trade_action_eqb (a b : trade_action) : bool :=
  match a, b with
  | sell, sell => true
  | buy, buy => true
  | _, _ => false
  end.

(** An entry of [self.trades].  A sell entry carries ['balance_after'], a
    buy entry ['btc_after']. *)
Record trade : Type := mk_trade {
  t_step : nat;
  t_action : trade_action;
  t_price : Q;
  t_btc_amount : Q;
  t_value : Q;
  t_fee : Q;
  t_balance_after : option Q;
  t_btc_after : option Q;
  t_portfolio_value : Q
}.

(** The attributes of a [TradingEnvironment] object.  [last_trading_action]
    is [None], [0] (sell) or [2] (buy). *)
Record env : Type := mk_env {
  data : list row;
  scaler : list row -> list (list Q);
  lookback_window : nat;
  initial_balance : Q;
  current_step : nat;
  balance : Q;
  btc_held : Q;
  total_value : Q;
  transaction_cost : Q;
  last_action_step : nat;
  last_trading_action : option Z;
  max_position_hold : Q;
  trades : list trade;
  portfolio_values : list Q;
  actions_taken : list Z
}.

(** The info dictionary returned by [step]. *)
Inductive info : Type :=
| ErrorInfo (error : string)
| StepInfo (portfolio_value i_balance i_btc_held current_price : Q)
           (action_blocked : bool) (i_last_trading_action : option Z)
           (can_buy can_sell : bool).

(** The tuple returned by [step]. *)
Record transition : Type := mk_transition {
  next_state : list Q;
  reward : Q;
  done : bool;
  step_info : info
}.

Definition info_blocked (i : info) : bool :=
  match i with
  | ErrorInfo _ => false
  | StepInfo _ _ _ _ b _ _ _ => b
  end.

Definition is_error_info (i : info) : bool :=
  match i with
  | ErrorInfo _ => true
  | StepInfo _ _ _ _ _ _ _ _ => false
  end.

(** [x != k] for [x] of type [Optional[int]]. *)
Definition opt_neqb (x : option Z) (k : Z) : bool :=
  match x with
  | None => true
  | Some v => negb (v =? k)%Z
  end.

Definition _can_sell (e : env) : bool :=
  Qlt_bool 0 (btc_held e) && opt_neqb (last_trading_action e) 0.

Definition _can_buy (e : env) : bool :=
  Qlt_bool 0 (balance e) && opt_neqb (last_trading_action e) 2.

Definition _get_current_price (e : env) : res Q :=
  match nth_error (data e) (current_step e) with
  | Some r => Ok (CLOSE r)
  | None => Raise IndexError
  end.

Definition steps_between (later earlier : nat) : Q :=
  inject_Z (Z.of_nat later - Z.of_nat earlier).

(** [_get_state].  The scaler is scikit-learn's fitted [StandardScaler]:
    its [transform] raises ValueError on a window without rows, before
    anything else is computed.  The entries of [portfolio_info] are then
    evaluated in order: the division by [self.initial_balance] raises
    ZeroDivisionError on zero, the price lookup raises IndexError outside
    the series, and the division by [self.max_position_hold] raises
    ZeroDivisionError on zero.  Without capital nothing is ever bought or
    sold, so [self.balance] is then the Python number that the constructor
    or [reset] wrote, and its division raises where NumPy's would warn. *)
Definition _get_state (e : env) : res (list Q) :=
  let start_idx := (Z.of_nat (current_step e) - Z.of_nat (lookback_window e))%Z in
  let end_idx := Z.of_nat (current_step e) in
  let window_data := py_slice (data e) start_idx end_idx in
  match window_data with
  | [] => Raise ValueError
  | _ :: _ =>
      let normalized_data := scaler e window_data in
      let state := concat normalized_data in
      if Qeq_bool (initial_balance e) 0 then Raise ZeroDivisionError
      else
        match _get_current_price e with
        | Raise x => Raise x
        | Ok price =>
            if Qeq_bool (max_position_hold e) 0 then Raise ZeroDivisionError
            else
              let portfolio_info :=
                [ balance e / initial_balance e;
                  btc_held e * price / initial_balance e;
                  total_value e / initial_balance e;
                  steps_between (current_step e) (last_action_step e)
                  / max_position_hold e ] in
              let action_constraints :=
                [ Q_of_bool (_can_sell e);
                  1;
                  Q_of_bool (_can_buy e);
                  Q_of_bool (opt_neqb (last_trading_action e) 0);
                  Q_of_bool (opt_neqb (last_trading_action e) 2) ] in
              Ok (state ++ portfolio_info ++ action_constraints)
        end
  end.

(** What [_get_state] needs, with the cursor at [cursor], besides a price
    to look up: a lookback window [data.iloc[cursor - lookback : cursor]]
    that is not empty and non-zero divisors [self.initial_balance] and
    [self.max_position_hold]. *)
Definition state_computable (e : env) (cursor : nat) : Prop :=
  py_slice (data e)
           (Z.of_nat cursor - Z.of_nat (lookback_window e)) (Z.of_nat cursor)
    <> [] /\
  ~ initial_balance e == 0 /\
  ~ max_position_hold e == 0.

(** [reset]: the object after the call, and the returned state (or the
    exception of [_get_state], raised after the attributes were written). *)
Definition reset_env (e : env) (start_step : option Z) : env :=
  let cs :=
    match start_step with
    | None => lookback_window e
    | Some s => Z.to_nat (Z.max s (Z.of_nat (lookback_window e)))
    end in
  mk_env (data e) (scaler e) (lookback_window e) (initial_balance e)
         cs (initial_balance e) 0 (initial_balance e) (transaction_cost e)
         cs None (max_position_hold e) [] [] [].

Definition reset (e : env) (start_step : option Z) : env * res (list Q) :=
  let e' := reset_env e start_step in
  (e', _get_state e').

(** [l[-1]] when [l] is not empty. *)
Definition last_error {A : Type} (l : list A) : option A :=
  match l with
  | [] => None
  | _ => nth_error l (length l - 1)
  end.

(** The inner [while j < len(self.trades)] loop of [_calculate_win_rate]:
    the first sell entry of [ts = self.trades[j:]], with its index. *)
Fixpoint find_next_sell (ts : list trade) (j : nat) : option (nat * trade) :=
  match ts with
  | [] => None
  | t :: ts' =>
      if trade_action_eqb (t_action t) sell then Some (j, t)
      else find_next_sell ts' (S j)
  end.

(** The outer [while i < len(self.trades) - 1] loop; it returns
    [(winning_trades, total_complete_trades)].  [i] grows at every turn, so
    [length ts] turns of [fuel] are never used up. *)
Fixpoint win_rate_loop (fuel : nat) (ts : list trade) (i winning_trades
    total_complete_trades : nat) : nat * nat :=
  match fuel with
  | O => (winning_trades, total_complete_trades)
  | S fuel' =>
      if (i <? length ts - 1)%nat then
        match nth_error ts i with
        | None => (winning_trades, total_complete_trades)
        | Some current_trade =>
            if trade_action_eqb (t_action current_trade) buy then
              let buy_price := t_price current_trade in
              let buy_amount := t_btc_amount current_trade in
              match find_next_sell (skipn (S i) ts) (S i) with
              | Some (j, next_trade) =>
                  let sell_price := t_price next_trade in
                  let total_fees := t_fee current_trade + t_fee next_trade in
                  let net_profit :=
                    (sell_price - buy_price) * buy_amount - total_fees in
                  let winning_trades' :=
                    if Qlt_bool 0 net_profit then S winning_trades
                    else winning_trades in
                  win_rate_loop fuel' ts (S j) winning_trades'
                                (S total_complete_trades)
              | None => (winning_trades, total_complete_trades)
              end
            else
              win_rate_loop fuel' ts (S i) winning_trades
                            total_complete_trades
        end
      else (winning_trades, total_complete_trades)
  end.

Definition nat_to_Q (n : nat) : Q := inject_Z (Z.of_nat n).

Definition _calculate_win_rate (e : env) : res Q :=
  if (length (trades e) <? 2)%nat then Ok 0
  else
    let '(winning_trades, total_complete_trades) :=
      win_rate_loop (length (trades e)) (trades e) 0 0 0 in
    if (total_complete_trades =? 0)%nat && (0 <? length (trades e))%nat then
      match last_error (trades e), _get_current_price e with
      | _, Raise x => Raise x
      | None, Ok _ => Ok 0
      | Some last_trade, Ok current_price =>
          if trade_action_eqb (t_action last_trade) buy
             && Qlt_bool 0 (btc_held e)
          then
            let buy_price := t_price last_trade in
            let unrealized_profit := (current_price - buy_price) * btc_held e in
            Ok (if Qlt_bool 0 unrealized_profit then 1 else 0)
          else Ok 0
      end
    else
      Ok (if (0 <? total_complete_trades)%nat
          then nat_to_Q winning_trades / nat_to_Q total_complete_trades
          else 0).

(** The ['win_rate'] entry of [get_portfolio_performance()]: [None] when the
    method returns the empty dictionary (fewer than two portfolio values).
    The other entries of the dictionary are not modelled. *)
Definition get_portfolio_performance_win_rate (e : env) : res (option Q) :=
  if (length (portfolio_values e) <? 2)%nat then Ok None
  else
    match _calculate_win_rate e with
    | Raise x => Raise x
    | Ok w => Ok (Some w)
    end.

(** [__init__], with the two constants it reads from [config.py]:
    [TRADING_CONFIG['transaction_cost']] and
    [DATA_CONFIG['max_position_hold']]. *)
Definition TRADING_CONFIG_transaction_cost : Q := 1 # 1000.
Definition DATA_CONFIG_max_position_hold : Q := 720.

Definition init (data : list row) (scaler : list row -> list (list Q))
    (lookback_window : nat) (initial_balance : Q) : env :=
  mk_env data scaler lookback_window initial_balance
         0 initial_balance 0 initial_balance TRADING_CONFIG_transaction_cost
         0 None DATA_CONFIG_max_position_hold [] [] [].


(** The executed trading actions, oldest first, as the trade log records
    them, and their encoding as values of [last_trading_action]. *)
Definition executed_actions (e : env) : list trade_action :=
  map t_action (trades e).

Definition action_code (a : trade_action) : Z :=
  match a with
  | sell => 0%Z
  | buy => 2%Z
  end.

(** No two neighbours of the list are the same action. *)
Fixpoint alternates (l : list trade_action) : bool :=
  match l with
  | [] => true
  | a :: l' =>
      match l' with
      | [] => true
      | b :: _ => negb (trade_action_eqb a b) && alternates l'
      end
  end.

(** The object with an empty [self.portfolio_values]. *)
Definition without_history (e : env) : env :=
  mk_env (data e) (scaler e) (lookback_window e) (initial_balance e)
         (current_step e) (balance e) (btc_held e) (total_value e)
         (transaction_cost e) (last_action_step e) (last_trading_action e)
         (max_position_hold e) (trades e) [] (actions_taken e).

(** The account is all in cash or all in BTC, and a BTC position was opened
    by the last trade. *)
Definition position_inv (e : env) : Prop :=
  (0 < balance e /\ btc_held e = 0 /\ last_trading_action e <> Some 2%Z) \/
  (balance e = 0 /\ 0 < btc_held e /\ last_trading_action e = Some 2%Z).

(** The entries of [self.actions_taken] that are a sell or a buy. *)
Definition is_trade_code (a : Z) : bool := (a =? 0)%Z || (a =? 2)%Z.

(** The trade log alternates, [last_trading_action] is its last entry, and
    its entries are the sells and buys of [self.actions_taken]. *)
Definition trade_log_inv (e : env) : Prop :=
  alternates (executed_actions e) = true /\
  last_trading_action e =
    option_map action_code (last_error (executed_actions e)) /\
  filter is_trade_code (actions_taken e) =
    map action_code (executed_actions e).

Section Simulator.

(** The floating-point square root used by [np.std]. *)
Variable np_sqrt : Q -> Q.

Definition np_std (l : list Q) : Q :=
  let m := np_mean l in
  np_sqrt (np_mean (map (fun x => (x - m) * (x - m)) l)).

Definition _calculate_reward (e : env) (prev_total_value : Q)
    (action_blocked : bool) : Q :=
  let current_total_value := total_value e in
  let portfolio_return :=
    (current_total_value - prev_total_value) / prev_total_value in
  let reward := portfolio_return * 100 in
  let days_since_action :=
    steps_between (current_step e) (last_action_step e) / 24 in
  let reward :=
    if Qlt_bool 30 days_since_action
    then reward - (1 # 10) * (days_since_action - 30)
    else reward in
  let reward :=
    if negb action_blocked then reward + (1 # 100) else reward in
  let reward :=
    if (10 <? length (portfolio_values e))%nat
    then
      let recent_values := lastn 10 (portfolio_values e) in
      let volatility := np_std recent_values / np_mean recent_values in
      reward - volatility * (1 # 2)
    else reward in
  let reward :=
    if Qlt_bool portfolio_return (- (5 # 100))
    then reward - Qabs portfolio_return * 10
    else reward in
  let reward :=
    if Qlt_bool (5 # 100) portfolio_return
    then reward + portfolio_return * 5
    else reward in
  reward.

(** The validity check at the head of [step]: the penalty, the blocked
    flag and the action that is then executed. *)
Definition check_action (e : env) (action : Z) : Q * bool * Z :=
  if (action =? 0)%Z then
    if negb (_can_sell e) then (- (5 # 1), true, 1%Z) else (0, false, action)
  else if (action =? 2)%Z then
    if negb (_can_buy e) then (- (5 # 1), true, 1%Z) else (0, false, action)
  else (0, false, action).

(** The execution of the checked action at [current_price]: the account
    attributes and the trade log after it. *)
Definition execute (e : env) (action : Z) (current_price : Q) : env :=
  if (action =? 0)%Z then
    if Qlt_bool 0 (btc_held e) then
      let btc_value := btc_held e * current_price in
      let transaction_fee := btc_value * transaction_cost e in
      let balance' := balance e + (btc_value - transaction_fee) in
      let t := mk_trade (current_step e) sell current_price (btc_held e)
                        btc_value transaction_fee (Some balance') None
                        (balance' + 0) in
      mk_env (data e) (scaler e) (lookback_window e) (initial_balance e)
             (current_step e) balance' 0 (total_value e) (transaction_cost e)
             (current_step e) (Some 0%Z) (max_position_hold e)
             (trades e ++ [t]) (portfolio_values e) (actions_taken e)
    else e
  else if (action =? 2)%Z then
    if Qlt_bool 0 (balance e) then
      let transaction_fee := balance e * transaction_cost e in
      let investable_amount := balance e - transaction_fee in
      let btc_amount := investable_amount / current_price in
      let t := mk_trade (current_step e) buy current_price btc_amount
                        investable_amount transaction_fee None (Some btc_amount)
                        (btc_amount * current_price) in
      mk_env (data e) (scaler e) (lookback_window e) (initial_balance e)
             (current_step e) 0 btc_amount (total_value e) (transaction_cost e)
             (current_step e) (Some 2%Z) (max_position_hold e)
             (trades e ++ [t]) (portfolio_values e) (actions_taken e)
    else e
  else e.

(** The bookkeeping after the execution: portfolio value, the two logs and
    the cursor. *)
Definition advance (e : env) (action : Z) (current_price : Q) : env :=
  let total_value' := balance e + btc_held e * current_price in
  mk_env (data e) (scaler e) (lookback_window e) (initial_balance e)
         (S (current_step e)) (balance e) (btc_held e) total_value'
         (transaction_cost e) (last_action_step e) (last_trading_action e)
         (max_position_hold e) (trades e)
         (portfolio_values e ++ [total_value'])
         (actions_taken e ++ [action]).

Definition end_of_data (e : env) : bool :=
  (length (data e) - 1 <=? current_step e)%nat.

Definition step (e : env) (action : Z) : env * res transition :=
  if end_of_data e then
    match _get_state e with
    | Raise x => (e, Raise x)
    | Ok s => (e, Ok (mk_transition s 0 true (ErrorInfo "End of data")))
    end
  else
    match _get_current_price e with
    | Raise x => (e, Raise x)
    | Ok current_price =>
        let '(reward_penalty, action_blocked, action) := check_action e action in
        let prev_total_value := total_value e in
        let e1 := execute e action current_price in
        let e2 := advance e1 action current_price in
        let base_reward := _calculate_reward e2 prev_total_value action_blocked in
        let reward := base_reward + reward_penalty in
        let done :=
          Qlt_bool (total_value e2) (initial_balance e2 * (1 # 10))
          || (length (data e2) - 1 <=? current_step e2)%nat in
        let info :=
          StepInfo (total_value e2) (balance e2) (btc_held e2) current_price
                   action_blocked (last_trading_action e2)
                   (_can_buy e2) (_can_sell e2) in
        match _get_state e2 with
        | Raise x => (e2, Raise x)
        | Ok s => (e2, Ok (mk_transition s reward done info))
        end
    end.

(** A sequence of [step] calls on one object; a call that raises leaves the
    object as it is at that point and the driver goes on. *)
Definition run (e : env) (actions : list Z) : env :=
  fold_left (fun e a => fst (step e a)) actions e.

End Simulator.

(** *** Performance metrics *)

(** [np.maximum.accumulate]: the running maximum. *)
Fixpoint maximum_accumulate_from (peak : Q) (l : list Q) : list Q :=
  match l with
  | [] => []
  | x :: l' => Qmax peak x :: maximum_accumulate_from (Qmax peak x) l'
  end.

Definition maximum_accumulate (l : list Q) : list Q :=
  match l with
  | [] => []
  | x :: l' => x :: maximum_accumulate_from x l'
  end.

(** [np.min] and [np.max] of an array that is not empty. *)
Definition np_min (l : list Q) : Q :=
  match l with
  | [] => 0
  | x :: l' => fold_left Qmin l' x
  end.

Definition np_max (l : list Q) : Q :=
  match l with
  | [] => 0
  | x :: l' => fold_left Qmax l' x
  end.

(** [np.diff]: the differences of neighbours. *)
Definition np_diff (l : list Q) : list Q :=
  match l with
  | [] => []
  | _ :: l' => map (fun p => snd p - fst p) (combine l l')
  end.

(** [a / b] on two arrays, entry by entry; where NumPy gives [nan] or
    [inf] for a zero divisor, this is the division of [Q]. *)
Definition np_divide (a b : list Q) : list Q :=
  map (fun p => fst p / snd p) (combine a b).

Definition _calculate_max_drawdown (portfolio_values : list Q) : Q :=
  if (length portfolio_values <? 2)%nat then 0
  else
    let peak := maximum_accumulate portfolio_values in
    let drawdown :=
      np_divide (map (fun p => fst p - snd p) (combine portfolio_values peak))
                peak in
    np_min drawdown.

(** A Python float that may be [float('inf')]. *)
Inductive py_float : Type :=
| Finite (q : Q)
| Infinity.

Definition _calculate_profit_factor (e : env) : py_float :=
  if (length (portfolio_values e) <? 2)%nat then Finite 0
  else
    let returns := np_diff (portfolio_values e) in
    let gross_profit := Qsum (filter (fun r => Qlt_bool 0 r) returns) in
    let gross_loss := Qabs (Qsum (filter (fun r => Qlt_bool r 0) returns)) in
    if Qlt_bool 0 gross_loss then Finite (gross_profit / gross_loss)
    else Infinity.

(** [df.iloc[i]] for an integer [i]: negative positions count from the
    end, positions outside the frame raise. *)
Definition iloc {A : Type} (l : list A) (i : Z) : res A :=
  let n := Z.of_nat (length l) in
  let pos := if (i <? 0)%Z then (i + n)%Z else i in
  if (pos <? 0)%Z then Raise IndexError
  else
    match nth_error l (Z.to_nat pos) with
    | Some x => Ok x
    | None => Raise IndexError
    end.

(** The dictionary of [get_portfolio_performance]. *)
Record metrics : Type := mk_metrics {
  total_return : Q;
  total_return_pct : Q;
  final_value : Q;
  max_value : Q;
  min_value : Q;
  volatility : Q;
  sharpe_ratio : Q;
  num_trades : nat;
  win_rate : Q;
  max_drawdown : Q;
  profit_factor : py_float
}.

(** The dictionary of [get_buy_and_hold_performance]. *)
Record bh_metrics : Type := mk_bh_metrics {
  bh_total_return : Q;
  bh_total_return_pct : Q;
  bh_final_value : Q;
  bh_volatility : Q;
  bh_sharpe_ratio : Q;
  bh_max_drawdown : Q
}.

Section Metrics.

Variable np_sqrt : Q -> Q.

(** [get_portfolio_performance]: [None] is the empty dictionary. *)
Definition get_portfolio_performance (e : env) : res (option metrics) :=
  if (length (portfolio_values e) <? 2)%nat then Ok None
  else
    let portfolio_values := portfolio_values e in
    let returns :=
      np_divide (np_diff portfolio_values) (removelast portfolio_values) in
    let total_return :=
      (total_value e - initial_balance e) / initial_balance e in
    match _calculate_win_rate e with
    | Raise x => Raise x
    | Ok win_rate =>
        Ok (Some
              (mk_metrics
                 total_return
                 (total_return * 100)
                 (total_value e)
                 (np_max portfolio_values)
                 (np_min portfolio_values)
                 (if (1 <? length returns)%nat
                  then np_std np_sqrt returns * np_sqrt (24 * 365)
                  else 0)
                 (if Qlt_bool 0 (np_std np_sqrt returns)
                  then (np_mean returns * 24 * 365)
                       / (np_std np_sqrt returns * np_sqrt (24 * 365))
                  else 0)
                 (length (trades e))
                 win_rate
                 (_calculate_max_drawdown portfolio_values)
                 (_calculate_profit_factor e)))
    end.

Definition get_buy_and_hold_performance (e : env)
    (start_step end_step : option Z) : res bh_metrics :=
  let start_step :=
    match start_step with
    | None => Z.of_nat (lookback_window e)
    | Some s => s
    end in
  let end_step :=
    match end_step with
    | None => (Z.of_nat (length (data e)) - 1)%Z
    | Some s => s
    end in
  match iloc (data e) start_step with
  | Raise x => Raise x
  | Ok start_row =>
      match iloc (data e) end_step with
      | Raise x => Raise x
      | Ok end_row =>
          let start_price := CLOSE start_row in
          let end_price := CLOSE end_row in
          let bh_return := (end_price - start_price) / start_price in
          let bh_final_value := initial_balance e * (1 + bh_return) in
          let prices :=
            map CLOSE (py_slice (data e) start_step (end_step + 1)) in
          let bh_returns := np_divide (np_diff prices) (removelast prices) in
          let bh_volatility :=
            if (1 <? length bh_returns)%nat
            then np_std np_sqrt bh_returns * np_sqrt (24 * 365)
            else 0 in
          Ok (mk_bh_metrics
                bh_return
                (bh_return * 100)
                bh_final_value
                bh_volatility
                (if Qlt_bool 0 (np_std np_sqrt bh_returns)
                 then (np_mean bh_returns * 24 * 365)
                      / (np_std np_sqrt bh_returns * np_sqrt (24 * 365))
                 else 0)
                (_calculate_max_drawdown prices))
      end
  end.

End Metrics.

End TradingEnvironment.

(** ** The Q-network and the agent *)

Module DQNModel.

(** [Experience], the named tuple kept in the replay memory. *)
Record Experience : Type := mk_Experience {
  state : list Q;
  action : nat;
  reward : Q;
  next_state : list Q;
  done : bool
}.

(** The entries of [MODEL_CONFIG] that [DQNAgent.__init__] copies. *)
Record model_config : Type := mk_model_config {
  cfg_gamma : Q;
  cfg_epsilon_start : Q;
  cfg_epsilon_end : Q;
  cfg_epsilon_decay : Q;
  cfg_batch_size : nat;
  cfg_target_update_freq : nat
}.

Definition MODEL_CONFIG : model_config :=
  mk_model_config (99 # 100) 1 (1 # 100) (99995 # 100000) 128 100.

(** [t.argmax()] on one row: the index of the first greatest entry. *)
Fixpoint argmax_from (best : Q) (best_i i : nat) (l : list Q) : nat :=
  match l with
  | [] => best_i
  | x :: l' =>
      if Qlt_bool best x then argmax_from x i (S i) l'
      else argmax_from best best_i (S i) l'
  end.

Definition argmax (l : list Q) : nat :=
  match l with
  | [] => 0%nat
  | x :: l' => argmax_from x 0 1 l'
  end.

Section Network.

(** The parameters of a [DQN] (its [state_dict]), the state of the Adam
    optimizer, and the randomness drawn by the dropout layers in one forward
    pass. *)
Variables params opt_state dropout : Type.

(** The layers of [DQN.forward] up to [feature_combiner], and the two heads
    of the dueling architecture, on one row of the batch. *)
Variable features : params -> dropout -> list Q -> list Q.
Variable value_stream : params -> list Q -> Q.
Variable advantage_stream : params -> list Q -> list Q.

(** [zero_grad], [backward], [clip_grad_norm_] and [optimizer.step] for the
    loss between the current and the target Q-values. *)
Variable optimizer_step :
  opt_state -> params -> dropout -> list Experience -> list Q -> opt_state * params.

(** [DQN.forward] on one row [x] of the batch. *)
Definition forward (theta : params) (w : dropout) (x : list Q) : list Q :=
  let feats := features theta w x in
  let value := value_stream theta feats in
  let advantage := advantage_stream theta feats in
  let advantage_mean := np_mean advantage in
  map (fun a => value + (a - advantage_mean)) advantage.

(** The attributes of a [DQNAgent]. *)
Record agent : Type := mk_agent {
  gamma : Q;
  epsilon : Q;
  epsilon_end : Q;
  epsilon_decay : Q;
  batch_size : nat;
  target_update_freq : nat;
  q_network : params;
  target_network : params;
  optimizer : opt_state;
  memory : list Experience;
  steps_done : nat
}.

(** [DQNAgent.__init__]: the hyperparameters come from the configuration and
    the target network starts as a copy of the online one. *)
Definition init (cfg : model_config) (theta : params) (o : opt_state) : agent :=
  mk_agent (cfg_gamma cfg) (cfg_epsilon_start cfg) (cfg_epsilon_end cfg)
           (cfg_epsilon_decay cfg) (cfg_batch_size cfg)
           (cfg_target_update_freq cfg) theta theta o [] 0.

(** The targets of the double-DQN update, one per sampled transition: the
    online network selects the next action, the target network values it. *)
Definition target_q_value (ag : agent) (w_sel w_eval : dropout)
    (x : Experience) : Q :=
  let next_action := argmax (forward (q_network ag) w_sel (next_state x)) in
  let next_q_value :=
    nth next_action (forward (target_network ag) w_eval (next_state x)) 0 in
  reward x + gamma ag * next_q_value * Q_of_bool (negb (done x)).

Definition target_q_values (ag : agent) (w_sel w_eval : dropout)
    (experiences : list Experience) : list Q :=
  map (target_q_value ag w_sel w_eval) experiences.

Definition current_q_values (ag : agent) (w : dropout)
    (experiences : list Experience) : list Q :=
  map (fun x => nth (action x) (forward (q_network ag) w (state x)) 0)
      experiences.

(** [F.mse_loss]. *)
Definition mse_loss (xs ys : list Q) : Q :=
  np_mean (map (fun p => (fst p - snd p) * (fst p - snd p)) (combine xs ys)).

(** What one call of [learn] draws at random: the batch sampled from the
    memory and the dropout masks of its three forward passes. *)
Record draw : Type := mk_draw {
  experiences : list Experience;
  w_current : dropout;
  w_select : dropout;
  w_evaluate : dropout
}.

(** [DQNAgent.learn]: the agent after the call and the returned loss, [None]
    when the memory holds fewer than [batch_size] transitions.  With
    [batch_size = 0] the sample is empty and building the [Experience] of
    the batch from it raises TypeError before anything is written.  With
    [target_update_freq = 0] the test [steps_done % target_update_freq]
    raises, after the optimizer step and the increment of [steps_done] and
    before the exploration rate is touched. *)
Definition learn (ag : agent) (d : draw) : agent * res (option Q) :=
  if (length (memory ag) <? batch_size ag)%nat then (ag, Ok None)
  else if (batch_size ag =? 0)%nat then (ag, Raise TypeError)
  else
    let current := current_q_values ag (w_current d) (experiences d) in
    let target :=
      target_q_values ag (w_select d) (w_evaluate d) (experiences d) in
    let loss := mse_loss current target in
    let '(optimizer', q_network') :=
      optimizer_step (optimizer ag) (q_network ag) (w_current d)
                     (experiences d) target in
    let steps_done' := S (steps_done ag) in
    if (target_update_freq ag =? 0)%nat then
      (mk_agent (gamma ag) (epsilon ag) (epsilon_end ag) (epsilon_decay ag)
                (batch_size ag) (target_update_freq ag) q_network'
                (target_network ag) optimizer' (memory ag) steps_done',
       Raise ZeroDivisionError)
    else
      let target_network' :=
        if (steps_done' mod target_update_freq ag =? 0)%nat then q_network'
        else target_network ag in
      let epsilon' :=
        if Qlt_bool (epsilon_end ag) (epsilon ag)
        then epsilon ag * epsilon_decay ag
        else epsilon ag in
      (mk_agent (gamma ag) epsilon' (epsilon_end ag) (epsilon_decay ag)
                (batch_size ag) (target_update_freq ag) q_network'
                target_network' optimizer' (memory ag) steps_done',
       Ok (Some loss)).

(** [store_experience]: the replay memory is a deque, the oldest entry
    leaves once [capacity] is reached. *)
Definition store_experience (capacity : nat) (ag : agent) (x : Experience)
    : agent :=
  let m := memory ag ++ [x] in
  mk_agent (gamma ag) (epsilon ag) (epsilon_end ag) (epsilon_decay ag)
           (batch_size ag) (target_update_freq ag) (q_network ag)
           (target_network ag) (optimizer ag)
           (skipn (length m - capacity) m) (steps_done ag).

(** A sequence of [learn] calls on one agent. *)
Definition learn_all (ag : agent) (ds : list draw) : agent :=
  fold_left (fun a d => fst (learn a d)) ds ag.

End Network.

Arguments forward {params dropout}.
Arguments target_q_value {params opt_state dropout}.
Arguments target_q_values {params opt_state dropout}.
Arguments current_q_values {params opt_state dropout}.
Arguments learn {params opt_state dropout}.
Arguments learn_all {params opt_state dropout}.
Arguments store_experience {params opt_state}.
Arguments init {params opt_state}.
Arguments mk_agent {params opt_state}.
Arguments mk_draw {dropout}.
Arguments experiences {dropout}.
Arguments w_current {dropout}.
Arguments w_select {dropout}.
Arguments w_evaluate {dropout}.
Arguments gamma {params opt_state}.
Arguments epsilon {params opt_state}.
Arguments epsilon_end {params opt_state}.
Arguments epsilon_decay {params opt_state}.
Arguments batch_size {params opt_state}.
Arguments target_update_freq {params opt_state}.
Arguments q_network {params opt_state}.
Arguments target_network {params opt_state}.
Arguments optimizer {params opt_state}.
Arguments memory {params opt_state}.
Arguments steps_done {params opt_state}.

(** *** Action selection *)

(** The five constraint flags that close a state, compared with 0.5, as
    [_get_valid_actions] and [_apply_action_mask] both read them:
    [constraints = state[-5:]], then [constraints[0] > 0.5] to
    [constraints[4] > 0.5].  A state of fewer than five entries makes one of
    the lookups raise. *)
Definition constraint_flags (state : list Q)
    : res (bool * bool * bool * bool * bool) :=
  let constraints := lastn 5 state in
  match nth_error constraints 0, nth_error constraints 1,
        nth_error constraints 2, nth_error constraints 3,
        nth_error constraints 4 with
  | Some c0, Some c1, Some c2, Some c3, Some c4 =>
      Ok (Qlt_bool (1 # 2) c0, Qlt_bool (1 # 2) c1, Qlt_bool (1 # 2) c2,
          Qlt_bool (1 # 2) c3, Qlt_bool (1 # 2) c4)
  | _, _, _, _, _ => Raise IndexError
  end.

Definition _get_valid_actions (state : list Q) : res (list nat) :=
  match constraint_flags state with
  | Raise x => Raise x
  | Ok (can_sell_btc, can_hold, can_buy_cash, can_sell_action, can_buy_action) =>
      Ok ((if can_sell_btc && can_sell_action then [0%nat] else [])
          ++ (if can_hold then [1%nat] else [])
          ++ (if can_buy_cash && can_buy_action then [2%nat] else []))
  end.

(** [t[0, i] = v] on the one row of a tensor. *)
Definition set_item (l : list Q) (i : nat) (v : Q) : res (list Q) :=
  if (i <? length l)%nat then Ok (firstn i l ++ v :: skipn (S i) l)
  else Raise IndexError.

Definition _apply_action_mask (q_values : list Q) (state : list Q)
    : res (list Q) :=
  match constraint_flags state with
  | Raise x => Raise x
  | Ok (can_sell_btc, can_hold, can_buy_cash, can_sell_action, can_buy_action) =>
      let very_low_value := - (1000 # 1) in
      let masked :=
        if negb (can_sell_btc && can_sell_action)
        then set_item q_values 0 very_low_value
        else Ok q_values in
      match masked with
      | Raise x => Raise x
      | Ok masked_q_values =>
          if negb (can_buy_cash && can_buy_action)
          then set_item masked_q_values 2 very_low_value
          else Ok masked_q_values
      end
  end.

Section Policy.

Variables params opt_state dropout : Type.
Variable features : params -> dropout -> list Q -> list Q.
Variable value_stream : params -> list Q -> Q.
Variable advantage_stream : params -> list Q -> list Q.

(** [select_action]: [u] is the draw of [random.random()], [pick] the
    position drawn by [random.choice], [w] the dropout draw of the forward
    pass. *)
Definition select_action (ag : agent params opt_state) (state : list Q)
    (training : bool) (u : Q) (pick : nat) (w : dropout) : res nat :=
  if training && Qlt_bool u (epsilon ag) then
    match _get_valid_actions state with
    | Raise x => Raise x
    | Ok valid_actions =>
        if (0 <? length valid_actions)%nat
        then Ok (nth (pick mod length valid_actions) valid_actions 1%nat)
        else Ok 1%nat
    end
  else
    let q_values :=
      forward features value_stream advantage_stream (q_network ag) w state in
    match _apply_action_mask q_values state with
    | Raise x => Raise x
    | Ok masked_q_values => Ok (argmax masked_q_values)
    end.

Definition update_target_network (ag : agent params opt_state)
    : agent params opt_state :=
  mk_agent (gamma ag) (epsilon ag) (epsilon_end ag) (epsilon_decay ag)
           (batch_size ag) (target_update_freq ag) (q_network ag)
           (q_network ag) (optimizer ag) (memory ag) (steps_done ag).

End Policy.

Arguments select_action {params opt_state dropout}.
Arguments update_target_network {params opt_state}.

(** *** The shape of the temporal segment *)

(** [DQN.__init__]: the feature count inferred from the input size;
    [lookback_window] is [MODEL_CONFIG['lookback_window']]. *)
Definition feature_count (lookback_window input_size : Z) : Z :=
  Z.max 1 ((input_size - 4 - 5) / lookback_window).

(** [t.view(rows, cols)] on the data of one batch row; [None] stands for
    the RuntimeError of a size that does not fit. *)
Fixpoint chunks (rows cols : nat) (l : list Q) : list (list Q) :=
  match rows with
  | O => []
  | S r => firstn cols l :: chunks r cols (skipn cols l)
  end.

Definition view (rows cols : nat) (l : list Q) : option (list (list Q)) :=
  if (length l =? rows * cols)%nat then Some (chunks rows cols l) else None.

(** The head of [DQN.forward] on one batch row [x]: the temporal segment
    cut out, fitted to [actual_window_size * actual_feature_count] entries
    and reshaped to [(timesteps, features)]. *)
Definition temporal_features (lookback_window self_feature_count : Z)
    (x : list Q) : option (list (list Q)) :=
  let total_input_size := Z.of_nat (length x) in
  let actual_lookback_size := (total_input_size - 4 - 5)%Z in
  let lookback_data := py_slice x 0 actual_lookback_size in
  let actual_feature_count := (actual_lookback_size / lookback_window)%Z in
  let '(actual_feature_count, actual_window_size) :=
    if (actual_feature_count <=? 0)%Z then (1%Z, actual_lookback_size)
    else (actual_feature_count, lookback_window) in
  if (0 <? actual_lookback_size)%Z then
    let expected_size := (actual_window_size * actual_feature_count)%Z in
    let lookback_data :=
      if negb (actual_lookback_size =? expected_size)%Z then
        if (expected_size <? actual_lookback_size)%Z
        then py_slice lookback_data 0 expected_size
        else lookback_data
             ++ repeat 0 (Z.to_nat (expected_size - actual_lookback_size))
      else lookback_data in
    view (Z.to_nat actual_window_size) (Z.to_nat actual_feature_count)
         lookback_data
  else Some [repeat 0 (Z.to_nat self_feature_count)].

End DQNModel.

(** ** The training driver *)

Module Main.

(** [DATA_CONFIG['train_split']] and [DATA_CONFIG['eval_split']]. *)
Definition DATA_CONFIG_train_split : Q := 8 # 10.
Definition DATA_CONFIG_eval_split : Q := 1 # 10.

(** [DQNTradingSystem.split_data]: [int(x)] of a float that is not
    negative is its floor. *)
Definition split_data {A : Type} (data : list A)
    : list A * list A * list A :=
  let total_length := Z.of_nat (length data) in
  let train_end := Qfloor (inject_Z total_length * DATA_CONFIG_train_split) in
  let eval_end :=
    (train_end + Qfloor (inject_Z total_length * DATA_CONFIG_eval_split))%Z in
  let train_data := py_slice data 0 train_end in
  let eval_data := py_slice data train_end eval_end in
  let test_data := py_slice data eval_end total_length in
  (train_data, eval_data, test_data).

(** [initialize_agent]: the state size handed to [DQNAgent]. *)
Definition state_size (feature_names lookback_window : Z) : Z :=
  (feature_names * lookback_window + 4 + 5)%Z.

End Main.

(** ** Concrete scenarios

    The synthetic price series of the specification's scenarios
    ([100, 110, 90, 120, 80], repeated), a fee of 0.1%, an initial capital of
    1000 and a lookback of one row. *)

Module Scenario.

Import TradingEnvironment.

(** A square root to six decimals, exact on the squares used below. *)
Definition sqrt6 (q : Q) : Q :=
  Qmake (Z.sqrt (Qnum q * 10 ^ 12 / Zpos (Qden q))) (10 ^ 6).

Definition prices : list Q :=
  [100; 110; 90; 120; 80; 100; 110; 90; 120; 80; 100; 110; 90; 120; 80].

Definition rows : list row := map (fun p => mk_row p [p]) prices.

(** A scaler with mean 0 and scale 1. *)
Definition unit_scaler (window : list row) : list (list Q) :=
  map feature_values window.

Definition fresh : env := init rows unit_scaler 1 1000.

(** After [reset()]: the cursor is at index 1, where the price is 110. *)
Definition started : env := reset_env fresh None.

(** After [reset()] and [step(2)]: one open buy position. *)
Definition bought : env := run sqrt6 started [2%Z].

(** After [reset()], [step(2)] and [step(1)]: the position bought at 110 is
    still open and the cursor is on the price 120. *)
Definition bought_held : env := run sqrt6 started [2%Z; 1%Z].

(** After [reset()], a buy and eight holds, and after one more hold: nine
    and ten portfolio values. *)
Definition nine_steps : env :=
  run sqrt6 started [2; 1; 1; 1; 1; 1; 1; 1; 1]%Z.
Definition ten_steps : env := run sqrt6 nine_steps [1%Z].

(** The five-row series with the cursor on its last row. *)
Definition short : env := init (firstn 5 rows) unit_scaler 4 1000.
Definition at_end : env := reset_env short None.

(** The five-row series after [reset(start_step=7)], which raised. *)
Definition past_end : env := reset_env short (Some 7%Z).

(** A simulator built without capital, before any [reset]: the cursor is
    at 0 and the window at the next cursor holds the row 0. *)
Definition zero_capital : env := init rows unit_scaler 1 0.

(** A simulator with a lookback of two rows, built and never reset: the
    window [iloc[-1:1]] at the next cursor is empty. *)
Definition unreset : env := init rows unit_scaler 2 1000.

(** The five-row series without capital, after a [reset()] that raised once
    the attributes were written: the cursor is on the last row. *)
Definition broke_at_end : env :=
  reset_env (init (firstn 5 rows) unit_scaler 4 0) None.

(** A one-row series with a lookback of 0, before any [reset]: the cursor
    is on the last row and the window is empty. *)
Definition single_row : env := init (firstn 1 rows) unit_scaler 0 1000.

(** After [reset()], a buy at 110 and a sell at 90: one completed cycle. *)
Definition traded : env := run sqrt6 started [2%Z; 0%Z].

(** After [reset()] and two holds: the account never left cash. *)
Definition idle : env := run sqrt6 started [1%Z; 1%Z].

(** A small network: the parameter is one rational, there is no dropout. *)
Definition toy_features (theta : Q) (w : unit) (x : list Q) : list Q := x.
Definition toy_value (theta : Q) (feats : list Q) : Q := Qsum feats + theta.
Definition toy_advantage (theta : Q) (feats : list Q) : list Q :=
  [theta; Qsum feats; 2 * theta].
Definition toy_optimizer (o : unit) (theta : Q) (w : unit)
    (batch : list DQNModel.Experience) (target : list Q) : unit * Q :=
  (o, theta).

Definition terminal : DQNModel.Experience :=
  DQNModel.mk_Experience [1; 2] 2 (7 # 2) [3; 4] true.

Definition toy_draw : DQNModel.draw unit :=
  DQNModel.mk_draw [terminal] tt tt tt.

(** An agent built by [__init__] from [cfg] whose memory, of capacity 1000,
    has received [n] transitions. *)
Definition toy_agent (cfg : DQNModel.model_config) (n : nat)
    : DQNModel.agent Q unit :=
  fold_left (DQNModel.store_experience 1000) (repeat terminal n)
            (DQNModel.init cfg (1 # 2) tt).

Definition toy_learn_all :=
  DQNModel.learn_all toy_features toy_value toy_advantage toy_optimizer.

(** A configuration with a fast decay: floor 0.3, factor 0.5, batches of
    one transition. *)
Definition fast_config : DQNModel.model_config :=
  DQNModel.mk_model_config (99 # 100) 1 (3 # 10) (1 # 2) 1 100.

(** Three configurations outside the usual range: a decay factor above 1,
    a negative floor below a negative starting rate, and a negative decay
    factor. *)
Definition growing_config : DQNModel.model_config :=
  DQNModel.mk_model_config (99 # 100) 1 (3 # 10) 2 1 100.
Definition negative_floor_config : DQNModel.model_config :=
  DQNModel.mk_model_config (99 # 100) (- (1 # 2)) (- (1 # 1)) (1 # 2) 1 100.
Definition negative_decay_config : DQNModel.model_config :=
  DQNModel.mk_model_config (99 # 100) 1 (3 # 10) (- (1 # 2)) 1 100.

(** An optimizer that moves the parameter, by 1 at every step, and a
    configuration that copies the online network to the target network at
    every second learning step, with batches of one transition. *)
Definition moving_optimizer (o : unit) (theta : Q) (w : unit)
    (batch : list DQNModel.Experience) (target : list Q) : unit * Q :=
  (o, theta + 1).
Definition sync_config : DQNModel.model_config :=
  DQNModel.mk_model_config (99 # 100) 1 (1 # 100) (99995 # 100000) 1 2.

(** The repository's agent with a full first batch in memory. *)
Definition repo_agent : DQNModel.agent Q unit :=
  toy_agent DQNModel.MODEL_CONFIG 128.

(** An agent whose exploration rate has fallen to 0.25, below its floor
    of 0.3. *)
Definition settled_agent : DQNModel.agent Q unit :=
  toy_learn_all (toy_agent fast_config 1) [toy_draw; toy_draw].

(** The repository's agent after [n] calls of [learn]. *)
Definition repo_run (n : nat) : DQNModel.agent Q unit :=
  toy_learn_all repo_agent (repeat toy_draw n).

End Scenario.

(** * Properties *)

Import TradingEnvironment.

Arguments execute : simpl never.
Arguments check_action : simpl never.
Arguments _calculate_reward : simpl never.
Arguments _get_state : simpl never.
Arguments _get_current_price : simpl never.

Lemma Qlt_bool_iff (x y : Q) : Qlt_bool x y = true <-> x < y.
Proof.
  unfold Qlt_bool. rewrite negb_true_iff.
  split; intro H.
  - apply Qnot_le_lt. intro L. apply Qle_bool_iff in L. congruence.
  - destruct (Qle_bool y x) eqn:E; [|reflexivity].
    apply Qle_bool_iff in E. exfalso. apply (Qlt_not_le _ _ H E).
Qed.

Lemma Qlt_bool_false_iff (x y : Q) : Qlt_bool x y = false <-> y <= x.
Proof.
  unfold Qlt_bool. rewrite negb_false_iff. apply Qle_bool_iff.
Qed.

(** ** Where the simulator can and cannot raise *)

Lemma price_in_range (e : env) :
  (current_step e < length (data e))%nat ->
  exists p, _get_current_price e = Ok p.
Proof.
  intros H. unfold _get_current_price.
  destruct (nth_error (data e) (current_step e)) as [r|] eqn:E.
  - now exists (CLOSE r).
  - apply nth_error_None in E. lia.
Qed.

Lemma price_out_of_range (e : env) :
  (length (data e) <= current_step e)%nat ->
  _get_current_price e = Raise IndexError.
Proof.
  intros H. unfold _get_current_price.
  apply nth_error_None in H. now rewrite H.
Qed.

Lemma slice_bound_le (len : nat) (i : Z) : (slice_bound len i <= len)%nat.
Proof.
  unfold slice_bound. destruct (Z.ltb_spec i 0); lia.
Qed.

(** A slice is empty exactly when its resolved bounds leave no room. *)
Lemma py_slice_nonempty {A : Type} (l : list A) (start stop : Z) :
  py_slice l start stop <> [] <->
  (slice_bound (length l) start < slice_bound (length l) stop)%nat.
Proof.
  unfold py_slice.
  pose proof (slice_bound_le (length l) stop) as Hstop.
  set (s := slice_bound (length l) start) in *.
  set (e := slice_bound (length l) stop) in *.
  rewrite <- length_zero_iff_nil, length_firstn, length_skipn. lia.
Qed.

(** A window that is not empty stays so when the cursor moves on by one
    row inside the series. *)
Lemma state_computable_succ (e : env) (cursor : nat) :
  (S cursor <= length (data e))%nat ->
  state_computable e cursor -> state_computable e (S cursor).
Proof.
  unfold state_computable. intros Hlen (Hw & Hi & Hm).
  split; [|now split].
  rewrite py_slice_nonempty in *. unfold slice_bound in *.
  destruct (Z.ltb_spec (Z.of_nat cursor - Z.of_nat (lookback_window e)) 0),
           (Z.ltb_spec (Z.of_nat (S cursor) - Z.of_nat (lookback_window e)) 0),
           (Z.ltb_spec (Z.of_nat cursor) 0),
           (Z.ltb_spec (Z.of_nat (S cursor)) 0); lia.
Qed.

(** [_get_state] returns a state exactly when the state can be computed at
    the cursor and the cursor is an index of the series. *)
Lemma state_returned_iff (e : env) :
  (exists s, _get_state e = Ok s) <->
  state_computable e (current_step e) /\
  (current_step e < length (data e))%nat.
Proof.
  unfold _get_state, state_computable.
  destruct (py_slice _ _ _) as [|r w] eqn:Hw.
  { split; [intros [s H]; discriminate|intros [[H _] _]; now contradiction H]. }
  destruct (Qeq_bool (initial_balance e) 0) eqn:Hi.
  { apply Qeq_bool_iff in Hi.
    split; [intros [s H]; discriminate|intros [(_ & H & _) _]; contradiction]. }
  apply Qeq_bool_neq in Hi.
  destruct (_get_current_price e) as [p|x] eqn:Hp.
  - assert (Hlt : (current_step e < length (data e))%nat).
    { destruct (Nat.le_gt_cases (length (data e)) (current_step e)) as [H|H];
        [|exact H].
      rewrite (price_out_of_range e H) in Hp. discriminate. }
    destruct (Qeq_bool (max_position_hold e) 0) eqn:Hm.
    + apply Qeq_bool_iff in Hm.
      split; [intros [s H]; discriminate|intros [(_ & _ & H) _]; contradiction].
    + apply Qeq_bool_neq in Hm. split; [|eauto].
      intros _. repeat split; trivial. discriminate.
  - split; [intros [s H]; discriminate|].
    intros [_ H]. destruct (price_in_range e H) as [p Hp']. congruence.
Qed.

Lemma state_in_range (e : env) :
  state_computable e (current_step e) ->
  (current_step e < length (data e))%nat ->
  exists s, _get_state e = Ok s.
Proof.
  intros Hc Hlt. apply state_returned_iff. now split.
Qed.

(** Every state ends with the four portfolio entries and the five
    constraint flags. *)
Lemma state_shape (e : env) (s : list Q) :
  _get_state e = Ok s ->
  exists temporal portfolio constraints,
    s = temporal ++ portfolio ++ constraints /\
    length portfolio = 4%nat /\ length constraints = 5%nat.
Proof.
  unfold _get_state.
  destruct (py_slice _ _ _); [discriminate|].
  destruct (Qeq_bool (initial_balance e) 0); [discriminate|].
  destruct (_get_current_price e); [|discriminate].
  destruct (Qeq_bool (max_position_hold e) 0); [discriminate|].
  intros H. injection H as H. rewrite <- H.
  eexists _, [_; _; _; _], [_; _; _; _; _].
  split; [reflexivity|]. split; reflexivity.
Qed.

Lemma end_of_data_false (e : env) :
  end_of_data e = false <-> (S (current_step e) < length (data e))%nat.
Proof.
  unfold end_of_data. rewrite Nat.leb_gt. lia.
Qed.

Lemma end_of_data_true (e : env) :
  end_of_data e = true <-> (length (data e) - 1 <= current_step e)%nat.
Proof.
  unfold end_of_data. apply Nat.leb_le.
Qed.

(** ** What [execute] and [advance] leave alone *)

Lemma execute_data (e : env) (a : Z) (p : Q) :
  data (execute e a p) = data e /\
  current_step (execute e a p) = current_step e /\
  initial_balance (execute e a p) = initial_balance e /\
  total_value (execute e a p) = total_value e /\
  portfolio_values (execute e a p) = portfolio_values e /\
  actions_taken (execute e a p) = actions_taken e.
Proof.
  unfold execute.
  destruct (a =? 0)%Z; [destruct (Qlt_bool 0 (btc_held e)); simpl; tauto|].
  destruct (a =? 2)%Z; [destruct (Qlt_bool 0 (balance e)); simpl; tauto|].
  tauto.
Qed.

Lemma execute_hold (e : env) (p : Q) : execute e 1 p = e.
Proof. reflexivity. Qed.

Section SimulatorProperties.

Variable np_sqrt : Q -> Q.

(** [advance] and [execute] do not touch what [state_computable] reads. *)
Lemma state_computable_advance (e : env) (a : Z) (p : Q) (cursor : nat) :
  state_computable (advance (execute e a p) a p) cursor <->
  state_computable e cursor.
Proof.
  unfold state_computable. cbn [advance data lookback_window initial_balance
                                max_position_hold].
  destruct (execute_data e a p) as (Hd & _ & Hi & _).
  assert (Hl : lookback_window (execute e a p) = lookback_window e /\
               max_position_hold (execute e a p) = max_position_hold e).
  { unfold execute.
    destruct (a =? 0)%Z; [destruct (Qlt_bool 0 (btc_held e)); simpl; tauto|].
    destruct (a =? 2)%Z; [destruct (Qlt_bool 0 (balance e)); simpl; tauto|].
    tauto. }
  destruct Hl as [Hl Hm]. rewrite Hd, Hi, Hl, Hm. tauto.
Qed.

(** A call of [step] before the end of the data reads its price, executes
    the checked action and advances; what it returns or raises is decided by
    the final [_get_state]. *)
Lemma step_before_end_raw (e : env) (a : Z) :
  end_of_data e = false ->
  exists p,
    _get_current_price e = Ok p /\
    let pen := fst (fst (check_action e a)) in
    let blk := snd (fst (check_action e a)) in
    let a' := snd (check_action e a) in
    let e2 := advance (execute e a' p) a' p in
    step np_sqrt e a =
      (e2,
       match _get_state e2 with
       | Raise x => Raise x
       | Ok s =>
           Ok (mk_transition s
                 (_calculate_reward np_sqrt e2 (total_value e) blk + pen)
                 (Qlt_bool (total_value e2) (initial_balance e2 * (1 # 10))
                  || (length (data e2) - 1 <=? current_step e2)%nat)
                 (StepInfo (total_value e2) (balance e2) (btc_held e2) p blk
                           (last_trading_action e2) (_can_buy e2)
                           (_can_sell e2)))
       end).
Proof.
  intros Hend. pose proof Hend as Hlt. apply end_of_data_false in Hlt.
  destruct (price_in_range e) as [p Hp]; [lia|].
  exists p. split; [exact Hp|]. cbv zeta.
  unfold step. rewrite Hend, Hp.
  destruct (check_action e a) as [[pen blk] a0] eqn:Hc. cbn [fst snd].
  now destruct (_get_state (advance (execute e a0 p) a0 p)).
Qed.

(** The object after such a call, whatever the call returns or raises. *)
Lemma step_before_end_pair (e : env) (a : Z) :
  end_of_data e = false ->
  exists p r,
    _get_current_price e = Ok p /\
    step np_sqrt e a =
      (advance (execute e (snd (check_action e a)) p)
               (snd (check_action e a)) p, r).
Proof.
  intros Hend.
  destruct (step_before_end_raw e a Hend) as (p & Hp & Hs).
  exists p. eexists. split; [exact Hp|]. exact Hs.
Qed.

(** When the state can be computed at the next cursor the call returns. *)
Lemma step_before_end (e : env) (a : Z) :
  end_of_data e = false ->
  state_computable e (S (current_step e)) ->
  exists p s,
    _get_current_price e = Ok p /\
    let pen := fst (fst (check_action e a)) in
    let blk := snd (fst (check_action e a)) in
    let a' := snd (check_action e a) in
    let e2 := advance (execute e a' p) a' p in
    _get_state e2 = Ok s /\
    step np_sqrt e a =
      (e2,
       Ok (mk_transition s
             (_calculate_reward np_sqrt e2 (total_value e) blk + pen)
             (Qlt_bool (total_value e2) (initial_balance e2 * (1 # 10))
              || (length (data e2) - 1 <=? current_step e2)%nat)
             (StepInfo (total_value e2) (balance e2) (btc_held e2) p blk
                       (last_trading_action e2) (_can_buy e2) (_can_sell e2)))).
Proof.
  intros Hend Hc. pose proof Hend as Hlt. apply end_of_data_false in Hlt.
  destruct (step_before_end_raw e a Hend) as (p & Hp & Hs).
  cbv zeta in Hs.
  set (a' := snd (check_action e a)) in *.
  destruct (state_in_range (advance (execute e a' p) a' p)) as [s Hst].
  { apply state_computable_advance.
    destruct (execute_data e a' p) as (_ & Hcs & _).
    cbn [advance current_step]. rewrite Hcs. exact Hc. }
  { destruct (execute_data e a' p) as (Hd & Hcs & _).
    cbn [advance current_step data]. rewrite Hd, Hcs. exact Hlt. }
  exists p, s. split; [exact Hp|]. cbv zeta. fold a'.
  split; [exact Hst|]. rewrite Hs, Hst. reflexivity.
Qed.

Lemma step_at_end (e : env) (a : Z) :
  end_of_data e = true ->
  step np_sqrt e a =
    (e, match _get_state e with
        | Raise x => Raise x
        | Ok s => Ok (mk_transition s 0 true (ErrorInfo "End of data"))
        end).
Proof.
  intros Hend. unfold step. rewrite Hend.
  now destruct (_get_state e).
Qed.

(** The validity check blocks exactly the sells that [_can_sell] refuses and
    the buys that [_can_buy] refuses; a blocked request becomes a hold with a
    penalty of [-5.0]. *)
Lemma check_action_blocked (e : env) (a : Z) :
  snd (fst (check_action e a)) = true <->
  (a = 0%Z /\ _can_sell e = false) \/ (a = 2%Z /\ _can_buy e = false).
Proof.
  unfold check_action.
  destruct (a =? 0)%Z eqn:E0.
  - apply Z.eqb_eq in E0. subst a.
    destruct (_can_sell e); simpl; split; intro H; try discriminate; auto.
    + destruct H as [[_ H]|[H _]]; discriminate.
  - apply Z.eqb_neq in E0.
    destruct (a =? 2)%Z eqn:E2.
    + apply Z.eqb_eq in E2. subst a.
      destruct (_can_buy e); simpl; split; intro H; try discriminate; auto.
      destruct H as [[H _]|[_ H]]; discriminate.
    + apply Z.eqb_neq in E2. simpl. split; intro H; try discriminate.
      destruct H as [[H _]|[H _]]; contradiction.
Qed.

Lemma check_action_override (e : env) (a : Z) :
  snd (fst (check_action e a)) = true ->
  check_action e a = (- (5 # 1), true, 1%Z).
Proof.
  unfold check_action.
  destruct (a =? 0)%Z; [destruct (_can_sell e); simpl; intro H; now try discriminate|].
  destruct (a =? 2)%Z; [destruct (_can_buy e); simpl; intro H; now try discriminate|].
  simpl. discriminate.
Qed.

Lemma check_action_passed (e : env) (a : Z) :
  snd (fst (check_action e a)) = false ->
  check_action e a = (0, false, a).
Proof.
  unfold check_action.
  destruct (a =? 0)%Z; [destruct (_can_sell e); simpl; intro H; now try discriminate|].
  destruct (a =? 2)%Z; [destruct (_can_buy e); simpl; intro H; now try discriminate|].
  reflexivity.
Qed.

(** Before the end of the data [step] returns exactly when the state can
    be computed at the next cursor. *)
Lemma step_returns_iff (e : env) (a : Z) :
  end_of_data e = false ->
  (exists t, snd (step np_sqrt e a) = Ok t) <->
  state_computable e (S (current_step e)).
Proof.
  intros Hend. pose proof Hend as Hlt. apply end_of_data_false in Hlt.
  destruct (step_before_end_raw e a Hend) as (p & Hp & Hstep).
  cbv zeta in Hstep. rewrite Hstep. cbn [snd].
  set (a' := snd (check_action e a)) in *.
  set (e2 := advance (execute e a' p) a' p) in *.
  assert (Hcs : current_step e2 = S (current_step e)).
  { subst e2. cbn [advance current_step].
    destruct (execute_data e a' p) as (_ & Hc & _). now rewrite Hc. }
  assert (Hlen : length (data e2) = length (data e)).
  { subst e2. cbn [advance data].
    destruct (execute_data e a' p) as (Hd & _). now rewrite Hd. }
  rewrite <- (state_computable_advance e a' p). fold e2. rewrite <- Hcs.
  split.
  - intros [t Ht]. destruct (_get_state e2) as [s|x] eqn:Hs;
      [|discriminate].
    apply state_returned_iff. eauto.
  - intros Hc. destruct (state_in_range e2 Hc) as [s Hs]; [lia|].
    rewrite Hs. eauto.
Qed.

(** C1, as amended.  When a call of [step] before the end of the data has
    finished, [total_value] is the cash plus the holdings times the price
    at which the step was executed: the price at the cursor position where
    the call started, the one reported as [current_price] in the info.  The
    cursor itself has then moved on by one.  This holds of the object
    whether the call returned or its final [_get_state] raised; the call
    returns exactly when the state can be computed at the new cursor. *)
Theorem step_total_value (e : env) (a : Z) :
  end_of_data e = false ->
  exists p,
    _get_current_price e = Ok p /\
    let e' := fst (step np_sqrt e a) in
    total_value e' == balance e' + btc_held e' * p /\
    current_step e' = S (current_step e) /\
    ((exists t, snd (step np_sqrt e a) = Ok t) <->
     state_computable e (S (current_step e))) /\
    (forall t, snd (step np_sqrt e a) = Ok t ->
     exists v c h b l cb cs, step_info t = StepInfo v c h p b l cb cs).
Proof.
  intros Hend. pose proof Hend as Hlt. apply end_of_data_false in Hlt.
  destruct (step_before_end_raw e a Hend) as (p & Hp & Hstep).
  cbv zeta in Hstep. rewrite Hstep. cbn [fst snd].
  set (a' := snd (check_action e a)) in *.
  set (e2 := advance (execute e a' p) a' p) in *.
  assert (Hcs : current_step e2 = S (current_step e)).
  { subst e2. cbn [advance current_step].
    destruct (execute_data e a' p) as (_ & Hc & _). now rewrite Hc. }
  exists p. split; [exact Hp|]. cbv zeta.
  split; [reflexivity|]. split; [exact Hcs|]. split.
  - pose proof (step_returns_iff e a Hend) as Hret.
    rewrite Hstep in Hret. exact Hret.
  - intros t Ht. destruct (_get_state e2) as [s|x]; [|discriminate].
    injection Ht as <-. repeat eexists.
Qed.

(** C5, as amended.  When the cursor is on the last row of the series and
    the state can be computed there (a lookback window that is not empty,
    divisors that are not zero), [step] returns the current state, a reward
    of 0, [done = True] and the error marker, and the object is the one it
    was: cash, holdings, total value, last trading action, cursor and logs
    are unchanged. *)
Theorem step_at_last_index (e : env) (a : Z) :
  (length (data e) - 1 <= current_step e < length (data e))%nat ->
  state_computable e (current_step e) ->
  exists s,
    _get_state e = Ok s /\
    step np_sqrt e a =
      (e, Ok (mk_transition s 0 true (ErrorInfo "End of data"))).
Proof.
  intros [Hge Hlt] Hc.
  destruct (state_in_range e Hc Hlt) as [s Hs].
  exists s. split; [exact Hs|].
  rewrite step_at_end by now apply end_of_data_true.
  now rewrite Hs.
Qed.

(** C4, as amended.  Before the end of the data, and when the state can be
    computed at the next cursor (a lookback window that is not empty,
    divisors that are not zero), a sell that [_can_sell] refuses or a buy
    that [_can_buy] refuses does not make [step] raise: the call executes a
    hold at the current price, returns the state of the object after it,
    flags the action as blocked in the info, and its reward is the base
    reward of a blocked action plus the flat penalty [-5.0]. *)
Theorem step_blocked (e : env) (a : Z) :
  end_of_data e = false ->
  state_computable e (S (current_step e)) ->
  (a = 0%Z /\ _can_sell e = false) \/ (a = 2%Z /\ _can_buy e = false) ->
  exists p t,
    _get_current_price e = Ok p /\
    step np_sqrt e a = (advance e 1 p, Ok t) /\
    actions_taken (advance e 1 p) = actions_taken e ++ [1%Z] /\
    trades (advance e 1 p) = trades e /\
    step_info t =
      StepInfo (balance e + btc_held e * p) (balance e) (btc_held e) p true
               (last_trading_action e) (_can_buy e) (_can_sell e) /\
    reward t =
      _calculate_reward np_sqrt (advance e 1 p) (total_value e) true + - (5 # 1) /\
    _get_state (advance e 1 p) = Ok (next_state t) /\
    exists temporal portfolio constraints,
      next_state t = temporal ++ portfolio ++ constraints /\
      length portfolio = 4%nat /\ length constraints = 5%nat.
Proof.
  intros Hend Hc Hreq.
  apply check_action_blocked in Hreq. apply check_action_override in Hreq.
  destruct (step_before_end e a Hend Hc) as (p & s & Hp & Hs & Hstep).
  rewrite Hreq in Hs, Hstep. simpl fst in *. simpl snd in *.
  rewrite execute_hold in Hs, Hstep.
  eexists p, _. split; [exact Hp|]. split; [exact Hstep|].
  simpl. repeat split; try exact Hs.
  exact (state_shape _ _ Hs).
Qed.

(** C10.  A step whose action was blocked leaves [last_trading_action],
    [last_action_step], the cash and the holdings as they were, so both
    validity predicates answer as before; the cursor has advanced by one and
    one value was appended to the portfolio history. *)
Theorem step_blocked_frame (e e' : env) (a : Z) (t : transition) :
  step np_sqrt e a = (e', Ok t) ->
  info_blocked (step_info t) = true ->
  last_trading_action e' = last_trading_action e /\
  last_action_step e' = last_action_step e /\
  balance e' = balance e /\
  btc_held e' = btc_held e /\
  trades e' = trades e /\
  _can_sell e' = _can_sell e /\
  _can_buy e' = _can_buy e /\
  current_step e' = S (current_step e) /\
  portfolio_values e' = portfolio_values e ++ [total_value e'] /\
  actions_taken e' = actions_taken e ++ [1%Z].
Proof.
  intros Hstep Hblk.
  destruct (end_of_data e) eqn:Hend.
  - rewrite step_at_end in Hstep by exact Hend.
    destruct (_get_state e); inversion Hstep; subst. discriminate.
  - destruct (step_before_end_raw e a Hend) as (p & _ & Hs).
    cbv zeta in Hs. rewrite Hs in Hstep.
    destruct (_get_state _) as [s|x]; [|inversion Hstep].
    inversion Hstep; subst. clear Hstep Hs.
    simpl in Hblk. apply check_action_override in Hblk.
    rewrite Hblk. simpl snd. rewrite execute_hold.
    repeat split.
Qed.

(** ** The trade log *)

Lemma last_error_snoc {A : Type} (l : list A) (x : A) :
  last_error (l ++ [x]) = Some x.
Proof.
  unfold last_error. destruct (l ++ [x]) eqn:E.
  - now destruct l.
  - rewrite <- E. rewrite length_app. simpl.
    replace (length l + 1 - 1)%nat with (length l) by lia.
    rewrite nth_error_app2 by lia. now rewrite Nat.sub_diag.
Qed.

Lemma last_error_cons {A : Type} (a b : A) (l : list A) :
  last_error (a :: b :: l) = last_error (b :: l).
Proof.
  unfold last_error. simpl. now rewrite Nat.sub_0_r.
Qed.

Lemma alternates_snoc (l : list trade_action) (x : trade_action) :
  alternates (l ++ [x]) =
  alternates l &&
  match last_error l with
  | None => true
  | Some y => negb (trade_action_eqb y x)
  end.
Proof.
  induction l as [|a l IH]; [reflexivity|].
  destruct l as [|b l].
  - simpl. now rewrite andb_true_r.
  - rewrite last_error_cons.
    change (alternates ((a :: b :: l) ++ [x]))
      with (negb (trade_action_eqb a b) && alternates ((b :: l) ++ [x])).
    rewrite IH.
    change (alternates (a :: b :: l))
      with (negb (trade_action_eqb a b) && alternates (b :: l)).
    now rewrite andb_assoc.
Qed.

Lemma check_action_sell (e : env) (a : Z) :
  snd (check_action e a) = 0%Z -> a = 0%Z /\ _can_sell e = true.
Proof.
  unfold check_action.
  destruct (a =? 0)%Z eqn:E0.
  - apply Z.eqb_eq in E0.
    destruct (_can_sell e); simpl; intro H; [auto|discriminate].
  - apply Z.eqb_neq in E0.
    destruct (a =? 2)%Z eqn:E2.
    + apply Z.eqb_eq in E2.
      destruct (_can_buy e); simpl; intro H; [lia|discriminate].
    + simpl. intro H. contradiction.
Qed.

Lemma check_action_buy (e : env) (a : Z) :
  snd (check_action e a) = 2%Z -> a = 2%Z /\ _can_buy e = true.
Proof.
  unfold check_action.
  destruct (a =? 0)%Z eqn:E0.
  - apply Z.eqb_eq in E0.
    destruct (_can_sell e); simpl; intro H; [lia|discriminate].
  - destruct (a =? 2)%Z eqn:E2.
    + apply Z.eqb_eq in E2.
      destruct (_can_buy e); simpl; intro H; [auto|discriminate].
    + apply Z.eqb_neq in E2. simpl. intro H. contradiction.
Qed.

(** What [execute] does to the trade log: nothing, or one sell entry when
    the action is 0 and BTC is held, or one buy entry when the action is 2
    and there is cash. *)
Lemma execute_cases (e : env) (a : Z) (p : Q) :
  (execute e a p = e /\
   (is_trade_code a = false \/ (a = 0%Z /\ btc_held e <= 0) \/
    (a = 2%Z /\ balance e <= 0))) \/
  (exists t,
     a = action_code (t_action t) /\
     trades (execute e a p) = trades e ++ [t] /\
     last_trading_action (execute e a p) = Some (action_code (t_action t)) /\
     match t_action t with
     | sell => 0 < btc_held e
     | buy => 0 < balance e
     end).
Proof.
  unfold execute, is_trade_code.
  destruct (a =? 0)%Z eqn:E0.
  - apply Z.eqb_eq in E0.
    destruct (Qlt_bool 0 (btc_held e)) eqn:Hb.
    + right. eexists. simpl. repeat split; try reflexivity; simpl.
      * exact E0.
      * now apply Qlt_bool_iff.
    + left. split; [reflexivity|]. right. left.
      split; [exact E0|]. now apply Qlt_bool_false_iff.
  - destruct (a =? 2)%Z eqn:E2; [|left; now split; [|left]].
    apply Z.eqb_eq in E2.
    destruct (Qlt_bool 0 (balance e)) eqn:Hb.
    + right. eexists. simpl. repeat split; try reflexivity; simpl.
      * exact E2.
      * now apply Qlt_bool_iff.
    + left. split; [reflexivity|]. right. right.
      split; [exact E2|]. now apply Qlt_bool_false_iff.
Qed.

Lemma opt_neqb_true (x : option Z) (k : Z) :
  opt_neqb x k = true <-> x <> Some k.
Proof.
  destruct x as [v|]; simpl.
  - rewrite negb_true_iff, Z.eqb_neq. split; congruence.
  - split; [discriminate|reflexivity].
Qed.

(** One call of [step] is the early return, or it logs an action that is
    not a trade and leaves the trade log alone, or it logs a sell or a buy
    together with its trade; a trade is added only when the validity
    predicate of its action held before the call. *)
Lemma step_trade (e : env) (a : Z) :
  let e' := fst (step np_sqrt e a) in
  e' = e \/
  (trades e' = trades e /\
   last_trading_action e' = last_trading_action e /\
   exists x, actions_taken e' = actions_taken e ++ [x] /\
             is_trade_code x = false /\
             btc_held e' = btc_held e) \/
  exists t,
    a = action_code (t_action t) /\
    trades e' = trades e ++ [t] /\
    last_trading_action e' = Some (action_code (t_action t)) /\
    actions_taken e' = actions_taken e ++ [action_code (t_action t)] /\
    match t_action t with
    | sell => 0 < btc_held e /\ last_trading_action e <> Some 0%Z
    | buy => 0 < balance e /\ last_trading_action e <> Some 2%Z
    end.
Proof.
  simpl. destruct (end_of_data e) eqn:Hend.
  - rewrite step_at_end by exact Hend. now left.
  - right.
    destruct (step_before_end_pair e a Hend) as (p & s & _ & Hs).
    rewrite Hs. clear Hs. simpl fst.
    set (a' := snd (check_action e a)).
    destruct (execute_data e a' p) as (_ & _ & _ & _ & _ & Hat).
    destruct (execute_cases e a' p) as [[Hsame Hwhy]|(t & Ha & Ht & Hl & Hpos)].
    + left. simpl. rewrite Hsame. repeat split.
      exists a'. split; [reflexivity|]. split; [|reflexivity].
      destruct Hwhy as [Hno|[[H0 Hle]|[H2 Hle]]]; [exact Hno| |]; exfalso.
      * destruct (check_action_sell e a H0) as [_ Hcan].
        unfold _can_sell in Hcan. apply andb_true_iff in Hcan.
        destruct Hcan as [Hcan _]. apply Qlt_bool_iff in Hcan.
        exact (Qlt_not_le _ _ Hcan Hle).
      * destruct (check_action_buy e a H2) as [_ Hcan].
        unfold _can_buy in Hcan. apply andb_true_iff in Hcan.
        destruct Hcan as [Hcan _]. apply Qlt_bool_iff in Hcan.
        exact (Qlt_not_le _ _ Hcan Hle).
    + right. exists t. simpl. rewrite Ht, Hl, Hat, <- Ha.
      assert (Hpre : a = a' /\
                match t_action t with
                | sell => last_trading_action e <> Some 0%Z
                | buy => last_trading_action e <> Some 2%Z
                end).
      { destruct (t_action t) eqn:Hact; simpl in Ha.
        - destruct (check_action_sell e a Ha) as [Ha0 Hcan].
          split; [congruence|].
          unfold _can_sell in Hcan. apply andb_true_iff in Hcan.
          now apply opt_neqb_true.
        - destruct (check_action_buy e a Ha) as [Ha2 Hcan].
          split; [congruence|].
          unfold _can_buy in Hcan. apply andb_true_iff in Hcan.
          now apply opt_neqb_true. }
      destruct Hpre as [Haa Hne].
      repeat split; trivial.
      destruct (t_action t); now split.
Qed.

Lemma reset_env_inv (e0 : env) (start : option Z) :
  trade_log_inv (reset_env e0 start).
Proof. repeat split. Qed.

Lemma step_inv (e : env) (a : Z) :
  trade_log_inv e -> trade_log_inv (fst (step np_sqrt e a)).
Proof.
  intros (Halt & Hlast & Hlog).
  destruct (step_trade e a)
    as [Heq|[(Ht & Hl & x & Hx & Hno & _)|(t & _ & Ht & Hl & Hat & Hpre)]];
    unfold trade_log_inv, executed_actions in *.
  - now rewrite Heq.
  - rewrite Ht, Hl, Hx, filter_app. simpl. rewrite Hno, app_nil_r. auto.
  - rewrite Ht, Hl, Hat, map_app, filter_app, map_app. simpl map.
    rewrite alternates_snoc, last_error_snoc, Halt, Hlog. simpl.
    repeat split.
    + destruct (last_error (map t_action (trades e))) as [y|]; [|reflexivity].
      simpl in Hlast.
      destruct (t_action t), y; simpl in *; try reflexivity;
        destruct Hpre as [_ Hne]; congruence.
    + now destruct (t_action t).
Qed.

Lemma run_inv (e : env) (actions : list Z) :
  trade_log_inv e -> trade_log_inv (run np_sqrt e actions).
Proof.
  revert e. induction actions as [|a actions IH]; intros e He; [exact He|].
  simpl. apply IH. now apply step_inv.
Qed.

(** C2.  In every sequence of [step] calls after a [reset], the executed
    trades, which are the sells and buys logged in [actions_taken], never
    contain two sells in a row or two buys in a row; and a further call
    executes a sell only when BTC is held and neither [last_trading_action]
    nor the last executed trade is a sell, a buy only when there is cash and
    neither is a buy. *)
Theorem no_consecutive_trades (e0 : env) (start : option Z) (actions : list Z) :
  let e := run np_sqrt (reset_env e0 start) actions in
  alternates (executed_actions e) = true /\
  filter is_trade_code (actions_taken e) =
    map action_code (executed_actions e) /\
  forall a : Z,
    let e' := fst (step np_sqrt e a) in
    trades e' = trades e \/
    exists t,
      a = action_code (t_action t) /\
      trades e' = trades e ++ [t] /\
      match t_action t with
      | sell =>
          0 < btc_held e /\ last_trading_action e <> Some 0%Z /\
          last_error (executed_actions e) <> Some sell
      | buy =>
          0 < balance e /\ last_trading_action e <> Some 2%Z /\
          last_error (executed_actions e) <> Some buy
      end.
Proof.
  intros e.
  assert (Hinv : trade_log_inv e) by (apply run_inv, reset_env_inv).
  destruct Hinv as (Halt & Hlast & Hlog).
  split; [exact Halt|]. split; [exact Hlog|].
  intros a e'. subst e'.
  destruct (step_trade e a)
    as [Heq|[(Ht & _)|(t & Ha & Ht & _ & _ & Hpre)]];
    [left; now rewrite Heq|now left|].
  right. exists t. split; [exact Ha|]. split; [exact Ht|].
  destruct (t_action t); destruct Hpre as [Hpos Hne]; repeat split; trivial;
    intro Hl; rewrite Hl in Hlast; simpl in Hlast; congruence.
Qed.

(** ** The reward *)

(** C8, as amended.  The reward carries the volatility term, minus one half
    of the standard deviation over the mean of the last ten portfolio
    values, exactly when the history holds more than ten values; with ten
    values or fewer the reward is the one computed without any history. *)
Theorem reward_volatility_term (e : env) (prev_total_value : Q) (blocked : bool) :
  _calculate_reward np_sqrt e prev_total_value blocked ==
  _calculate_reward np_sqrt (without_history e) prev_total_value blocked
  - (if (10 <? length (portfolio_values e))%nat
     then (1 # 2) * (np_std np_sqrt (lastn 10 (portfolio_values e))
                     / np_mean (lastn 10 (portfolio_values e)))
     else 0).
Proof.
  unfold _calculate_reward. simpl.
  destruct (10 <? length (portfolio_values e))%nat;
    destruct (Qlt_bool 30 _); destruct (negb blocked);
    destruct (Qlt_bool _ (- (5 # 100))); destruct (Qlt_bool (5 # 100) _);
    ring.
Qed.

End SimulatorProperties.

(** ** The theorems on the scenario series *)

Ltac by_computation :=
  vm_compute; first [reflexivity | let H := fresh in intro H; discriminate H].

Lemma step_total_value_witness :
  end_of_data Scenario.started = false /\
  exists p t,
    _get_current_price Scenario.started = Ok p /\
    snd (step Scenario.sqrt6 Scenario.started 2) = Ok t /\
    let e' := fst (step Scenario.sqrt6 Scenario.started 2) in
    total_value e' == balance e' + btc_held e' * p /\
    current_step e' = S (current_step Scenario.started) /\
    exists v c h b l cb cs, step_info t = StepInfo v c h p b l cb cs.
Proof.
  split; [reflexivity|].
  destruct (step_total_value Scenario.sqrt6 Scenario.started 2 eq_refl)
    as (p & Hp & Heq & Hcs & Hret & Hinfo).
  assert (Hc : state_computable Scenario.started
                 (S (current_step Scenario.started)))
    by (repeat split; by_computation).
  destruct (proj2 Hret Hc) as [t Ht].
  exists p, t. split; [exact Hp|]. split; [exact Ht|].
  split; [exact Heq|]. split; [exact Hcs|]. exact (Hinfo t Ht).
Defined.

(** C1, the claim as stated fails.  After [reset()] and a buy at 110 the
    total value is 999, while the cash plus the holdings at the price under
    the cursor once the step has finished, 90, is about 817. *)
Lemma step_total_value_not_at_new_price :
  end_of_data Scenario.started = false /\
  let e' := fst (step Scenario.sqrt6 Scenario.started 2) in
  exists p',
    _get_current_price e' = Ok p' /\
    100 < total_value e' - (balance e' + btc_held e' * p') /\
    ~ total_value e' == balance e' + btc_held e' * p'.
Proof.
  split; [reflexivity|]. simpl.
  exists 90. split; [reflexivity|]. split; [reflexivity|].
  by_computation.
Qed.

Lemma step_at_last_index_witness :
  (length (data Scenario.at_end) - 1 <= current_step Scenario.at_end
   < length (data Scenario.at_end))%nat /\
  state_computable Scenario.at_end (current_step Scenario.at_end) /\
  exists s,
    _get_state Scenario.at_end = Ok s /\
    step Scenario.sqrt6 Scenario.at_end 2 =
      (Scenario.at_end, Ok (mk_transition s 0 true (ErrorInfo "End of data"))).
Proof.
  assert (H : (length (data Scenario.at_end) - 1
               <= current_step Scenario.at_end
               < length (data Scenario.at_end))%nat)
    by (simpl; lia).
  assert (Hc : state_computable Scenario.at_end
                 (current_step Scenario.at_end))
    by (repeat split; by_computation).
  split; [exact H|]. split; [exact Hc|].
  exact (step_at_last_index Scenario.sqrt6 Scenario.at_end 2 H Hc).
Defined.

(** C5, the claim as stated fails.  With the cursor past the last row, here
    at index 7 of a five-row series, [step] raises [IndexError] from
    [_get_state] instead of returning a terminal transition.  On the last
    row itself it raises [ZeroDivisionError] when the simulator was built
    without capital, and [ValueError] when the lookback window is empty.
    The object is unchanged each time. *)
Lemma step_past_end_raises :
  ((length (data Scenario.past_end) - 1 <= current_step Scenario.past_end)%nat /\
   step Scenario.sqrt6 Scenario.past_end 1
   = (Scenario.past_end, Raise IndexError)) /\
  ((length (data Scenario.broke_at_end) - 1
    <= current_step Scenario.broke_at_end
    < length (data Scenario.broke_at_end))%nat /\
   step Scenario.sqrt6 Scenario.broke_at_end 1
   = (Scenario.broke_at_end, Raise ZeroDivisionError)) /\
  ((length (data Scenario.single_row) - 1
    <= current_step Scenario.single_row
    < length (data Scenario.single_row))%nat /\
   step Scenario.sqrt6 Scenario.single_row 1
   = (Scenario.single_row, Raise ValueError)).
Proof.
  repeat split; try (simpl; lia); by_computation.
Qed.

Lemma step_blocked_witness :
  end_of_data Scenario.started = false /\
  state_computable Scenario.started (S (current_step Scenario.started)) /\
  _can_sell Scenario.started = false /\
  exists p t,
    step Scenario.sqrt6 Scenario.started 0 =
      (advance Scenario.started 1 p, Ok t) /\
    step_info t =
      StepInfo (balance Scenario.started + btc_held Scenario.started * p)
               (balance Scenario.started) (btc_held Scenario.started) p true
               (last_trading_action Scenario.started)
               (_can_buy Scenario.started) (_can_sell Scenario.started) /\
    reward t =
      _calculate_reward Scenario.sqrt6 (advance Scenario.started 1 p)
                        (total_value Scenario.started) true + - (5 # 1).
Proof.
  assert (Hc : state_computable Scenario.started
                 (S (current_step Scenario.started)))
    by (repeat split; by_computation).
  split; [reflexivity|]. split; [exact Hc|]. split; [reflexivity|].
  destruct (step_blocked Scenario.sqrt6 Scenario.started 0 eq_refl Hc
              (or_introl (conj eq_refl eq_refl)))
    as (p & t & _ & Hstep & _ & _ & Hinfo & Hreward & _).
  exists p, t. repeat split; assumption.
Defined.

(** C4, the claim as stated fails.  On the last row a sell without any BTC
    is not overridden: [step] takes its early return, the info carries the
    error marker and no blocked flag, the reward is 0 without a penalty, and
    no action is logged.  Before the end of the data a blocked request makes
    [step] raise when the final [_get_state] does: [ZeroDivisionError] for a
    buy on a simulator built without capital, [ValueError] for a sell on a
    simulator whose lookback window at the next cursor is empty. *)
Lemma step_invalid_sell_at_end :
  (_can_sell Scenario.at_end = false /\
   exists t,
     step Scenario.sqrt6 Scenario.at_end 0 = (Scenario.at_end, Ok t) /\
     step_info t = ErrorInfo "End of data" /\
     info_blocked (step_info t) = false /\
     reward t = 0 /\
     actions_taken Scenario.at_end = []) /\
  (end_of_data Scenario.zero_capital = false /\
   _can_buy Scenario.zero_capital = false /\
   snd (step Scenario.sqrt6 Scenario.zero_capital 2)
   = Raise ZeroDivisionError) /\
  (end_of_data Scenario.unreset = false /\
   _can_sell Scenario.unreset = false /\
   snd (step Scenario.sqrt6 Scenario.unreset 0) = Raise ValueError).
Proof.
  split; [|repeat split; by_computation].
  split; [reflexivity|]. eexists. split; [reflexivity|].
  repeat split.
Qed.

Lemma step_blocked_frame_witness :
  let r := step Scenario.sqrt6 Scenario.started 0 in
  (exists t, snd r = Ok t /\ info_blocked (step_info t) = true) /\
  balance (fst r) = balance Scenario.started /\
  btc_held (fst r) = btc_held Scenario.started /\
  last_trading_action (fst r) = last_trading_action Scenario.started /\
  last_action_step (fst r) = last_action_step Scenario.started /\
  current_step (fst r) = S (current_step Scenario.started).
Proof.
  intros r.
  assert (H : exists t, r = (fst r, Ok t) /\ info_blocked (step_info t) = true).
  { eexists. split; [lazy; reflexivity|reflexivity]. }
  destruct H as (t & Hr & Hb).
  split.
  - exists t. split; [now rewrite Hr|exact Hb].
  - destruct (step_blocked_frame Scenario.sqrt6 Scenario.started (fst r) 0 t Hr Hb)
      as (Hl & Hs & Hc & Hh & _ & _ & _ & Hcur & _).
    repeat split; assumption.
Defined.

(** C8, the claim as stated fails.  At the tenth step after a [reset] the
    history holds exactly ten values, their standard deviation over their
    mean is positive, and the reward is the one computed without any
    history: the volatility term is not subtracted. *)
Lemma reward_without_volatility_at_ten_values :
  let e := Scenario.ten_steps in
  let prev := total_value Scenario.nine_steps in
  let volatility :=
    np_std Scenario.sqrt6 (lastn 10 (portfolio_values e))
    / np_mean (lastn 10 (portfolio_values e)) in
  fst (step Scenario.sqrt6 Scenario.nine_steps 1) = e /\
  length (portfolio_values e) = 10%nat /\
  0 < (1 # 2) * volatility /\
  _calculate_reward Scenario.sqrt6 e prev false ==
    _calculate_reward Scenario.sqrt6 (without_history e) prev false /\
  ~ _calculate_reward Scenario.sqrt6 e prev false ==
    _calculate_reward Scenario.sqrt6 (without_history e) prev false
    - (1 # 2) * volatility.
Proof.
  cbv zeta. split; [vm_compute; reflexivity|]. split; [vm_compute; reflexivity|].
  split; [by_computation|]. split; by_computation.
Qed.


(** ** The win rate *)

(** With fewer than two trades in the log the win rate is 0, whatever the
    open position is worth. *)
Lemma win_rate_short_log (e : env) :
  (length (trades e) < 2)%nat -> _calculate_win_rate e = Ok 0.
Proof.
  intros H. unfold _calculate_win_rate.
  apply Nat.ltb_lt in H. now rewrite H.
Qed.

Lemma find_next_sell_index (ts : list trade) (j k : nat) (t : trade) :
  find_next_sell ts j = Some (k, t) -> (j <= k)%nat.
Proof.
  revert j. induction ts as [|x ts IH]; intros j; simpl; [discriminate|].
  destruct (trade_action_eqb (t_action x) sell).
  - intros H. injection H as <- _. lia.
  - intros H. apply IH in H. lia.
Qed.

(** The loop of [_calculate_win_rate] ends by its own condition: once the
    fuel covers the entries from [i] on, more fuel changes nothing. *)
Lemma win_rate_loop_fuel (fuel1 fuel2 : nat) (ts : list trade) (i w t : nat) :
  (length ts - i <= fuel1)%nat -> (length ts - i <= fuel2)%nat ->
  win_rate_loop fuel1 ts i w t = win_rate_loop fuel2 ts i w t.
Proof.
  revert fuel2 i w t.
  induction fuel1 as [|fuel1 IH]; intros fuel2 i w t H1 H2.
  - destruct fuel2 as [|fuel2]; [reflexivity|]. cbn [win_rate_loop].
    replace (i <? length ts - 1)%nat with false
      by (symmetry; apply Nat.ltb_ge; lia).
    reflexivity.
  - destruct fuel2 as [|fuel2]; cbn [win_rate_loop].
    + replace (i <? length ts - 1)%nat with false
        by (symmetry; apply Nat.ltb_ge; lia).
      reflexivity.
    + destruct (i <? length ts - 1)%nat eqn:Hi; [|reflexivity].
      apply Nat.ltb_lt in Hi.
      destruct (nth_error ts i) as [c|]; [|reflexivity].
      destruct (trade_action_eqb (t_action c) buy).
      * destruct (find_next_sell (skipn (S i) ts) (S i)) as [[j nt]|] eqn:Hf;
          [|reflexivity].
        apply find_next_sell_index in Hf.
        apply IH; lia.
      * apply IH; lia.
Qed.

(** The count of completed cycles never decreases along the loop. *)
Lemma win_rate_loop_total (fuel : nat) (ts : list trade) (i w t : nat) :
  (t <= snd (win_rate_loop fuel ts i w t))%nat.
Proof.
  revert i w t. induction fuel as [|fuel IH]; intros i w t; simpl; [lia|].
  destruct (i <? length ts - 1)%nat; [|simpl; lia].
  destruct (nth_error ts i) as [c|]; [|simpl; lia].
  destruct (trade_action_eqb (t_action c) buy).
  - destruct (find_next_sell _ _) as [[j nt]|]; [|simpl; lia].
    eapply Nat.le_trans; [|apply IH]. lia.
  - apply IH.
Qed.

(** A log that starts with a buy followed by a sell has a completed cycle. *)
Lemma win_rate_loop_cycle (b s : trade) (rest : list trade) :
  t_action b = buy -> t_action s = sell ->
  (0 < snd (win_rate_loop (length (b :: s :: rest)) (b :: s :: rest) 0 0 0))%nat.
Proof.
  intros Hb Hs.
  change (length (b :: s :: rest)) with (S (S (length rest))).
  generalize (S (length rest)). intros fuel.
  assert (H : exists w,
             win_rate_loop (S fuel) (b :: s :: rest) 0 0 0 =
             win_rate_loop fuel (b :: s :: rest) 2 w 1).
  { simpl. rewrite Hb. simpl. rewrite Hs. simpl. eexists. reflexivity. }
  destruct H as [w ->].
  eapply Nat.lt_le_trans; [|apply win_rate_loop_total]. lia.
Qed.

Section TradeLogShape.

Variable np_sqrt : Q -> Q.

(** After a [reset] the first executed trade, if any, is a buy: until then
    no BTC is held. *)
Lemma run_first_trade (e0 : env) (start : option Z) (actions : list Z) :
  let e := run np_sqrt (reset_env e0 start) actions in
  match executed_actions e with
  | [] => btc_held e = 0
  | a :: _ => a = buy
  end.
Proof.
  set (P := fun e : env =>
              match executed_actions e with
              | [] => btc_held e = 0
              | a :: _ => a = buy
              end).
  assert (Hstep : forall e a, P e -> P (fst (step np_sqrt e a))).
  { intros e a He.
    destruct (step_trade np_sqrt e a)
      as [Heq|[(Ht & _ & x & _ & _ & Hb)|(t & _ & Ht & _ & _ & Hpre)]];
      unfold P, executed_actions in *.
    - now rewrite Heq.
    - now rewrite Ht, Hb.
    - rewrite Ht, map_app.
      destruct (map t_action (trades e)) as [|a0 l]; [|exact He].
      simpl. destruct (t_action t); [|reflexivity].
      destruct Hpre as [Hpos _]. rewrite He in Hpos.
      exfalso. exact (Qlt_irrefl 0 Hpos). }
  assert (Hrun : forall acts e, P e -> P (run np_sqrt e acts)).
  { induction acts as [|a acts IH]; intros e He; [exact He|].
    simpl. apply IH, Hstep, He. }
  apply Hrun. reflexivity.
Qed.

(** In every object reached from a [reset], either the log holds fewer than
    two trades, and [_calculate_win_rate] returns 0 at once, or it has a
    completed cycle: the fallback on the open position is never evaluated. *)
Lemma win_rate_fallback_unreachable
    (e0 : env) (start : option Z) (actions : list Z) :
  let e := run np_sqrt (reset_env e0 start) actions in
  ((length (trades e) < 2)%nat /\ _calculate_win_rate e = Ok 0) \/
  (0 < snd (win_rate_loop (length (trades e)) (trades e) 0 0 0))%nat.
Proof.
  intros e.
  pose proof (run_first_trade e0 start actions) as Hfirst.
  pose proof (run_inv np_sqrt (reset_env e0 start) actions
                (reset_env_inv e0 start)) as (Halt & _).
  fold e in Hfirst, Halt. unfold executed_actions in Hfirst, Halt.
  destruct (trades e) as [|b [|s rest]] eqn:Ht.
  - left. split; [simpl; lia|]. apply win_rate_short_log. rewrite Ht. simpl. lia.
  - left. split; [simpl; lia|]. apply win_rate_short_log. rewrite Ht. simpl. lia.
  - right. simpl in Hfirst, Halt.
    apply win_rate_loop_cycle; [exact Hfirst|].
    rewrite Hfirst in Halt. destruct (t_action s); [reflexivity|discriminate].
Qed.

End TradeLogShape.

(** C9, at the failing input.  After [reset()], [step(2)] and [step(1)] on
    the scenario series the log holds one buy at 110 and no completed cycle,
    BTC is held and the current price is 120, so the open position is in
    profit; the win rate reported by [get_portfolio_performance] is 0 all the
    same, because [_calculate_win_rate] returns before its fallback. *)
Theorem win_rate_single_open_buy :
  executed_actions Scenario.bought_held = [buy] /\
  snd (win_rate_loop 1 (trades Scenario.bought_held) 0 0 0) = 0%nat /\
  (exists t p,
     last_error (trades Scenario.bought_held) = Some t /\
     _get_current_price Scenario.bought_held = Ok p /\
     t_action t = buy /\
     0 < btc_held Scenario.bought_held /\
     0 < (p - t_price t) * btc_held Scenario.bought_held) /\
  get_portfolio_performance_win_rate Scenario.bought_held = Ok (Some 0).
Proof.
  split; [reflexivity|]. split; [reflexivity|]. split; [|reflexivity].
  eexists _, _. split; [reflexivity|]. split; [reflexivity|].
  split; [reflexivity|]. split; reflexivity.
Qed.

(** ** Sums and means of rationals *)

Lemma Qsum_map_ext {A : Type} (f g : A -> Q) (l : list A) :
  (forall x, f x == g x) -> Qsum (map f l) == Qsum (map g l).
Proof.
  intros H. induction l as [|x l IH]; simpl; [reflexivity|].
  now rewrite IH, H.
Qed.

Lemma Qsum_map_minus (m : Q) (l : list Q) :
  Qsum (map (fun a => a - m) l) ==
  Qsum l - inject_Z (Z.of_nat (length l)) * m.
Proof.
  induction l as [|x l IH].
  - simpl. ring.
  - change (Qsum (map (fun a => a - m) (x :: l)))
      with ((x - m) + Qsum (map (fun a => a - m) l)).
    change (Qsum (x :: l)) with (x + Qsum l).
    rewrite IH.
    replace (Z.of_nat (length (x :: l))) with (Z.of_nat (length l) + 1)%Z
      by (simpl length; lia).
    rewrite inject_Z_plus. ring.
Qed.

Lemma length_nonzero {A : Type} (l : list A) :
  (0 < length l)%nat -> ~ inject_Z (Z.of_nat (length l)) == 0.
Proof.
  intros H E. unfold Qeq in E. simpl in E. lia.
Qed.

(** The deviations from the mean of a non-empty list sum to zero. *)
Lemma Qsum_centered (l : list Q) :
  (0 < length l)%nat -> Qsum (map (fun a => a - np_mean l) l) == 0.
Proof.
  intros H. rewrite Qsum_map_minus. unfold np_mean.
  field. now apply length_nonzero.
Qed.

(** ** Powers of the decay factor *)

(** Bernoulli's inequality for [(A + c) ^ n] against [A ^ n]. *)
Lemma pow_bernoulli (A B c n : Z) :
  (0 < A -> 0 <= c -> B = A + c -> 0 <= n ->
   A ^ n * (A + c * n) <= A * B ^ n)%Z.
Proof.
  intros HA Hc HB Hn. pattern n. apply natlike_ind; [| |exact Hn].
  - rewrite !Z.pow_0_r. lia.
  - intros x Hx IH. rewrite !Z.pow_succ_r by exact Hx.
    assert (HY : (0 < A ^ x)%Z) by (apply Z.pow_pos_nonneg; lia).
    generalize dependent (A ^ x)%Z. generalize dependent (B ^ x)%Z.
    intros X Y IH HY. subst B. nia.
Qed.

Lemma pow_halves (A B n : Z) :
  (0 < A -> B = A + 5 -> 0 <= n -> A <= 5 * n -> 2 * A ^ n <= B ^ n)%Z.
Proof.
  intros HA HB Hn Hbig.
  pose proof (pow_bernoulli A B 5 n HA ltac:(lia) HB Hn) as H.
  assert (HY : (0 < A ^ n)%Z) by (apply Z.pow_pos_nonneg; lia).
  generalize dependent (A ^ n)%Z. generalize dependent (B ^ n)%Z.
  intros X Y H HY. nia.
Qed.

Lemma pow_below_hundredth (A B n : Z) :
  (0 < A -> B = A + 5 -> 0 <= n -> A <= 5 * n ->
   100 * A ^ (n * 7) < B ^ (n * 7))%Z.
Proof.
  intros HA HB Hn Hbig.
  pose proof (pow_halves A B n HA HB Hn Hbig) as H.
  rewrite !Z.pow_mul_r by lia.
  assert (HY : (0 < A ^ n)%Z) by (apply Z.pow_pos_nonneg; lia).
  assert (H7 : ((2 * A ^ n) ^ 7 <= (B ^ n) ^ 7)%Z)
    by (apply Z.pow_le_mono_l; lia).
  rewrite Z.pow_mul_l in H7.
  assert (HY7 : (0 < (A ^ n) ^ 7)%Z) by (apply Z.pow_pos_nonneg; lia).
  change (2 ^ 7)%Z with 128%Z in H7.
  generalize dependent ((A ^ n) ^ 7)%Z. generalize dependent ((B ^ n) ^ 7)%Z.
  intros. lia.
Qed.

(** A power of an odd number times 100 is never the same power of a
    multiple of 8. *)
Lemma pow_never_hundredth (A B n : Z) :
  Z.odd A = true -> (exists b, B = 8 * b)%Z -> (0 <= n)%Z ->
  (100 * A ^ n <> B ^ n)%Z.
Proof.
  intros HA [b HB] Hn.
  destruct (Z.eq_dec n 0) as [->|Hn0].
  - rewrite !Z.pow_0_r. lia.
  - assert (Ho : Z.odd (A ^ n) = true) by (rewrite Z.odd_pow; [exact HA|lia]).
    apply Z.odd_spec in Ho. destruct Ho as [k Hk].
    replace n with (Z.succ (n - 1)) at 2 by lia.
    rewrite Z.pow_succ_r by lia. rewrite Hk, HB.
    generalize (B ^ (n - 1))%Z. intros Y.
    replace (8 * b * Y)%Z with (8 * (b * Y))%Z by ring.
    generalize (b * Y)%Z. intros. lia.
Qed.

(** ** The Q-network and the agent *)

Section NetworkProperties.

Import DQNModel.

Variables params opt_state dropout : Type.
Variable features : params -> dropout -> list Q -> list Q.
Variable value_stream : params -> list Q -> Q.
Variable advantage_stream : params -> list Q -> list Q.
Variable optimizer_step :
  opt_state -> params -> dropout -> list Experience -> list Q -> opt_state * params.

(** C6.  Whatever the parameters, the dropout draw and the input state, as
    long as the advantage head has at least one output: each Q-value is the
    value plus the advantage of its action minus the mean advantage, and the
    mean over the actions of [Q(s,a) - V(s)] is zero. *)
Theorem forward_dueling (theta : params) (w : dropout) (x : list Q) :
  let feats := features theta w x in
  let V := value_stream theta feats in
  let A := advantage_stream theta feats in
  let q_values := forward features value_stream advantage_stream theta w x in
  (0 < length A)%nat ->
  length q_values = length A /\
  (forall a : nat, (a < length A)%nat ->
     nth a q_values 0 == V + nth a A 0 - np_mean A) /\
  np_mean (map (fun q => q - V) q_values) == 0.
Proof.
  intros feats V A q_values HA. subst q_values. unfold forward.
  fold feats. fold V. fold A.
  split; [apply length_map|]. split.
  - intros a Ha.
    rewrite (nth_indep _ 0 (V + (0 - np_mean A)))
      by (now rewrite length_map).
    rewrite (map_nth (fun a0 => V + (a0 - np_mean A))). ring.
  - unfold np_mean at 1. rewrite map_map, !length_map.
    rewrite (Qsum_map_ext _ (fun a => a - np_mean A))
      by (intro; ring).
    rewrite Qsum_centered by exact HA.
    field. now apply length_nonzero.
Qed.

(** C3.  The target of a sampled transition with [done = True] is its
    stored reward: the bootstrapped term is multiplied by zero. *)
Theorem target_of_terminal_transition
    (ag : agent params opt_state) (w_sel w_eval : dropout)
    (batch : list Experience) (i : nat) (x : Experience) :
  nth_error batch i = Some x ->
  done x = true ->
  exists target,
    nth_error
      (target_q_values features value_stream advantage_stream
                       ag w_sel w_eval batch) i = Some target /\
    target == reward x.
Proof.
  intros Hi Hdone. unfold target_q_values.
  rewrite nth_error_map, Hi. simpl.
  eexists. split; [reflexivity|].
  unfold target_q_value. rewrite Hdone. simpl. ring.
Qed.

(** [learn] writes neither the floor nor the decay factor. *)
Lemma learn_hyperparameters (ag : agent params opt_state) (d : draw dropout) :
  let ag' :=
    fst (learn features value_stream advantage_stream optimizer_step ag d) in
  epsilon_end ag' = epsilon_end ag /\ epsilon_decay ag' = epsilon_decay ag.
Proof.
  unfold learn.
  destruct (length (memory ag) <? batch_size ag)%nat; [now split|].
  destruct (batch_size ag =? 0)%nat; [now split|].
  destruct (optimizer_step _ _ _ _ _).
  destruct (target_update_freq ag =? 0)%nat; now split.
Qed.

Lemma learn_memory (ag : agent params opt_state) (d : draw dropout) :
  let ag' :=
    fst (learn features value_stream advantage_stream optimizer_step ag d) in
  memory ag' = memory ag /\ batch_size ag' = batch_size ag /\
  target_update_freq ag' = target_update_freq ag.
Proof.
  unfold learn.
  destruct (length (memory ag) <? batch_size ag)%nat; [now repeat split|].
  destruct (batch_size ag =? 0)%nat; [now repeat split|].
  destruct (optimizer_step _ _ _ _ _).
  destruct (target_update_freq ag =? 0)%nat; now repeat split.
Qed.

(** The exploration rate after one [learn]: unchanged when the call returns
    [None], when it raises, or when the rate is at or below the floor;
    decayed once otherwise. *)
Lemma learn_epsilon (ag : agent params opt_state) (d : draw dropout) :
  let r := learn features value_stream advantage_stream optimizer_step ag d in
  epsilon (fst r) =
    if (length (memory ag) <? batch_size ag)%nat then epsilon ag
    else if (batch_size ag =? 0)%nat then epsilon ag
    else if (target_update_freq ag =? 0)%nat then epsilon ag
    else if Qlt_bool (epsilon_end ag) (epsilon ag)
         then epsilon ag * epsilon_decay ag
         else epsilon ag.
Proof.
  unfold learn.
  destruct (length (memory ag) <? batch_size ag)%nat; [reflexivity|].
  destruct (batch_size ag =? 0)%nat; [reflexivity|].
  destruct (optimizer_step _ _ _ _ _).
  now destruct (target_update_freq ag =? 0)%nat.
Qed.

(** One call: the rate does not grow, and it stays at or above the smaller
    of its value before the call and the floor times the decay factor. *)
Lemma learn_epsilon_bounds (ag : agent params opt_state) (d : draw dropout) :
  0 <= epsilon_end ag ->
  0 <= epsilon_decay ag <= 1 ->
  let ag' :=
    fst (learn features value_stream advantage_stream optimizer_step ag d) in
  epsilon ag' <= epsilon ag /\
  Qmin (epsilon ag) (epsilon_end ag * epsilon_decay ag) <= epsilon ag'.
Proof.
  intros Hend [Hd0 Hd1]. simpl. rewrite learn_epsilon.
  destruct (length (memory ag) <? batch_size ag)%nat;
    [split; [apply Qle_refl|apply Q.le_min_l]|].
  destruct (batch_size ag =? 0)%nat;
    [split; [apply Qle_refl|apply Q.le_min_l]|].
  destruct (target_update_freq ag =? 0)%nat;
    [split; [apply Qle_refl|apply Q.le_min_l]|].
  destruct (Qlt_bool (epsilon_end ag) (epsilon ag)) eqn:Hgt.
  - apply Qlt_bool_iff in Hgt. split; [nra|].
    apply Qle_trans with (epsilon_end ag * epsilon_decay ag);
      [apply Q.le_min_r|nra].
  - split; [apply Qle_refl|apply Q.le_min_l].
Qed.

(** C7, as amended.  With a floor that is not negative and a decay factor
    between 0 and 1, the exploration rate never grows along a sequence of
    [learn] calls, and it never drops below the smaller of its initial value
    and the floor times the decay factor. *)
Theorem epsilon_non_increasing
    (ag : agent params opt_state) (before after : list (draw dropout)) :
  0 <= epsilon_end ag ->
  0 <= epsilon_decay ag <= 1 ->
  let learn_all :=
    learn_all features value_stream advantage_stream optimizer_step in
  epsilon (learn_all ag (before ++ after)) <= epsilon (learn_all ag before) /\
  Qmin (epsilon ag) (epsilon_end ag * epsilon_decay ag)
    <= epsilon (learn_all ag (before ++ after)).
Proof.
  intros Hend Hd la. subst la. unfold learn_all.
  rewrite fold_left_app.
  set (step := fun a d =>
         fst (learn features value_stream advantage_stream optimizer_step a d)).
  set (bound := epsilon_end ag * epsilon_decay ag).
  assert (Hinv : forall ds a,
             epsilon_end a = epsilon_end ag ->
             epsilon_decay a = epsilon_decay ag ->
             epsilon (fold_left step ds a) <= epsilon a /\
             Qmin (epsilon a) bound <= epsilon (fold_left step ds a) /\
             epsilon_end (fold_left step ds a) = epsilon_end ag /\
             epsilon_decay (fold_left step ds a) = epsilon_decay ag).
  { induction ds as [|d ds IH]; intros a He Hdec.
    - simpl. repeat split; trivial; [apply Qle_refl|apply Q.le_min_l].
    - simpl.
      destruct (learn_hyperparameters a d) as [He' Hdec'].
      assert (Hb : epsilon (step a d) <= epsilon a /\
                   Qmin (epsilon a) (epsilon_end a * epsilon_decay a)
                   <= epsilon (step a d)).
      { apply learn_epsilon_bounds; rewrite ?He, ?Hdec; assumption. }
      destruct Hb as [Hle Hge]. rewrite He, Hdec in Hge. fold bound in Hge.
      assert (He2 : epsilon_end (step a d) = epsilon_end ag)
        by (unfold step; congruence).
      assert (Hd2 : epsilon_decay (step a d) = epsilon_decay ag)
        by (unfold step; congruence).
      destruct (IH (step a d) He2 Hd2) as (H1 & H2 & H3 & H4).
      repeat split; trivial.
      + apply Qle_trans with (epsilon (step a d)); assumption.
      + apply Qle_trans with (Qmin (epsilon (step a d)) bound);
          [|exact H2].
        apply Q.min_glb; [exact Hge|apply Q.le_min_r]. }
  destruct (Hinv before ag eq_refl eq_refl) as (_ & Hb & Hbe & Hbd).
  destruct (Hinv after (fold_left step before ag) Hbe Hbd)
    as (H1 & H2 & _).
  split; [exact H1|].
  apply Qle_trans with (Qmin (epsilon (fold_left step before ag)) bound);
    [|exact H2].
  apply Q.min_glb; [exact Hb|apply Q.le_min_r].
Qed.

End NetworkProperties.

(** ** The theorems on a small network *)

Lemma forward_dueling_witness :
  let x := [1; 2] in
  let V := Scenario.toy_value (1 # 2) (Scenario.toy_features (1 # 2) tt x) in
  let A := Scenario.toy_advantage (1 # 2) (Scenario.toy_features (1 # 2) tt x) in
  let q_values :=
    DQNModel.forward Scenario.toy_features Scenario.toy_value
                     Scenario.toy_advantage (1 # 2) tt x in
  (0 < length A)%nat /\
  length q_values = length A /\
  (forall a : nat, (a < length A)%nat ->
     nth a q_values 0 == V + nth a A 0 - np_mean A) /\
  np_mean (map (fun q => q - V) q_values) == 0.
Proof.
  intros x V A q_values.
  assert (H : (0 < length A)%nat) by (simpl; lia).
  split; [exact H|].
  exact (forward_dueling Q unit Scenario.toy_features Scenario.toy_value
           Scenario.toy_advantage (1 # 2) tt x H).
Defined.

Lemma target_of_terminal_transition_witness :
  nth_error [Scenario.terminal] 0 = Some Scenario.terminal /\
  DQNModel.done Scenario.terminal = true /\
  exists target,
    nth_error
      (DQNModel.target_q_values Scenario.toy_features Scenario.toy_value
         Scenario.toy_advantage Scenario.repo_agent tt tt [Scenario.terminal])
      0 = Some target /\
    target == DQNModel.reward Scenario.terminal.
Proof.
  split; [reflexivity|]. split; [reflexivity|].
  exact (target_of_terminal_transition Q unit unit Scenario.toy_features
           Scenario.toy_value Scenario.toy_advantage Scenario.repo_agent tt tt
           [Scenario.terminal] 0 Scenario.terminal eq_refl eq_refl).
Defined.

Lemma epsilon_non_increasing_witness :
  let ag := Scenario.repo_agent in
  let ds := [Scenario.toy_draw; Scenario.toy_draw] in
  0 <= DQNModel.epsilon_end ag /\
  0 <= DQNModel.epsilon_decay ag <= 1 /\
  DQNModel.epsilon (Scenario.toy_learn_all ag (ds ++ ds))
    <= DQNModel.epsilon (Scenario.toy_learn_all ag ds) /\
  Qmin (DQNModel.epsilon ag)
       (DQNModel.epsilon_end ag * DQNModel.epsilon_decay ag)
    <= DQNModel.epsilon (Scenario.toy_learn_all ag (ds ++ ds)).
Proof.
  intros ag ds.
  assert (H1 : 0 <= DQNModel.epsilon_end ag) by by_computation.
  assert (H2 : 0 <= DQNModel.epsilon_decay ag <= 1) by (split; by_computation).
  split; [exact H1|]. split; [exact H2|].
  exact (epsilon_non_increasing Q unit unit Scenario.toy_features
           Scenario.toy_value Scenario.toy_advantage Scenario.toy_optimizer
           ag ds ds H1 H2).
Defined.

(** *** The repository's configuration, from the constructor *)

Lemma repo_run_succ (n : nat) :
  Scenario.repo_run (S n) =
  fst (DQNModel.learn Scenario.toy_features Scenario.toy_value
         Scenario.toy_advantage Scenario.toy_optimizer
         (Scenario.repo_run n) Scenario.toy_draw).
Proof.
  unfold Scenario.repo_run, Scenario.toy_learn_all, DQNModel.learn_all.
  change (repeat Scenario.toy_draw (S n))
    with (Scenario.toy_draw :: repeat Scenario.toy_draw n).
  rewrite repeat_cons, fold_left_app. reflexivity.
Qed.

(** Every call of [learn] on the repository's agent performs an update, and
    the floor, the decay factor and the update frequency stay those of
    [MODEL_CONFIG]. *)
Lemma repo_run_fields (n : nat) :
  DQNModel.epsilon_end (Scenario.repo_run n) = 1 # 100 /\
  DQNModel.epsilon_decay (Scenario.repo_run n) = 99995 # 100000 /\
  (length (DQNModel.memory (Scenario.repo_run n))
   <? DQNModel.batch_size (Scenario.repo_run n))%nat = false /\
  DQNModel.batch_size (Scenario.repo_run n) = 128%nat /\
  DQNModel.target_update_freq (Scenario.repo_run n) = 100%nat.
Proof.
  induction n as [|n (He & Hd & Hm & Hbs & Hf)].
  - repeat split; vm_compute; reflexivity.
  - rewrite repo_run_succ.
    destruct (learn_hyperparameters Q unit unit Scenario.toy_features
                Scenario.toy_value Scenario.toy_advantage
                Scenario.toy_optimizer (Scenario.repo_run n) Scenario.toy_draw)
      as [He' Hd'].
    destruct (learn_memory Q unit unit Scenario.toy_features
                Scenario.toy_value Scenario.toy_advantage
                Scenario.toy_optimizer (Scenario.repo_run n) Scenario.toy_draw)
      as (Hm' & Hb' & Hf').
    simpl in He', Hd', Hm', Hb', Hf'.
    rewrite He', Hd', Hm', Hb', Hf'. auto.
Qed.

Lemma repo_run_epsilon (n : nat) :
  DQNModel.epsilon (Scenario.repo_run (S n)) =
  if Qlt_bool (1 # 100) (DQNModel.epsilon (Scenario.repo_run n))
  then DQNModel.epsilon (Scenario.repo_run n) * (99995 # 100000)
  else DQNModel.epsilon (Scenario.repo_run n).
Proof.
  destruct (repo_run_fields n) as (He & Hd & Hm & Hbs & Hf).
  rewrite repo_run_succ.
  pose proof (learn_epsilon Q unit unit Scenario.toy_features
                Scenario.toy_value Scenario.toy_advantage
                Scenario.toy_optimizer (Scenario.repo_run n) Scenario.toy_draw)
    as H.
  simpl in H. rewrite H, Hm, Hbs, Hf, He, Hd. reflexivity.
Qed.

(** Until it has fallen below the floor, the exploration rate after [n]
    updates is [0.99995 ^ n]. *)
Lemma repo_run_power (n : nat) :
  (exists k, DQNModel.epsilon (Scenario.repo_run k) < 1 # 100) \/
  DQNModel.epsilon (Scenario.repo_run n) * inject_Z (100000 ^ Z.of_nat n)
  == inject_Z (99995 ^ Z.of_nat n).
Proof.
  induction n as [|n [IH|IH]]; [right| now left|].
  - change (Z.of_nat 0) with 0%Z. rewrite !Z.pow_0_r.
    vm_compute. reflexivity.
  - rewrite Nat2Z.inj_succ, !Z.pow_succ_r, !inject_Z_mult by lia.
    rewrite repo_run_epsilon.
    set (eps := DQNModel.epsilon (Scenario.repo_run n)) in *.
    set (X := inject_Z (100000 ^ Z.of_nat n)) in *.
    set (Y := inject_Z (99995 ^ Z.of_nat n)) in *.
    destruct (Qlt_bool (1 # 100) eps) eqn:Hgt.
    + right.
      setoid_replace (eps * (99995 # 100000) * (inject_Z 100000 * X))
        with ((99995 # 100000) * inject_Z 100000 * (eps * X)) by ring.
      rewrite IH.
      setoid_replace ((99995 # 100000) * inject_Z 100000)
        with (inject_Z 99995) by (vm_compute; reflexivity).
      reflexivity.
    + apply Qlt_bool_false_iff in Hgt.
      destruct (Qlt_le_dec eps (1 # 100)) as [Hlt|Hge].
      * left. now exists n.
      * exfalso.
        assert (Heq : eps == 1 # 100) by (apply Qle_antisym; assumption).
        rewrite Heq in IH.
        assert (HZ : (100 * 99995 ^ Z.of_nat n = 100000 ^ Z.of_nat n)%Z).
        { apply inject_Z_injective. rewrite inject_Z_mult.
          fold X. fold Y. rewrite <- IH. field. }
        revert HZ. apply pow_never_hundredth; [reflexivity| |lia].
        exists 12500%Z. reflexivity.
Qed.

(** After 140000 updates at the latest the power has passed the floor. *)
Lemma repo_power_below_hundredth :
  (0 <= 20000 * 7)%Z /\
  (0 < 100000 ^ (20000 * 7))%Z /\
  (100 * 99995 ^ (20000 * 7) < 100000 ^ (20000 * 7))%Z.
Proof.
  split; [vm_compute; discriminate|]. split.
  - apply Z.pow_pos_nonneg; vm_compute; (reflexivity || discriminate).
  - apply pow_below_hundredth;
      vm_compute; (reflexivity || discriminate).
Qed.

Lemma below_hundredth (eps X Y : Q) :
  eps * X == Y -> 0 < X -> 100 * Y < X -> eps < 1 # 100.
Proof.
  intros H HX Hlt. apply Qnot_le_lt. intro Hle.
  assert (Hm : (1 # 100) * X <= eps * X)
    by (apply Qmult_le_compat_r; [exact Hle|now apply Qlt_le_weak]).
  rewrite H in Hm. lra.
Qed.

(** With the repository's [MODEL_CONFIG] and the exploration rate 1.0 of the
    constructor, some number of updates takes the rate strictly below the
    configured floor 0.01. *)
Lemma repo_epsilon_falls_below_floor :
  exists n,
    DQNModel.epsilon (Scenario.repo_run n)
    < DQNModel.epsilon_end (Scenario.repo_run n).
Proof.
  assert (H : exists k, DQNModel.epsilon (Scenario.repo_run k) < 1 # 100).
  { destruct repo_power_below_hundredth as (Hn & HX & Hlt).
    destruct (repo_run_power (Z.to_nat (20000 * 7))) as [H|H]; [exact H|].
    exists (Z.to_nat (20000 * 7)).
    rewrite (Z2Nat.id _ Hn) in H.
    apply (below_hundredth _ _ _ H).
    - rewrite Zlt_Qlt in HX. exact HX.
    - rewrite Zlt_Qlt, inject_Z_mult in Hlt. exact Hlt. }
  destruct H as [k Hk]. exists k.
  now rewrite (proj1 (repo_run_fields k)).
Qed.

(** C7, the claim as stated fails.  An agent built with floor 0.3 and decay
    factor 0.5 has, after two updates, an exploration rate of 0.25; and the
    repository's own agent, built with floor 0.01 and decay factor 0.99995
    and starting from the rate 1.0, is strictly below its floor after some
    number of updates.  In both runs every call of [learn] performed an
    update.  Outside the usual range of the configuration the rate can also
    grow (decay factor 2; floor -1 with the rate -0.5), and with a negative
    decay factor one update takes it below the floor times that factor. *)
Lemma epsilon_below_floor :
  let learn :=
    DQNModel.learn Scenario.toy_features Scenario.toy_value
                   Scenario.toy_advantage Scenario.toy_optimizer in
  (let ag := Scenario.toy_agent Scenario.fast_config 1 in
   let ag1 := fst (learn ag Scenario.toy_draw) in
   let ag2 := fst (learn ag1 Scenario.toy_draw) in
   (exists loss, snd (learn ag Scenario.toy_draw) = Ok (Some loss)) /\
   (exists loss, snd (learn ag1 Scenario.toy_draw) = Ok (Some loss)) /\
   DQNModel.epsilon ag == 1 /\
   DQNModel.epsilon ag2 == 1 # 4 /\
   DQNModel.epsilon ag2 < DQNModel.epsilon_end ag2) /\
  (DQNModel.epsilon (Scenario.repo_run 0) == 1 /\
   exists n,
     DQNModel.epsilon (Scenario.repo_run n)
     < DQNModel.epsilon_end (Scenario.repo_run n)) /\
  (let ag := Scenario.toy_agent Scenario.growing_config 1 in
   (exists loss, snd (learn ag Scenario.toy_draw) = Ok (Some loss)) /\
   DQNModel.epsilon ag < DQNModel.epsilon (fst (learn ag Scenario.toy_draw))) /\
  (let ag := Scenario.toy_agent Scenario.negative_floor_config 1 in
   (exists loss, snd (learn ag Scenario.toy_draw) = Ok (Some loss)) /\
   DQNModel.epsilon ag < DQNModel.epsilon (fst (learn ag Scenario.toy_draw))) /\
  (let ag := Scenario.toy_agent Scenario.negative_decay_config 1 in
   (exists loss, snd (learn ag Scenario.toy_draw) = Ok (Some loss)) /\
   DQNModel.epsilon (fst (learn ag Scenario.toy_draw))
   < Qmin (DQNModel.epsilon ag)
          (DQNModel.epsilon_end ag * DQNModel.epsilon_decay ag)).
Proof.
  cbv zeta. split; [|split; [|split; [|split]]].
  - repeat split;
      first [by_computation | eexists; vm_compute; reflexivity].
  - split; [by_computation|exact repo_epsilon_falls_below_floor].
  - split; [eexists; vm_compute; reflexivity|by_computation].
  - split; [eexists; vm_compute; reflexivity|by_computation].
  - split; [eexists; vm_compute; reflexivity|by_computation].
Qed.

(** * Further properties of the simulator *)

(** ** Episodes: [reset] followed by [step] calls *)

Lemma execute_static (e : env) (a : Z) (p : Q) :
  scaler (execute e a p) = scaler e /\
  lookback_window (execute e a p) = lookback_window e /\
  transaction_cost (execute e a p) = transaction_cost e /\
  max_position_hold (execute e a p) = max_position_hold e.
Proof.
  unfold execute.
  destruct (a =? 0)%Z; [destruct (Qlt_bool 0 (btc_held e)); simpl; tauto|].
  destruct (a =? 2)%Z; [destruct (Qlt_bool 0 (balance e)); simpl; tauto|].
  tauto.
Qed.

Section EpisodeProperties.

Variable np_sqrt : Q -> Q.

(** [step] never writes the series, the scaler or the configuration. *)
Lemma step_static (e : env) (a : Z) :
  let e' := fst (step np_sqrt e a) in
  data e' = data e /\ scaler e' = scaler e /\
  lookback_window e' = lookback_window e /\
  initial_balance e' = initial_balance e /\
  transaction_cost e' = transaction_cost e /\
  max_position_hold e' = max_position_hold e.
Proof.
  simpl. destruct (end_of_data e) eqn:Hend.
  - rewrite step_at_end by exact Hend. simpl. tauto.
  - destruct (step_before_end_pair np_sqrt e a Hend) as (p & s & _ & Hs).
    rewrite Hs. simpl.
    destruct (execute_data e (snd (check_action e a)) p) as (H1 & _ & H2 & _).
    destruct (execute_static e (snd (check_action e a)) p) as (H3 & H4 & H5 & H6).
    tauto.
Qed.

Lemma run_static (e : env) (actions : list Z) :
  let e' := run np_sqrt e actions in
  data e' = data e /\ scaler e' = scaler e /\
  lookback_window e' = lookback_window e /\
  initial_balance e' = initial_balance e /\
  transaction_cost e' = transaction_cost e /\
  max_position_hold e' = max_position_hold e.
Proof.
  revert e. induction actions as [|a actions IH]; intros e; simpl; [tauto|].
  destruct (IH (fst (step np_sqrt e a))) as (H1 & H2 & H3 & H4 & H5 & H6).
  destruct (step_static e a) as (G1 & G2 & G3 & G4 & G5 & G6).
  simpl in *. repeat split; congruence.
Qed.

(** X1.  [reset] starts every episode from the same object: whatever was
    traded since, a [reset] after any sequence of [step] calls gives the
    object that a [reset] without them gives. *)
Theorem reset_forgets_episode (e : env) (actions : list Z) (start : option Z) :
  reset (run np_sqrt e actions) start = reset e start.
Proof.
  destruct (run_static e actions) as (H1 & H2 & H3 & H4 & H5 & H6).
  simpl in *. unfold reset, reset_env.
  now rewrite H1, H2, H3, H4, H5, H6.
Qed.

(** Which exception [_get_state] raises. *)
Lemma state_raises_iff (e : env) :
  let window :=
    py_slice (data e)
             (Z.of_nat (current_step e) - Z.of_nat (lookback_window e))
             (Z.of_nat (current_step e)) in
  (_get_state e = Raise ValueError <-> window = []) /\
  (_get_state e = Raise IndexError <->
   window <> [] /\ ~ initial_balance e == 0 /\
   (length (data e) <= current_step e)%nat).
Proof.
  cbv zeta. unfold _get_state.
  destruct (py_slice _ _ _) as [|r w] eqn:Hw.
  { split; [tauto|]. split; [discriminate|]. intros [H _]. now contradiction H. }
  destruct (Qeq_bool (initial_balance e) 0) eqn:Hi.
  { apply Qeq_bool_iff in Hi. split; [split; discriminate|].
    split; [discriminate|]. intros (_ & H & _). contradiction. }
  apply Qeq_bool_neq in Hi.
  destruct (Nat.le_gt_cases (length (data e)) (current_step e)) as [Hle|Hgt].
  - rewrite (price_out_of_range e Hle). split; [split; discriminate|].
    split; [|reflexivity]. intros _. repeat split; trivial. discriminate.
  - destruct (price_in_range e Hgt) as [p ->].
    destruct (Qeq_bool (max_position_hold e) 0).
    + split; [split; discriminate|]. split; [discriminate|].
      intros (_ & _ & H). lia.
    + split; [split; discriminate|]. split; [discriminate|].
      intros (_ & _ & H). lia.
Qed.

(** X2.  [reset] moves the cursor to the larger of [start_step] and the
    lookback and then computes the state, after the attributes were
    written.  It raises [ValueError] exactly when the lookback window at
    that cursor is empty, and [IndexError] exactly when the window is not
    empty, the initial balance is not zero and the cursor is not an index
    of the series; it returns a state exactly when the state can be
    computed at the cursor and the cursor is an index of the series. *)
Theorem reset_raises_iff (e : env) (start : option Z) :
  let cursor :=
    match start with
    | None => lookback_window e
    | Some s => Nat.max (Z.to_nat s) (lookback_window e)
    end in
  let window :=
    py_slice (data e) (Z.of_nat cursor - Z.of_nat (lookback_window e))
             (Z.of_nat cursor) in
  current_step (fst (reset e start)) = cursor /\
  (snd (reset e start) = Raise ValueError <-> window = []) /\
  (snd (reset e start) = Raise IndexError <->
   window <> [] /\ ~ initial_balance e == 0 /\
   (length (data e) <= cursor)%nat) /\
  ((exists s, snd (reset e start) = Ok s) <->
   state_computable e cursor /\ (cursor < length (data e))%nat).
Proof.
  intros cursor window.
  assert (Hc : current_step (reset_env e start) = cursor).
  { subst cursor. destruct start as [s|]; simpl; [lia|reflexivity]. }
  split; [exact Hc|]. unfold reset. cbn [snd].
  destruct (state_raises_iff (reset_env e start)) as [Hv Hi].
  pose proof (state_returned_iff (reset_env e start)) as Hr.
  rewrite Hc in Hv, Hi, Hr.
  split; [exact Hv|]. split; [exact Hi|]. exact Hr.
Qed.

Lemma step_keeps_cursor_in_range (e : env) (a : Z) :
  (current_step e < length (data e))%nat ->
  (current_step (fst (step np_sqrt e a))
   < length (data (fst (step np_sqrt e a))))%nat.
Proof.
  intros Hlt. destruct (end_of_data e) eqn:Hend.
  - rewrite step_at_end by exact Hend. exact Hlt.
  - pose proof Hend as Hn. apply end_of_data_false in Hn.
    destruct (step_before_end_pair np_sqrt e a Hend) as (p & s & _ & Hs).
    rewrite Hs. simpl.
    destruct (execute_data e (snd (check_action e a)) p) as (H1 & H2 & _).
    rewrite H1, H2. exact Hn.
Qed.

(** On an object whose state can be computed, [step] returns, and the state
    of the object it leaves can be computed as well. *)
Lemma step_keeps_state (e : env) (a : Z) :
  (exists s, _get_state e = Ok s) ->
  (exists s, _get_state (fst (step np_sqrt e a)) = Ok s) /\
  exists t, snd (step np_sqrt e a) = Ok t.
Proof.
  intros Hstate. destruct (end_of_data e) eqn:Hend.
  - rewrite step_at_end by exact Hend. cbn [fst snd].
    split; [exact Hstate|]. destruct Hstate as [s ->]. eauto.
  - pose proof Hend as Hn. apply end_of_data_false in Hn.
    apply state_returned_iff in Hstate. destruct Hstate as [Hc Hlt].
    destruct (step_before_end np_sqrt e a Hend) as (p & s & _ & Hs & Hstep).
    { apply state_computable_succ; [lia|exact Hc]. }
    rewrite Hstep. cbn [fst snd]. split; eauto.
Qed.

Lemma run_keeps_state (e : env) (actions : list Z) :
  (exists s, _get_state e = Ok s) ->
  exists s, _get_state (run np_sqrt e actions) = Ok s.
Proof.
  revert e. induction actions as [|a actions IH]; intros e He; [exact He|].
  simpl. apply IH. now apply step_keeps_state.
Qed.

(** X3.  Once [reset] has returned a state, no [step] of the episode
    raises, whatever actions are requested and however many. *)
Theorem episode_never_raises
    (e0 : env) (start : option Z) (s0 : list Q) (actions : list Z) (a : Z) :
  snd (reset e0 start) = Ok s0 ->
  exists t, snd (step np_sqrt (run np_sqrt (fst (reset e0 start)) actions) a) = Ok t.
Proof.
  intros Hreset. unfold reset in *. simpl in *.
  apply step_keeps_state. apply run_keeps_state. eauto.
Qed.

(** X4.  From a cursor inside the series, [n] calls of [step] move it by
    [n], but not past the last row. *)
Theorem cursor_after_run (e : env) (actions : list Z) :
  (current_step e < length (data e))%nat ->
  current_step (run np_sqrt e actions) =
  Nat.min (current_step e + length actions) (length (data e) - 1).
Proof.
  revert e. induction actions as [|a actions IH]; intros e He.
  - simpl. lia.
  - simpl run. simpl length.
    pose proof (step_keeps_cursor_in_range e a He) as He'.
    rewrite (IH _ He').
    destruct (step_static e a) as (Hd & _). simpl in Hd. rewrite Hd.
    destruct (end_of_data e) eqn:Hend.
    + rewrite step_at_end by exact Hend. cbn [fst].
      apply end_of_data_true in Hend. lia.
    + pose proof Hend as Hn. apply end_of_data_false in Hn.
      destruct (step_before_end_pair np_sqrt e a Hend) as (p & s & _ & Hs).
      rewrite Hs. cbn [fst advance current_step].
      destruct (execute_data e (snd (check_action e a)) p) as (_ & H2 & _).
      rewrite H2. lia.
Qed.

(** X5.  At the end of the data the object is final: no sequence of [step]
    calls changes it any more. *)
Theorem run_at_end (e : env) (actions : list Z) :
  end_of_data e = true -> run np_sqrt e actions = e.
Proof.
  intros Hend. induction actions as [|a actions IH]; [reflexivity|].
  simpl. rewrite step_at_end by exact Hend. exact IH.
Qed.

End EpisodeProperties.

(** ** The account *)

Lemma Qdiv_pos (x p : Q) : 0 < x -> 0 < p -> 0 < x / p.
Proof.
  intros Hx Hp. apply Qlt_shift_div_l; [exact Hp|]. now rewrite Qmult_0_l.
Qed.

Lemma current_price_positive (e : env) (p : Q) :
  Forall (fun r => 0 < CLOSE r) (data e) ->
  _get_current_price e = Ok p -> 0 < p.
Proof.
  intros Hall. unfold _get_current_price.
  destruct (nth_error (data e) (current_step e)) as [r|] eqn:E; [|discriminate].
  intros H. injection H as <-.
  rewrite Forall_forall in Hall. apply Hall. eapply nth_error_In, E.
Qed.

Lemma execute_position_inv (e : env) (a : Z) (p : Q) :
  position_inv e ->
  0 <= transaction_cost e < 1 -> 0 < p ->
  (a = 0%Z -> _can_sell e = true) ->
  (a = 2%Z -> _can_buy e = true) ->
  position_inv (execute e a p).
Proof.
  intros Hinv [Hc0 Hc1] Hp Hsell Hbuy. unfold execute.
  destruct (a =? 0)%Z eqn:E0.
  - apply Z.eqb_eq in E0.
    destruct (Qlt_bool 0 (btc_held e)) eqn:Hb; [|exact Hinv].
    apply Qlt_bool_iff in Hb.
    destruct Hinv as [(_ & Hz & _)|(Hbal & _ & _)].
    + rewrite Hz in Hb. exfalso. exact (Qlt_irrefl 0 Hb).
    + left. simpl. rewrite Hbal.
      assert (Hv : 0 < btc_held e * p) by nra.
      repeat split; [nra|discriminate].
  - destruct (a =? 2)%Z eqn:E2; [|exact Hinv].
    destruct (Qlt_bool 0 (balance e)) eqn:Hb; [|exact Hinv].
    apply Qlt_bool_iff in Hb.
    right. simpl. repeat split.
    apply Qdiv_pos; [nra|exact Hp].
Qed.

Section AccountProperties.

Variable np_sqrt : Q -> Q.

Lemma step_position_inv (e : env) (a : Z) :
  position_inv e ->
  0 <= transaction_cost e < 1 ->
  Forall (fun r => 0 < CLOSE r) (data e) ->
  position_inv (fst (step np_sqrt e a)).
Proof.
  intros Hinv Hc Hall. destruct (end_of_data e) eqn:Hend.
  - now rewrite step_at_end by exact Hend.
  - destruct (step_before_end_pair np_sqrt e a Hend) as (p & s & Hp & Hs).
    rewrite Hs. cbn [fst].
    apply (current_price_positive e p Hall) in Hp.
    assert (H : position_inv (execute e (snd (check_action e a)) p)).
    { apply execute_position_inv; trivial.
      - intros H0. now destruct (check_action_sell e a H0).
      - intros H2. now destruct (check_action_buy e a H2). }
    exact H.
Qed.

Lemma run_position_inv (e0 : env) (start : option Z) (actions : list Z) :
  0 < initial_balance e0 ->
  0 <= transaction_cost e0 < 1 ->
  Forall (fun r => 0 < CLOSE r) (data e0) ->
  position_inv (run np_sqrt (reset_env e0 start) actions).
Proof.
  intros Hb Hc Hall.
  assert (H : forall acts e,
             position_inv e ->
             transaction_cost e = transaction_cost e0 ->
             data e = data e0 ->
             position_inv (run np_sqrt e acts)).
  { induction acts as [|a acts IH]; intros e He Hce Hde; [exact He|].
    simpl. destruct (step_static np_sqrt e a) as (Hd & _ & _ & _ & Ht & _).
    simpl in Hd, Ht.
    apply IH; [|congruence|congruence].
    apply step_position_inv; [exact He| |]; now rewrite ?Hce, ?Hde. }
  apply H; [|reflexivity|reflexivity].
  left. simpl. repeat split; [exact Hb|discriminate].
Qed.

(** X6.  With a positive initial balance, a fee rate in [0, 1) and positive
    prices, the account is at every point of an episode either all in cash
    or all in BTC: exactly one of the two is positive and the other is
    zero. *)
Theorem position_all_in_or_all_out
    (e0 : env) (start : option Z) (actions : list Z) :
  0 < initial_balance e0 ->
  0 <= transaction_cost e0 < 1 ->
  Forall (fun r => 0 < CLOSE r) (data e0) ->
  let e := run np_sqrt (reset_env e0 start) actions in
  (0 < balance e /\ btc_held e = 0) \/ (balance e = 0 /\ 0 < btc_held e).
Proof.
  intros Hb Hc Hall e.
  destruct (run_position_inv e0 start actions Hb Hc Hall)
    as [(H1 & H2 & _)|(H1 & H2 & _)]; [left|right]; now split.
Qed.

(** X7.  Under the same conditions exactly one of the two trades is valid
    at every point of an episode: a buy while in cash, a sell while in BTC.
    Besides the hold, the agent always has one action that is not blocked. *)
Theorem exactly_one_trade_valid
    (e0 : env) (start : option Z) (actions : list Z) :
  0 < initial_balance e0 ->
  0 <= transaction_cost e0 < 1 ->
  Forall (fun r => 0 < CLOSE r) (data e0) ->
  let e := run np_sqrt (reset_env e0 start) actions in
  _can_buy e = negb (_can_sell e) /\
  (_can_buy e = true <-> 0 < balance e) /\
  (_can_sell e = true <-> 0 < btc_held e).
Proof.
  intros Hb Hc Hall e.
  destruct (run_position_inv e0 start actions Hb Hc Hall)
    as [(H1 & H2 & H3)|(H1 & H2 & H3)]; fold e in H1, H2, H3;
    unfold _can_buy, _can_sell; rewrite ?H1, ?H2, ?H3.
  - apply Qlt_bool_iff in H1 as H1'. apply opt_neqb_true in H3.
    rewrite H1', H3. simpl.
    repeat split; trivial; try discriminate;
      try (intro H; exfalso; exact (Qlt_irrefl 0 H)).
  - apply Qlt_bool_iff in H2 as H2'. rewrite H2'. simpl.
    repeat split; trivial; try discriminate;
      try (intro H; exfalso; exact (Qlt_irrefl 0 H)).
Qed.

Lemma step_buy_account (e : env) (p : Q) :
  end_of_data e = false ->
  _can_buy e = true ->
  _get_current_price e = Ok p ->
  ~ p == 0 ->
  let e' := fst (step np_sqrt e 2) in
  balance e' = 0 /\
  btc_held e' * p == balance e * (1 - transaction_cost e) /\
  total_value e' == balance e * (1 - transaction_cost e) /\
  last_trading_action e' = Some 2%Z /\
  last_action_step e' = current_step e.
Proof.
  intros Hend Hcan Hprice Hp0.
  destruct (step_before_end_pair np_sqrt e 2 Hend) as (p' & s & Hp' & Hs).
  rewrite Hprice in Hp'. injection Hp' as <-.
  rewrite Hs. clear Hs. cbn [fst].
  unfold check_action. rewrite Hcan. simpl snd.
  unfold _can_buy in Hcan. apply andb_true_iff in Hcan. destruct Hcan as [Hb _].
  unfold execute. simpl. rewrite Hb. simpl.
  repeat split; field; exact Hp0.
Qed.

(** X8.  An executed buy converts the whole cash at the current price and
    costs exactly the fee: the cash is zero afterwards and the holdings,
    valued at that price, and the total value are the old cash times one
    minus the fee rate. *)
Theorem buy_accounting (e : env) (p : Q) :
  end_of_data e = false ->
  _can_buy e = true ->
  _get_current_price e = Ok p ->
  ~ p == 0 ->
  let e' := fst (step np_sqrt e 2) in
  balance e' = 0 /\
  btc_held e' * p == balance e * (1 - transaction_cost e) /\
  total_value e' == balance e * (1 - transaction_cost e) /\
  last_trading_action e' = Some 2%Z /\
  last_action_step e' = current_step e.
Proof. exact (step_buy_account e p). Qed.

(** X9.  An executed sell converts the whole holdings at the current price
    minus the fee: the holdings are zero afterwards, the cash has grown by
    the holdings' value times one minus the fee rate, and the total value is
    the cash. *)
Theorem sell_accounting (e : env) (p : Q) :
  end_of_data e = false ->
  _can_sell e = true ->
  _get_current_price e = Ok p ->
  let e' := fst (step np_sqrt e 0) in
  btc_held e' = 0 /\
  balance e' == balance e + btc_held e * p * (1 - transaction_cost e) /\
  total_value e' == balance e' /\
  last_trading_action e' = Some 0%Z /\
  last_action_step e' = current_step e.
Proof.
  intros Hend Hcan Hprice.
  destruct (step_before_end_pair np_sqrt e 0 Hend) as (p' & s & Hp' & Hs).
  rewrite Hprice in Hp'. injection Hp' as <-.
  rewrite Hs. clear Hs. cbn [fst].
  unfold check_action. rewrite Hcan. simpl snd.
  unfold _can_sell in Hcan. apply andb_true_iff in Hcan. destruct Hcan as [Hb _].
  unfold execute. simpl. rewrite Hb. simpl.
  repeat split; ring.
Qed.

End AccountProperties.

(** ** The logs and the idle clock *)

Lemma execute_clock (e : env) (a : Z) (p : Q) :
  (last_action_step (execute e a p) = last_action_step e /\
   trades (execute e a p) = trades e) \/
  (last_action_step (execute e a p) = current_step e /\
   exists t, trades (execute e a p) = trades e ++ [t] /\
             t_step t = current_step e /\ t_price t = p).
Proof.
  unfold execute.
  destruct (a =? 0)%Z; [destruct (Qlt_bool 0 (btc_held e))|];
    [right; simpl; eauto|now left|].
  destruct (a =? 2)%Z; [destruct (Qlt_bool 0 (balance e))|];
    [right; simpl; eauto|now left|now left].
Qed.

Lemma reward_bonus (np_sqrt : Q -> Q) (e : env) (prev : Q) :
  _calculate_reward np_sqrt e prev false ==
  _calculate_reward np_sqrt e prev true + (1 # 100).
Proof.
  unfold _calculate_reward. simpl.
  destruct (10 <? length (portfolio_values e))%nat;
    destruct (Qlt_bool 30 _);
    destruct (Qlt_bool _ (- (5 # 100))); destruct (Qlt_bool (5 # 100) _);
    ring.
Qed.

Section LogProperties.

Variable np_sqrt : Q -> Q.

Lemma run_history
    (e0 : env) (start : option Z) (actions : list Z) :
  let e := run np_sqrt (reset_env e0 start) actions in
  length (portfolio_values e) = length (actions_taken e) /\
  current_step e =
    (current_step (reset_env e0 start) + length (portfolio_values e))%nat /\
  match portfolio_values e with
  | [] => total_value e = initial_balance e0
  | _ :: _ => last_error (portfolio_values e) = Some (total_value e)
  end.
Proof.
  set (c0 := current_step (reset_env e0 start)).
  set (P := fun e : env =>
              length (portfolio_values e) = length (actions_taken e) /\
              current_step e = (c0 + length (portfolio_values e))%nat /\
              match portfolio_values e with
              | [] => total_value e = initial_balance e0
              | _ :: _ => last_error (portfolio_values e) = Some (total_value e)
              end).
  assert (Hstep : forall e a, P e -> P (fst (step np_sqrt e a))).
  { intros e a (H1 & H2 & H3). destruct (end_of_data e) eqn:Hend.
    - rewrite step_at_end by exact Hend. now split.
    - destruct (step_before_end_pair np_sqrt e a Hend) as (p & s & _ & Hs).
      rewrite Hs. cbn [fst]. clear Hs.
      destruct (execute_data e (snd (check_action e a)) p)
        as (_ & Hc & _ & _ & Hpv & Hat).
      unfold P. cbn [advance portfolio_values actions_taken current_step
                     total_value].
      rewrite Hc, Hpv, Hat, !length_app. simpl length.
      split; [lia|]. split; [lia|].
      destruct (portfolio_values e ++ [_]) eqn:E.
      + now destruct (portfolio_values e).
      + rewrite <- E. apply last_error_snoc. }
  assert (Hrun : forall acts e, P e -> P (run np_sqrt e acts)).
  { induction acts as [|a acts IH]; intros e He; [exact He|].
    simpl. apply IH, Hstep, He. }
  apply Hrun. unfold P, c0. simpl. repeat split. lia.
Qed.

(** X10.  In an episode the portfolio history and the action log grow
    together, one entry for each step the cursor has moved since the
    [reset], and the total value is the last entry of the history (the
    initial balance while the history is empty). *)
Theorem history_tracks_cursor
    (e0 : env) (start : option Z) (actions : list Z) :
  let e := run np_sqrt (reset_env e0 start) actions in
  length (portfolio_values e) = length (actions_taken e) /\
  current_step e =
    (current_step (reset_env e0 start) + length (portfolio_values e))%nat /\
  match portfolio_values e with
  | [] => total_value e = initial_balance e0
  | _ :: _ => last_error (portfolio_values e) = Some (total_value e)
  end.
Proof. exact (run_history e0 start actions). Qed.

(** X11.  In an episode [last_action_step] never runs ahead of the cursor,
    so the idle time that the reward penalizes and the state reports is
    never negative, and no trade is logged at a later step than
    [last_action_step]. *)
Theorem idle_clock_not_negative
    (e0 : env) (start : option Z) (actions : list Z) :
  let e := run np_sqrt (reset_env e0 start) actions in
  (last_action_step e <= current_step e)%nat /\
  0 <= steps_between (current_step e) (last_action_step e) /\
  Forall (fun t => (t_step t <= last_action_step e)%nat) (trades e).
Proof.
  set (P := fun e : env =>
              (last_action_step e <= current_step e)%nat /\
              Forall (fun t => (t_step t <= last_action_step e)%nat) (trades e)).
  assert (Hstep : forall e a, P e -> P (fst (step np_sqrt e a))).
  { intros e a (H1 & H2). destruct (end_of_data e) eqn:Hend.
    - rewrite step_at_end by exact Hend. now split.
    - destruct (step_before_end_pair np_sqrt e a Hend) as (p & s & _ & Hs).
      rewrite Hs. cbn [fst]. clear Hs.
      destruct (execute_data e (snd (check_action e a)) p) as (_ & Hc & _).
      unfold P. cbn [advance last_action_step current_step trades].
      rewrite Hc.
      destruct (execute_clock e (snd (check_action e a)) p)
        as [[Hl Ht]|(Hl & t & Ht & Hts & _)]; rewrite Hl, Ht.
      + split; [lia|exact H2].
      + split; [lia|]. apply Forall_app. split.
        * eapply Forall_impl; [|exact H2]. simpl. intros; lia.
        * constructor; [lia|constructor]. }
  assert (Hrun : forall acts e, P e -> P (run np_sqrt e acts)).
  { induction acts as [|a acts IH]; intros e He; [exact He|].
    simpl. apply IH, Hstep, He. }
  intros e.
  assert (He : P e) by (apply Hrun; split; [simpl; lia|constructor]).
  destruct He as [H1 H2]. split; [exact H1|]. split; [|exact H2].
  unfold steps_between, Qle. simpl. lia.
Qed.

(** X12.  A blocked request and an explicit hold leave the same object
    behind, and they return or raise alike: when the hold raises, the
    blocked request raises the same exception; when the hold returns, both
    return the same state and the same [done], and the reward of the
    blocked request is the reward of the hold minus 5.01, the penalty and
    the activity bonus it does not get.  Both return exactly when the state
    can be computed at the next cursor. *)
Theorem blocked_is_hold_with_penalty (e : env) (a : Z) :
  end_of_data e = false ->
  (a = 0%Z /\ _can_sell e = false) \/ (a = 2%Z /\ _can_buy e = false) ->
  fst (step np_sqrt e a) = fst (step np_sqrt e 1) /\
  (forall x, snd (step np_sqrt e 1) = Raise x ->
   snd (step np_sqrt e a) = Raise x) /\
  (forall th, snd (step np_sqrt e 1) = Ok th ->
   exists tb,
     snd (step np_sqrt e a) = Ok tb /\
     next_state tb = next_state th /\
     done tb = done th /\
     reward tb == reward th - (501 # 100)) /\
  ((exists th, snd (step np_sqrt e 1) = Ok th) <->
   state_computable e (S (current_step e))).
Proof.
  intros Hend Hreq.
  pose proof (step_returns_iff np_sqrt e 1 Hend) as Hret.
  apply check_action_blocked in Hreq. apply check_action_override in Hreq.
  destruct (step_before_end_raw np_sqrt e a Hend) as (p & Hp & Hstep).
  destruct (step_before_end_raw np_sqrt e 1 Hend) as (p' & Hp' & Hstep').
  rewrite Hp in Hp'. injection Hp' as <-.
  cbv zeta in Hstep, Hstep'.
  rewrite Hreq in Hstep. cbn [fst snd] in Hstep.
  change (check_action e 1) with ((0 : Q), false, 1%Z) in Hstep'.
  cbn [fst snd] in Hstep'.
  rewrite Hstep' in Hret. rewrite Hstep, Hstep'. cbn [fst snd] in *.
  split; [reflexivity|].
  destruct (_get_state (advance (execute e 1 p) 1 p)) as [s|x].
  - split; [discriminate|]. split; [|exact Hret].
    intros th Hth. injection Hth as <-.
    eexists. split; [reflexivity|]. cbn [next_state done reward].
    repeat split. rewrite reward_bonus. ring.
  - split; [trivial|]. split; [discriminate|exact Hret].
Qed.

End LogProperties.

(** ** The performance metrics *)

Lemma win_rate_loop_le (fuel : nat) (ts : list trade) (i w t : nat) :
  (w <= t)%nat ->
  (fst (win_rate_loop fuel ts i w t) <= snd (win_rate_loop fuel ts i w t))%nat.
Proof.
  revert i w t. induction fuel as [|fuel IH]; intros i w t Hwt;
    cbn [win_rate_loop]; [exact Hwt|].
  destruct (i <? length ts - 1)%nat; [|exact Hwt].
  destruct (nth_error ts i) as [c|]; [|exact Hwt].
  destruct (trade_action_eqb (t_action c) buy); [|now apply IH].
  destruct (find_next_sell _ _) as [[j nt]|]; [|exact Hwt].
  apply IH. destruct (Qlt_bool 0 _); lia.
Qed.

(** X13.  Whenever [_calculate_win_rate] returns, the win rate is a
    fraction between 0 and 1. *)
Theorem win_rate_in_unit_interval (e : env) (w : Q) :
  _calculate_win_rate e = Ok w -> 0 <= w <= 1.
Proof.
  unfold _calculate_win_rate.
  destruct (length (trades e) <? 2)%nat.
  { intros H. injection H as <-. split; discriminate. }
  pose proof (win_rate_loop_le (length (trades e)) (trades e) 0 0 0
                (Nat.le_refl 0)) as Hle.
  destruct (win_rate_loop _ _ _ _ _) as [wins total]. simpl in Hle.
  destruct ((total =? 0)%nat && (0 <? length (trades e))%nat).
  - destruct (last_error (trades e)) as [lt|];
      destruct (_get_current_price e) as [p|]; try discriminate.
    + destruct (trade_action_eqb (t_action lt) buy && Qlt_bool 0 (btc_held e)).
      * destruct (Qlt_bool 0 _); intros H; injection H as <-;
          split; discriminate.
      * intros H. injection H as <-. split; discriminate.
    + intros H. injection H as <-. split; discriminate.
  - destruct (0 <? total)%nat eqn:Ht.
    + apply Nat.ltb_lt in Ht. intros H. injection H as <-.
      unfold nat_to_Q.
      assert (Hpos : 0 < inject_Z (Z.of_nat total))
        by (unfold Qlt; simpl; lia).
      split.
      * apply Qle_shift_div_l; [exact Hpos|].
        rewrite Qmult_0_l. unfold Qle. simpl. lia.
      * apply Qle_shift_div_r; [exact Hpos|].
        rewrite Qmult_1_l. rewrite <- Zle_Qle. lia.
    + intros H. injection H as <-. split; discriminate.
Qed.

Section MetricsProperties.

Variable np_sqrt : Q -> Q.

(** X14.  In an episode [get_portfolio_performance] never raises: the one
    lookup that could fail sits in the fallback of the win rate, which no
    trade log of the simulator reaches. *)
Theorem performance_never_raises
    (e0 : env) (start : option Z) (actions : list Z) :
  let e := run np_sqrt (reset_env e0 start) actions in
  exists r, get_portfolio_performance np_sqrt e = Ok r.
Proof.
  intros e. unfold get_portfolio_performance.
  destruct (length (portfolio_values e) <? 2)%nat; [eauto|].
  destruct (win_rate_fallback_unreachable np_sqrt e0 start actions)
    as [[_ Hw]|Hcycle]; fold e in Hw || fold e in Hcycle.
  - rewrite Hw. eauto.
  - unfold _calculate_win_rate.
    destruct (length (trades e) <? 2)%nat; [eauto|].
    destruct (win_rate_loop _ _ _ _ _) as [wins total]. simpl in Hcycle.
    replace (total =? 0)%nat with false
      by (symmetry; apply Nat.eqb_neq; lia).
    simpl. eauto.
Qed.

End MetricsProperties.

(** *** Drawdown *)

Lemma fold_left_Qmin_closed (P : Q -> Prop) (l : list Q) (x : Q) :
  (forall a b, a == b -> P a -> P b) ->
  P x -> Forall P l -> P (fold_left Qmin l x).
Proof.
  intros Hcompat. revert x. induction l as [|y l IH]; intros x Hx Hl; [exact Hx|].
  inversion Hl as [|? ? Hy Hl']; subst. simpl. apply IH; [|exact Hl'].
  destruct (Q.min_spec x y) as [[_ E]|[_ E]];
    (eapply Hcompat; [symmetry; exact E|assumption]).
Qed.

Lemma drawdown_from_bounds (l : list Q) (peak : Q) :
  0 < peak -> Forall (fun v => 0 < v) l ->
  Forall (fun d => -1 < d /\ d <= 0)
         (np_divide
            (map (fun p => fst p - snd p)
                 (combine l (maximum_accumulate_from peak l)))
            (maximum_accumulate_from peak l)).
Proof.
  revert peak. induction l as [|x l IH]; intros peak Hpeak Hl; [constructor|].
  inversion Hl as [|? ? Hx Hl']; subst.
  pose proof (Q.le_max_l peak x) as Hm1. pose proof (Q.le_max_r peak x) as Hm2.
  assert (Hm : 0 < Qmax peak x) by (eapply Qlt_le_trans; eassumption).
  cbn [maximum_accumulate_from combine map np_divide fst snd].
  constructor.
  - split.
    + apply Qlt_shift_div_l; [exact Hm|]. lra.
    + apply Qle_shift_div_r; [exact Hm|]. lra.
  - apply IH; assumption.
Qed.

(** X15.  For a history of positive values the maximum drawdown is a loss
    fraction: at most 0 and above -1. *)
Theorem max_drawdown_bounds (portfolio_values : list Q) :
  Forall (fun v => 0 < v) portfolio_values ->
  -1 < _calculate_max_drawdown portfolio_values /\
  _calculate_max_drawdown portfolio_values <= 0.
Proof.
  intros Hpos. unfold _calculate_max_drawdown.
  destruct (length portfolio_values <? 2)%nat; [split; [reflexivity|discriminate]|].
  destruct portfolio_values as [|x l]; [split; [reflexivity|discriminate]|].
  inversion Hpos as [|? ? Hx Hl]; subst.
  cbn [maximum_accumulate combine map np_divide fst snd np_min].
  apply (fold_left_Qmin_closed (fun d => -1 < d /\ d <= 0)).
  - intros a b E [H1 H2]. rewrite <- E. now split.
  - split.
    + apply Qlt_shift_div_l; [exact Hx|]. lra.
    + apply Qle_shift_div_r; [exact Hx|]. lra.
  - now apply drawdown_from_bounds.
Qed.

Lemma drawdown_from_sorted (l : list Q) (peak : Q) :
  Sorted Qle (peak :: l) ->
  Forall (fun d => d == 0)
         (np_divide
            (map (fun p => fst p - snd p)
                 (combine l (maximum_accumulate_from peak l)))
            (maximum_accumulate_from peak l)).
Proof.
  revert peak. induction l as [|x l IH]; intros peak Hs; [constructor|].
  apply Sorted_inv in Hs. destruct Hs as [Hs Hhd].
  apply HdRel_inv in Hhd.
  assert (Hm : Qmax peak x == x) by (apply Q.max_r; exact Hhd).
  cbn [maximum_accumulate_from combine map np_divide fst snd].
  constructor.
  - rewrite Hm. unfold Qdiv. ring.
  - apply IH. apply Sorted_inv in Hs. destruct Hs as [Hs Hhd'].
    constructor; [exact Hs|].
    destruct l as [|y l]; constructor.
    apply HdRel_inv in Hhd'. rewrite Hm. exact Hhd'.
Qed.

(** X16.  A history of positive values that never falls has no drawdown.
    Every peak is then the value itself, and no peak is zero. *)
Theorem max_drawdown_of_rising_history (portfolio_values : list Q) :
  Forall (fun v => 0 < v) portfolio_values ->
  Sorted Qle portfolio_values ->
  _calculate_max_drawdown portfolio_values == 0.
Proof.
  intros _ Hs. unfold _calculate_max_drawdown.
  destruct (length portfolio_values <? 2)%nat; [reflexivity|].
  destruct portfolio_values as [|x l]; [reflexivity|].
  cbn [maximum_accumulate combine map np_divide fst snd np_min].
  apply (fold_left_Qmin_closed (fun d => d == 0)).
  - intros a b E H. now rewrite <- E.
  - unfold Qdiv. ring.
  - now apply drawdown_from_sorted.
Qed.

(** *** Profit factor *)

Lemma last_cons_default {A : Type} (l : list A) (x y : A) :
  last (y :: l) x = last l y.
Proof.
  revert x y. induction l as [|z l IH]; intros x y; [reflexivity|].
  change (last (y :: z :: l) x) with (last (z :: l) x).
  rewrite IH. symmetry. apply IH.
Qed.

(** The differences of neighbours telescope. *)
Lemma Qsum_np_diff (l : list Q) (x : Q) :
  Qsum (np_diff (x :: l)) == last l x - x.
Proof.
  revert x. induction l as [|y l IH]; intros x.
  - simpl. ring.
  - change (np_diff (x :: y :: l))
      with ((y - x) :: np_diff (y :: l)).
    change (Qsum ((y - x) :: np_diff (y :: l)))
      with ((y - x) + Qsum (np_diff (y :: l))).
    rewrite IH, last_cons_default. ring.
Qed.

Lemma Qsum_filter_signs (l : list Q) :
  Qsum l ==
  Qsum (filter (fun r => Qlt_bool 0 r) l)
  + Qsum (filter (fun r => Qlt_bool r 0) l) /\
  0 <= Qsum (filter (fun r => Qlt_bool 0 r) l) /\
  Qsum (filter (fun r => Qlt_bool r 0) l) <= 0.
Proof.
  induction l as [|x l (IH1 & IH2 & IH3)]; [simpl; repeat split; (reflexivity || discriminate)|].
  cbn [filter].
  destruct (Qlt_bool 0 x) eqn:Hp; destruct (Qlt_bool x 0) eqn:Hn;
    cbn [Qsum fold_right]; fold (Qsum l);
    fold (Qsum (filter (fun r => Qlt_bool 0 r) l));
    fold (Qsum (filter (fun r => Qlt_bool r 0) l));
    try apply Qlt_bool_iff in Hp; try apply Qlt_bool_iff in Hn;
    try apply Qlt_bool_false_iff in Hp; try apply Qlt_bool_false_iff in Hn;
    repeat split; lra.
Qed.

(** X17.  When the profit factor is a number, it is above 1 exactly when
    the history ends above its first value: gross profit minus gross loss
    is the net change. *)
Theorem profit_factor_above_one (e : env) (first f : Q) (rest : list Q) :
  portfolio_values e = first :: rest ->
  rest <> [] ->
  _calculate_profit_factor e = Finite f ->
  (1 < f <-> first < last rest first).
Proof.
  intros Hpv Hrest. unfold _calculate_profit_factor. rewrite Hpv.
  destruct rest as [|y rest]; [contradiction|].
  change (length (first :: y :: rest) <? 2)%nat with false. cbv iota.
  pose proof (Qsum_np_diff (y :: rest) first) as Htel.
  destruct (Qsum_filter_signs (np_diff (first :: y :: rest))) as (Hsplit & Hgp & Hgl).
  set (gp := Qsum (filter (fun r => Qlt_bool 0 r) _)) in *.
  set (gl := Qsum (filter (fun r => Qlt_bool r 0) _)) in *.
  destruct (Qlt_bool 0 (Qabs gl)) eqn:Hpos; [|discriminate].
  apply Qlt_bool_iff in Hpos.
  intros H. injection H as <-.
  rewrite (Qabs_neg gl Hgl) in Hpos |- *.
  rewrite Hsplit in Htel.
  split; intro H.
  - destruct (Qlt_le_dec (- gl) gp) as [Hlt|Hle]; [lra|].
    exfalso. apply (Qlt_not_le _ _ H).
    apply Qle_shift_div_r; [exact Hpos|]. lra.
  - apply Qlt_shift_div_l; [exact Hpos|]. lra.
Qed.

(** X18.  A history that never falls, in particular the flat history of an
    agent that never trades, has no gross loss, and its profit factor is
    the infinity sentinel whatever the gross profit is. *)
Theorem profit_factor_without_loss (e : env) :
  (2 <= length (portfolio_values e))%nat ->
  Sorted Qle (portfolio_values e) ->
  _calculate_profit_factor e = Infinity.
Proof.
  intros Hlen Hs. unfold _calculate_profit_factor.
  replace (length (portfolio_values e) <? 2)%nat with false
    by (symmetry; apply Nat.ltb_ge; exact Hlen).
  assert (Hneg : filter (fun r => Qlt_bool r 0) (np_diff (portfolio_values e)) = []).
  { clear Hlen. induction (portfolio_values e) as [|x l IH]; [reflexivity|].
    destruct l as [|y l]; [reflexivity|].
    apply Sorted_inv in Hs. destruct Hs as [Hs Hhd]. apply HdRel_inv in Hhd.
    change (np_diff (x :: y :: l)) with ((y - x) :: np_diff (y :: l)).
    cbn [filter].
    replace (Qlt_bool (y - x) 0) with false
      by (symmetry; apply Qlt_bool_false_iff; lra).
    now apply IH. }
  rewrite Hneg. reflexivity.
Qed.

(** *** The agent against the benchmark *)

Lemma iloc_of_nat {A : Type} (l : list A) (i : nat) :
  iloc l (Z.of_nat i) =
  match nth_error l i with
  | Some x => Ok x
  | None => Raise IndexError
  end.
Proof.
  assert (H : (Z.of_nat i <? 0)%Z = false) by (apply Z.ltb_ge; lia).
  unfold iloc. cbv zeta. rewrite H. cbv iota. rewrite H.
  now rewrite Nat2Z.id.
Qed.

Lemma fold_left_Qmin_start (l : list Q) (x : Q) : fold_left Qmin l x <= x.
Proof.
  revert x. induction l as [|y l IH]; intros x; [apply Qle_refl|].
  simpl. apply Qle_trans with (Qmin x y); [apply IH|apply Q.le_min_l].
Qed.

Lemma fold_left_Qmin_le (l : list Q) (x v : Q) :
  v == x \/ In v l -> fold_left Qmin l x <= v.
Proof.
  intros [H|H].
  - rewrite H. apply fold_left_Qmin_start.
  - revert x. induction l as [|y l IH]; intros x; [destruct H|].
    simpl. destruct H as [<-|H]; [|now apply IH].
    apply Qle_trans with (Qmin x y);
      [apply fold_left_Qmin_start|apply Q.le_min_r].
Qed.

Lemma fold_left_Qmax_start (l : list Q) (x : Q) : x <= fold_left Qmax l x.
Proof.
  revert x. induction l as [|y l IH]; intros x; [apply Qle_refl|].
  simpl. apply Qle_trans with (Qmax x y); [apply Q.le_max_l|apply IH].
Qed.

Lemma fold_left_Qmax_ge (l : list Q) (x v : Q) :
  v == x \/ In v l -> v <= fold_left Qmax l x.
Proof.
  intros [H|H].
  - rewrite H. apply fold_left_Qmax_start.
  - revert x. induction l as [|y l IH]; intros x; [destruct H|].
    simpl. destruct H as [<-|H]; [|now apply IH].
    apply Qle_trans with (Qmax x y);
      [apply Q.le_max_r|apply fold_left_Qmax_start].
Qed.

Lemma last_error_In {A : Type} (l : list A) (x : A) :
  last_error l = Some x -> In x l.
Proof.
  unfold last_error. destruct l as [|y l]; [discriminate|].
  apply nth_error_In.
Qed.

Section BenchmarkProperties.

Variable np_sqrt : Q -> Q.

(** X19.  When [get_portfolio_performance] reports on an episode, the final
    value lies between the minimum and the maximum value it reports, and
    the percentage is a hundred times the total return. *)
Theorem performance_final_between_extremes
    (e0 : env) (start : option Z) (actions : list Z) (m : metrics) :
  let e := run np_sqrt (reset_env e0 start) actions in
  get_portfolio_performance np_sqrt e = Ok (Some m) ->
  min_value m <= final_value m /\ final_value m <= max_value m /\
  total_return_pct m == 100 * total_return m /\
  (num_trades m <= length (portfolio_values e))%nat.
Proof.
  intros e. unfold get_portfolio_performance.
  destruct (length (portfolio_values e) <? 2)%nat eqn:Hlen; [discriminate|].
  destruct (_calculate_win_rate e) as [w|]; [|discriminate].
  intros H. injection H as <-. cbn [min_value final_value max_value
                                    total_return_pct total_return num_trades].
  destruct (run_history np_sqrt e0 start actions) as (Hl & _ & Hlast).
  fold e in Hl, Hlast.
  destruct (portfolio_values e) as [|x l] eqn:Hpv; [discriminate|].
  apply last_error_In in Hlast.
  assert (Hin : total_value e == x \/ In (total_value e) l).
  { destruct Hlast as [<-|H]; [left; reflexivity|now right]. }
  split; [now apply fold_left_Qmin_le|].
  split; [now apply fold_left_Qmax_ge|].
  split; [ring|].
  destruct (run_inv np_sqrt (reset_env e0 start) actions
              (reset_env_inv e0 start)) as (_ & _ & Hlog).
  fold e in Hlog. unfold executed_actions in Hlog.
  rewrite Hl.
  rewrite <- (length_map t_action), <- (length_map action_code), <- Hlog.
  apply filter_length_le.
Qed.

Lemma step_hold (e : env) (p : Q) :
  end_of_data e = false ->
  _get_current_price e = Ok p ->
  fst (step np_sqrt e 1) = advance e 1 p.
Proof.
  intros Hend Hp.
  destruct (step_before_end_pair np_sqrt e 1 Hend) as (p' & s & Hp' & Hs).
  rewrite Hp in Hp'. injection Hp' as <-.
  now rewrite Hs.
Qed.

Lemma step_cursor (e : env) (a : Z) :
  end_of_data e = false ->
  current_step (fst (step np_sqrt e a)) = S (current_step e).
Proof.
  intros Hend.
  destruct (step_before_end_pair np_sqrt e a Hend) as (p & s & _ & Hs).
  rewrite Hs. cbn [fst advance current_step].
  now destruct (execute_data e (snd (check_action e a)) p) as (_ & -> & _).
Qed.

(** After a buy, [k] holds leave the position alone and value it at the
    price of the row where the last step was executed. *)
Lemma run_holds (e1 : env) (k : nat) :
  balance e1 = 0 ->
  (current_step e1 + k < length (data e1))%nat ->
  let ek := run np_sqrt e1 (repeat 1%Z k) in
  balance ek = 0 /\ btc_held ek = btc_held e1 /\ data ek = data e1 /\
  current_step ek = (current_step e1 + k)%nat /\
  (k = 0%nat \/
   exists r, nth_error (data e1) (current_step e1 + k - 1) = Some r /\
             total_value ek == btc_held e1 * CLOSE r).
Proof.
  intros Hbal. induction k as [|k IH]; intros Hlen.
  - simpl. repeat split; trivial; try lia; try (now left).
  - destruct IH as (Hb & Hh & Hd & Hc & _); [lia|].
    cbn zeta.
    assert (Hrun : run np_sqrt e1 (repeat 1%Z (S k)) =
                   fst (step np_sqrt (run np_sqrt e1 (repeat 1%Z k)) 1)).
    { change (repeat 1%Z (S k)) with (1%Z :: repeat 1%Z k).
      rewrite repeat_cons. unfold run. now rewrite fold_left_app. }
    rewrite Hrun. clear Hrun.
    set (ek := run np_sqrt e1 (repeat 1%Z k)) in *.
    assert (Hend : end_of_data ek = false)
      by (apply end_of_data_false; rewrite Hd, Hc; lia).
    destruct (price_in_range ek) as [p Hp]; [rewrite Hd, Hc; lia|].
    rewrite (step_hold ek p Hend Hp).
    cbn [advance balance btc_held data current_step total_value].
    repeat split; trivial; try lia.
    right. unfold _get_current_price in Hp. rewrite Hd, Hc in Hp.
    destruct (nth_error (data e1) (current_step e1 + k)) as [r|] eqn:E;
      [|discriminate].
    injection Hp as <-. exists r. split.
    + rewrite <- E. f_equal. lia.
    + rewrite Hb, Hh. ring.
Qed.

(** X20.  An agent that buys at the first step of an episode and then
    holds is worth the buy-and-hold benchmark of the rows it traded on,
    less the one fee: its total value is one minus the fee rate times the
    benchmark's final value from the start row to the row of its last
    step. *)
Theorem buy_and_hold_tracks_benchmark
    (e0 : env) (start : option Z) (n : nat) (p0 : Q) :
  let e := reset_env e0 start in
  let c := current_step e in
  0 < initial_balance e0 ->
  (c + n + 1 < length (data e0))%nat ->
  _get_current_price e = Ok p0 ->
  ~ p0 == 0 ->
  let e' := run np_sqrt e (2%Z :: repeat 1%Z n) in
  exists m,
    get_buy_and_hold_performance np_sqrt e'
      (Some (Z.of_nat c)) (Some (Z.of_nat (c + n))) = Ok m /\
    total_value e' == (1 - transaction_cost e0) * bh_final_value m /\
    current_step e' = (c + n + 1)%nat.
Proof.
  intros e c Hinit Hlen Hp0 Hnz e'.
  assert (Hend : end_of_data e = false)
    by (apply end_of_data_false; change (S c < length (data e0))%nat; lia).
  assert (Hcan : _can_buy e = true).
  { unfold _can_buy. simpl. apply andb_true_iff. split; [|reflexivity].
    now apply Qlt_bool_iff. }
  destruct (step_buy_account np_sqrt e p0 Hend Hcan Hp0 Hnz)
    as (Hb1 & Hh1 & Ht1 & _).
  set (e1 := fst (step np_sqrt e 2)) in *.
  assert (Hc1 : current_step e1 = S c) by (apply step_cursor; exact Hend).
  destruct (step_static np_sqrt e 2) as (Hd1 & _ & _ & Hi1 & _).
  fold e1 in Hd1, Hi1. simpl in Hd1, Hi1.
  destruct (run_holds e1 n Hb1) as (Hb & Hh & Hd & Hc & Hval);
    [rewrite Hd1, Hc1; lia|].
  change e' with (run np_sqrt e1 (repeat 1%Z n)).
  set (en := run np_sqrt e1 (repeat 1%Z n)) in *.
  destruct (run_static np_sqrt e1 (repeat 1%Z n)) as (_ & _ & _ & Hi & _).
  fold en in Hi. simpl in Hi.
  change (match nth_error (data e0) c with
          | Some r => Ok (CLOSE r)
          | None => Raise IndexError
          end = Ok p0) in Hp0.
  destruct (nth_error (data e0) c) as [r0|] eqn:E0; [|discriminate].
  injection Hp0 as Hp0. subst p0.
  destruct (nth_error (data e0) (c + n)) as [rn|] eqn:En;
    [|apply nth_error_None in En; lia].
  unfold get_buy_and_hold_performance.
  rewrite !iloc_of_nat, Hd, Hd1, E0, En.
  eexists. split; [reflexivity|]. split; [|rewrite Hc, Hc1; lia].
  cbn [bh_final_value]. rewrite Hi, Hi1.
  assert (Hbtc : btc_held e1 ==
                 initial_balance e0 * (1 - transaction_cost e0) / CLOSE r0).
  { change (balance e) with (initial_balance e0) in Hh1.
    change (transaction_cost e) with (transaction_cost e0) in Hh1.
    rewrite <- Hh1. field. exact Hnz. }
  assert (Htot : total_value en == btc_held e1 * CLOSE rn).
  { destruct Hval as [->|(r & Hr & Hv)].
    - simpl in En. rewrite Nat.add_0_r in En. rewrite E0 in En.
      injection En as <-. unfold en. simpl.
      change (balance e) with (initial_balance e0) in Ht1, Hh1.
      change (transaction_cost e) with (transaction_cost e0) in Ht1, Hh1.
      rewrite Ht1, <- Hh1. reflexivity.
    - rewrite Hd1, Hc1 in Hr.
      replace (S c + n - 1)%nat with (c + n)%nat in Hr by lia.
      rewrite En in Hr. injection Hr as <-. exact Hv. }
  rewrite Htot, Hbtc. field. exact Hnz.
Qed.

End BenchmarkProperties.

(** * Further properties of the agent *)

(** ** The action mask and the simulator *)

Lemma lastn_app_exact {A : Type} (a b : list A) :
  lastn (length b) (a ++ b) = b.
Proof.
  unfold lastn. rewrite length_app.
  replace (length a + length b - length b)%nat with (length a) by lia.
  rewrite skipn_app, skipn_all, Nat.sub_diag. reflexivity.
Qed.

Lemma Qlt_bool_half (b : bool) : Qlt_bool (1 # 2) (Q_of_bool b) = b.
Proof. now destruct b. Qed.

(** The flags that the agent reads off a state of the simulator are the
    simulator's own validity predicates. *)
Lemma constraint_flags_of_state (e : env) (s : list Q) :
  _get_state e = Ok s ->
  DQNModel.constraint_flags s =
  Ok (_can_sell e, true, _can_buy e,
      opt_neqb (last_trading_action e) 0, opt_neqb (last_trading_action e) 2).
Proof.
  unfold _get_state.
  destruct (py_slice _ _ _); [discriminate|].
  destruct (Qeq_bool (initial_balance e) 0); [discriminate|].
  destruct (_get_current_price e) as [p|]; [|discriminate].
  destruct (Qeq_bool (max_position_hold e) 0); [discriminate|].
  intros H. injection H as <-.
  unfold DQNModel.constraint_flags.
  assert (E : forall (t : list Q) a b c d f0 f1 f2 f3 f4,
             lastn 5 (t ++ [a; b; c; d; f0; f1; f2; f3; f4]) =
             [f0; f1; f2; f3; f4]).
  { intros.
    change (t ++ [a; b; c; d; f0; f1; f2; f3; f4])
      with (t ++ [a; b; c; d] ++ [f0; f1; f2; f3; f4]).
    rewrite app_assoc.
    apply (lastn_app_exact (t ++ [a; b; c; d]) [f0; f1; f2; f3; f4]). }
  cbn [app]. rewrite E.
  cbn [nth_error]. rewrite !Qlt_bool_half. reflexivity.
Qed.

Lemma can_sell_flags (e : env) :
  _can_sell e && opt_neqb (last_trading_action e) 0 = _can_sell e.
Proof.
  unfold _can_sell. destruct (Qlt_bool 0 (btc_held e));
    now destruct (opt_neqb (last_trading_action e) 0).
Qed.

Lemma can_buy_flags (e : env) :
  _can_buy e && opt_neqb (last_trading_action e) 2 = _can_buy e.
Proof.
  unfold _can_buy. destruct (Qlt_bool 0 (balance e));
    now destruct (opt_neqb (last_trading_action e) 2).
Qed.

Lemma valid_actions_of_state (e : env) (s : list Q) :
  _get_state e = Ok s ->
  DQNModel._get_valid_actions s =
  Ok ((if _can_sell e then [0%nat] else []) ++ [1%nat]
      ++ (if _can_buy e then [2%nat] else [])).
Proof.
  intros Hs. unfold DQNModel._get_valid_actions.
  rewrite (constraint_flags_of_state e s Hs).
  now rewrite can_sell_flags, can_buy_flags.
Qed.

(** X21.  On a state returned by the simulator, the actions that the agent
    takes for valid are the hold and exactly the trades that the simulator
    would execute: sell when [_can_sell] holds, buy when [_can_buy] holds. *)
Theorem valid_actions_match_simulator (e : env) (s : list Q) :
  _get_state e = Ok s ->
  exists valid,
    DQNModel._get_valid_actions s = Ok valid /\
    In 1%nat valid /\
    (In 0%nat valid <-> _can_sell e = true) /\
    (In 2%nat valid <-> _can_buy e = true) /\
    forall a, In a valid -> (a <= 2)%nat.
Proof.
  intros Hs. rewrite (valid_actions_of_state e s Hs).
  eexists. split; [reflexivity|].
  destruct (_can_sell e), (_can_buy e); simpl;
    repeat split; intros; try discriminate; intuition (try lia; try discriminate).
Qed.

(** A request that is the hold, or a trade whose predicate holds, is not
    blocked. *)
Lemma step_of_valid_action (np_sqrt : Q -> Q) (e : env) (a : nat) :
  (exists s, _get_state e = Ok s) ->
  end_of_data e = false ->
  (a = 0%nat -> _can_sell e = true) ->
  (a = 2%nat -> _can_buy e = true) ->
  exists t,
    snd (step np_sqrt e (Z.of_nat a)) = Ok t /\
    info_blocked (step_info t) = false.
Proof.
  intros Hst Hend H0 H2.
  apply state_returned_iff in Hst. destruct Hst as [Hcomp Hlt].
  pose proof Hend as Hn. apply end_of_data_false in Hn.
  destruct (step_before_end np_sqrt e (Z.of_nat a) Hend)
    as (p & s & _ & _ & Hs).
  { apply state_computable_succ; [lia|exact Hcomp]. }
  rewrite Hs. eexists. split; [reflexivity|]. cbn [snd step_info info_blocked].
  destruct (snd (fst (check_action e (Z.of_nat a)))) eqn:Hb; [|reflexivity].
  apply check_action_blocked in Hb.
  destruct Hb as [[Ha Hc]|[Ha Hc]].
  - rewrite H0 in Hc by lia. discriminate.
  - rewrite H2 in Hc by lia. discriminate.
Qed.

Section PolicyProperties.

Variable np_sqrt : Q -> Q.
Variables params opt_state dropout : Type.
Variable features : params -> dropout -> list Q -> list Q.
Variable value_stream : params -> list Q -> Q.
Variable advantage_stream : params -> list Q -> list Q.

(** X22.  An exploring agent is never blocked: on a state of the simulator
    the random choice of [select_action] is an action that [step] executes
    as requested. *)
Theorem exploring_agent_is_never_blocked
    (ag : DQNModel.agent params opt_state) (e : env) (s : list Q)
    (u : Q) (pick : nat) (w : dropout) :
  _get_state e = Ok s ->
  end_of_data e = false ->
  u < DQNModel.epsilon ag ->
  exists a t,
    DQNModel.select_action features value_stream advantage_stream
                           ag s true u pick w = Ok a /\
    snd (step np_sqrt e (Z.of_nat a)) = Ok t /\
    info_blocked (step_info t) = false.
Proof.
  intros Hs Hend Hu. apply Qlt_bool_iff in Hu.
  unfold DQNModel.select_action. rewrite Hu. cbn [andb].
  rewrite (valid_actions_of_state e s Hs).
  set (valid := (if _can_sell e then [0%nat] else []) ++ [1%nat]
                ++ (if _can_buy e then [2%nat] else [])).
  assert (Hlen : (0 < length valid)%nat).
  { unfold valid. rewrite !length_app. simpl. lia. }
  replace (0 <? length valid)%nat with true
    by (symmetry; apply Nat.ltb_lt; exact Hlen).
  set (a := nth (pick mod length valid) valid 1%nat).
  assert (Hin : In a valid).
  { apply nth_In. apply Nat.mod_upper_bound. lia. }
  destruct (step_of_valid_action np_sqrt e a (ex_intro _ s Hs) Hend) as (t & Ht & Hb).
  - intros Ha. rewrite Ha in Hin. unfold valid in Hin.
    destruct (_can_sell e); [reflexivity|].
    destruct (_can_buy e); simpl in Hin; intuition discriminate.
  - intros Ha. rewrite Ha in Hin. unfold valid in Hin.
    destruct (_can_buy e); [reflexivity|].
    destruct (_can_sell e); simpl in Hin; intuition discriminate.
  - exists a, t. auto.
Qed.

(** X23.  A greedy agent whose network has three outputs is never blocked
    as long as the Q-value of the hold is above the sentinel -1000: the
    arg-max over the masked Q-values is then an action that [step] executes
    as requested. *)
Theorem greedy_agent_is_never_blocked
    (ag : DQNModel.agent params opt_state) (e : env) (s : list Q)
    (u : Q) (pick : nat) (w : dropout) (q0 q1 q2 : Q) :
  _get_state e = Ok s ->
  end_of_data e = false ->
  DQNModel.forward features value_stream advantage_stream
                   (DQNModel.q_network ag) w s = [q0; q1; q2] ->
  - (1000 # 1) < q1 ->
  exists a t,
    DQNModel.select_action features value_stream advantage_stream
                           ag s false u pick w = Ok a /\
    snd (step np_sqrt e (Z.of_nat a)) = Ok t /\
    info_blocked (step_info t) = false.
Proof.
  intros Hs Hend Hq Hq1.
  unfold DQNModel.select_action. cbn [andb]. rewrite Hq.
  unfold DQNModel._apply_action_mask.
  rewrite (constraint_flags_of_state e s Hs).
  rewrite can_sell_flags, can_buy_flags.
  assert (Hvalid : forall a,
             match (if negb (_can_sell e)
                    then DQNModel.set_item [q0; q1; q2] 0 (- (1000 # 1))
                    else Ok [q0; q1; q2]) with
             | Raise x => Raise x
             | Ok m =>
                 if negb (_can_buy e)
                 then DQNModel.set_item m 2 (- (1000 # 1))
                 else Ok m
             end = Ok a ->
             (DQNModel.argmax a = 0%nat -> _can_sell e = true) /\
             (DQNModel.argmax a = 2%nat -> _can_buy e = true)).
  { intros a.
    destruct (_can_sell e), (_can_buy e); cbn; intros H; injection H as <-;
      unfold DQNModel.argmax, DQNModel.argmax_from;
      repeat match goal with
             | |- context [Qlt_bool ?x ?y] =>
                 let E := fresh "E" in
                 destruct (Qlt_bool x y) eqn:E;
                 [apply Qlt_bool_iff in E|apply Qlt_bool_false_iff in E]
             end;
      split; intros Ha; try reflexivity; try discriminate; exfalso; lra. }
  destruct (if negb (_can_sell e)
            then DQNModel.set_item [q0; q1; q2] 0 (- (1000 # 1))
            else Ok [q0; q1; q2]) as [m|] eqn:Hm;
    [|destruct (_can_sell e); discriminate].
  destruct (if negb (_can_buy e)
            then DQNModel.set_item m 2 (- (1000 # 1))
            else Ok m) as [m'|] eqn:Hm'.
  - destruct (Hvalid m' eq_refl) as [H0 H2].
    destruct (step_of_valid_action np_sqrt e (DQNModel.argmax m')
                (ex_intro _ s Hs) Hend H0 H2)
      as (t & Ht & Hb).
    eexists _, t. auto.
  - exfalso. destruct (_can_sell e), (_can_buy e); cbn in Hm;
      injection Hm as <-; discriminate.
Qed.

End PolicyProperties.

(** ** The replay memory and the target network *)

Lemma lastn_lastn_app {A : Type} (c : nat) (a b : list A) :
  lastn c (lastn c a ++ b) = lastn c (a ++ b).
Proof.
  unfold lastn. rewrite !length_app, length_skipn.
  destruct (Nat.le_gt_cases (length a) c) as [Hle|Hgt].
  - replace (length a - c)%nat with 0%nat by lia. simpl. f_equal. lia.
  - rewrite (skipn_app (length a + length b - c)).
    rewrite (skipn_app (length a - (length a - c) + length b - c)).
    rewrite length_skipn, skipn_skipn.
    f_equal; [f_equal; lia|f_equal; lia].
Qed.

Section AgentProperties.

Variables params opt_state dropout : Type.
Variable features : params -> dropout -> list Q -> list Q.
Variable value_stream : params -> list Q -> Q.
Variable advantage_stream : params -> list Q -> list Q.
Variable optimizer_step :
  opt_state -> params -> dropout -> list DQNModel.Experience -> list Q ->
  opt_state * params.

Lemma store_all_memory (capacity : nat) (xs : list DQNModel.Experience)
    (ag : DQNModel.agent params opt_state) :
  xs <> [] ->
  DQNModel.memory (fold_left (DQNModel.store_experience capacity) xs ag) =
  lastn capacity (DQNModel.memory ag ++ xs).
Proof.
  revert ag. induction xs as [|x xs IH]; intros ag Hne; [contradiction|].
  simpl fold_left. destruct xs as [|y xs].
  - reflexivity.
  - rewrite IH by discriminate.
    change (DQNModel.memory (DQNModel.store_experience capacity ag x))
      with (lastn capacity (DQNModel.memory ag ++ [x])).
    rewrite lastn_lastn_app, <- app_assoc. reflexivity.
Qed.

(** X24.  The replay memory of a fresh agent holds, in order, the last
    [capacity] transitions that were stored: it never exceeds its capacity
    and the oldest transitions are the ones that leave. *)
Theorem replay_memory_keeps_latest
    (cfg : DQNModel.model_config) (theta : params) (o : opt_state)
    (capacity : nat) (xs : list DQNModel.Experience) :
  let ag :=
    fold_left (DQNModel.store_experience capacity) xs
              (DQNModel.init cfg theta o) in
  DQNModel.memory ag = lastn capacity xs /\
  length (DQNModel.memory ag) = Nat.min (length xs) capacity.
Proof.
  assert (H : DQNModel.memory
                (fold_left (DQNModel.store_experience capacity) xs
                           (DQNModel.init cfg theta o))
              = lastn capacity xs).
  { destruct xs as [|x xs].
    - reflexivity.
    - rewrite store_all_memory by discriminate. reflexivity. }
  simpl. split; [exact H|].
  rewrite H. unfold lastn. rewrite length_skipn. lia.
Qed.

Lemma learn_update (ag : DQNModel.agent params opt_state)
    (d : DQNModel.draw dropout) :
  (0 < DQNModel.batch_size ag <= length (DQNModel.memory ag))%nat ->
  let ag' :=
    fst (DQNModel.learn features value_stream advantage_stream
                        optimizer_step ag d) in
  DQNModel.steps_done ag' = S (DQNModel.steps_done ag) /\
  DQNModel.target_update_freq ag' = DQNModel.target_update_freq ag /\
  DQNModel.target_network ag' =
    (if (S (DQNModel.steps_done ag) mod DQNModel.target_update_freq ag =? 0)%nat
     then DQNModel.q_network ag'
     else DQNModel.target_network ag).
Proof.
  intros [Hpos Hmem]. unfold DQNModel.learn.
  replace (length (DQNModel.memory ag) <? DQNModel.batch_size ag)%nat
    with false by (symmetry; apply Nat.ltb_ge; exact Hmem).
  replace (DQNModel.batch_size ag =? 0)%nat
    with false by (symmetry; apply Nat.eqb_neq; lia).
  destruct (optimizer_step _ _ _ _ _) as [o' q'].
  destruct (DQNModel.target_update_freq ag =? 0)%nat eqn:Hfreq.
  - apply Nat.eqb_eq in Hfreq. rewrite Hfreq. cbn. repeat split.
  - cbn. repeat split.
Qed.

Lemma learn_all_counts (ag : DQNModel.agent params opt_state)
    (ds : list (DQNModel.draw dropout)) :
  (0 < DQNModel.batch_size ag <= length (DQNModel.memory ag))%nat ->
  let ag' :=
    DQNModel.learn_all features value_stream advantage_stream
                       optimizer_step ag ds in
  DQNModel.steps_done ag' = (DQNModel.steps_done ag + length ds)%nat /\
  DQNModel.memory ag' = DQNModel.memory ag /\
  DQNModel.batch_size ag' = DQNModel.batch_size ag /\
  DQNModel.target_update_freq ag' = DQNModel.target_update_freq ag.
Proof.
  revert ag. induction ds as [|d ds IH]; intros ag Hmem.
  - simpl. repeat split. lia.
  - cbn zeta. unfold DQNModel.learn_all. cbn [fold_left].
    fold (DQNModel.learn_all features value_stream advantage_stream
            optimizer_step
            (fst (DQNModel.learn features value_stream advantage_stream
                    optimizer_step ag d)) ds).
    destruct (learn_update ag d Hmem) as (Hs & Hf & _).
    destruct (learn_memory params opt_state dropout features value_stream
                advantage_stream optimizer_step ag d) as (Hm & Hb & _).
    cbn zeta in Hs, Hf, Hm, Hb.
    destruct (IH _ ltac:(rewrite Hm, Hb; exact Hmem)) as (H1 & H2 & H3 & H4).
    cbn zeta in H1, H2, H3, H4.
    rewrite H1, H2, H3, H4, Hs, Hm, Hb, Hf. simpl length.
    repeat split. lia.
Qed.

(** X25.  With a full batch of at least one transition in memory every
    call of [learn] counts as one learning step, and right after a call
    that brings the counter to a multiple of [target_update_freq] the target
    network is the online network. *)
Theorem target_network_sync
    (ag : DQNModel.agent params opt_state)
    (ds : list (DQNModel.draw dropout)) (d : DQNModel.draw dropout) :
  (0 < DQNModel.batch_size ag <= length (DQNModel.memory ag))%nat ->
  (0 < DQNModel.target_update_freq ag)%nat ->
  let ag' :=
    DQNModel.learn_all features value_stream advantage_stream
                       optimizer_step ag (ds ++ [d]) in
  DQNModel.steps_done ag' = (DQNModel.steps_done ag + length ds + 1)%nat /\
  (DQNModel.steps_done ag' mod DQNModel.target_update_freq ag = 0%nat ->
   DQNModel.target_network ag' = DQNModel.q_network ag').
Proof.
  intros Hmem Hfreq ag'. subst ag'.
  unfold DQNModel.learn_all. rewrite fold_left_app. cbn [fold_left].
  fold (DQNModel.learn_all features value_stream advantage_stream
          optimizer_step ag ds).
  destruct (learn_all_counts ag ds Hmem) as (H1 & H2 & H3 & H4).
  cbn zeta in H1, H2, H3, H4.
  set (a1 := DQNModel.learn_all features value_stream advantage_stream
               optimizer_step ag ds) in *.
  destruct (learn_update a1 d) as (Hs & _ & Ht); [rewrite H2, H3; exact Hmem|].
  cbn zeta in Hs, Ht. rewrite Hs, H1. split; [lia|].
  intros Hmod. rewrite Ht, H4, H1.
  replace (S (DQNModel.steps_done ag + length ds)
           mod DQNModel.target_update_freq ag =? 0)%nat with true
    by (symmetry; apply Nat.eqb_eq; exact Hmod).
  reflexivity.
Qed.

(** X26.  Once the exploration rate is at or below the floor, no sequence
    of [learn] calls changes it any more. *)
Theorem epsilon_frozen_at_floor
    (ag : DQNModel.agent params opt_state)
    (ds : list (DQNModel.draw dropout)) :
  DQNModel.epsilon ag <= DQNModel.epsilon_end ag ->
  DQNModel.epsilon
    (DQNModel.learn_all features value_stream advantage_stream
                        optimizer_step ag ds)
  = DQNModel.epsilon ag.
Proof.
  revert ag. induction ds as [|d ds IH]; intros ag Hle; [reflexivity|].
  unfold DQNModel.learn_all. cbn [fold_left].
  fold (DQNModel.learn_all features value_stream advantage_stream
          optimizer_step
          (fst (DQNModel.learn features value_stream advantage_stream
                  optimizer_step ag d)) ds).
  pose proof (learn_epsilon params opt_state dropout features value_stream
                advantage_stream optimizer_step ag d) as He.
  destruct (learn_hyperparameters params opt_state dropout features
              value_stream advantage_stream optimizer_step ag d) as (Hend & _).
  cbn zeta in He, Hend.
  assert (Hsame :
            DQNModel.epsilon
              (fst (DQNModel.learn features value_stream advantage_stream
                      optimizer_step ag d)) = DQNModel.epsilon ag).
  { rewrite He. destruct (_ <? _)%nat; [reflexivity|].
    destruct (_ =? _)%nat; [reflexivity|].
    destruct (_ =? _)%nat; [reflexivity|].
    replace (Qlt_bool (DQNModel.epsilon_end ag) (DQNModel.epsilon ag))
      with false by (symmetry; apply Qlt_bool_false_iff; exact Hle).
    reflexivity. }
  rewrite IH; [exact Hsame|]. now rewrite Hsame, Hend.
Qed.

End AgentProperties.

(** ** The shape of the temporal segment *)

Lemma firstn_min_length {A : Type} (k : nat) (l : list A) :
  firstn (Nat.min k (length l)) l = firstn k l.
Proof.
  destruct (Nat.le_gt_cases k (length l)) as [H|H].
  - now rewrite Nat.min_l.
  - rewrite Nat.min_r by lia. rewrite firstn_all, firstn_all2 by lia.
    reflexivity.
Qed.

Lemma py_slice_prefix {A : Type} (l : list A) (k : Z) :
  (0 <= k)%Z -> py_slice l 0 k = firstn (Z.to_nat k) l.
Proof.
  intros Hk. unfold py_slice, slice_bound.
  replace (k <? 0)%Z with false by (symmetry; apply Z.ltb_ge; lia).
  cbn [Z.ltb Z.compare Z.to_nat Nat.min skipn].
  rewrite Nat.sub_0_r. apply firstn_min_length.
Qed.

Lemma chunks_shape (rows cols : nat) (l : list Q) :
  length l = (rows * cols)%nat ->
  length (DQNModel.chunks rows cols l) = rows /\
  Forall (fun r => length r = cols) (DQNModel.chunks rows cols l) /\
  concat (DQNModel.chunks rows cols l) = l.
Proof.
  revert l. induction rows as [|rows IH]; intros l Hl.
  - simpl in *. destruct l; [repeat split; constructor|discriminate].
  - cbn [DQNModel.chunks].
    destruct (IH (skipn cols l)) as (H1 & H2 & H3).
    { rewrite length_skipn, Hl. simpl. lia. }
    cbn [length concat]. rewrite H1, H3. repeat split.
    + constructor; [|exact H2]. rewrite length_firstn, Hl. simpl. lia.
    + apply firstn_skipn.
Qed.

(** X28.  For any input of more than nine entries and a positive lookback
    the reshaping of the temporal segment succeeds: the matrix holds, in
    order, a prefix of the input, and fewer than [lookback_window] entries
    of the segment are left out.  The branch that pads with zeros is never
    taken. *)
Theorem temporal_features_shape (lookback_window self_feature_count : Z)
    (x : list Q) :
  (0 < lookback_window)%Z ->
  (9 < length x)%nat ->
  exists m rows cols,
    DQNModel.temporal_features lookback_window self_feature_count x = Some m /\
    length m = rows /\
    Forall (fun r => length r = cols) m /\
    concat m = firstn (rows * cols) x /\
    (rows * cols <= length x - 9)%nat /\
    (Z.of_nat (length x - 9 - rows * cols) < lookback_window)%Z.
Proof.
  intros HW Hx. unfold DQNModel.temporal_features. cbv zeta.
  set (L := (Z.of_nat (length x) - 4 - 5)%Z).
  assert (HL : (0 < L)%Z) by (unfold L; lia).
  assert (HLn : Z.to_nat L = (length x - 9)%nat) by (unfold L; lia).
  rewrite (py_slice_prefix x L) by lia.
  replace (0 <? L)%Z with true by (symmetry; apply Z.ltb_lt; exact HL).
  assert (Hlen : length (firstn (Z.to_nat L) x) = Z.to_nat L)
    by (rewrite length_firstn; lia).
  destruct (L / lookback_window <=? 0)%Z eqn:Hq.
  - rewrite Z.mul_1_r, Z.eqb_refl. cbn [negb].
    unfold DQNModel.view. rewrite Hlen.
    replace (Z.to_nat L =? Z.to_nat L * Z.to_nat 1)%nat with true
      by (symmetry; apply Nat.eqb_eq; simpl; lia).
    destruct (chunks_shape (Z.to_nat L) (Z.to_nat 1) (firstn (Z.to_nat L) x))
      as (H1 & H2 & H3); [rewrite Hlen; simpl; lia|].
    exists (DQNModel.chunks (Z.to_nat L) (Z.to_nat 1) (firstn (Z.to_nat L) x)),
           (Z.to_nat L), (Z.to_nat 1).
    repeat split; trivial.
    + rewrite H3. f_equal. simpl. lia.
    + simpl. lia.
    + simpl. lia.
  - apply Z.leb_gt in Hq.
    set (q := (L / lookback_window)%Z) in *.
    assert (Hle : (lookback_window * q <= L)%Z)
      by (apply Z.mul_div_le; exact HW).
    assert (Hgt : (L < lookback_window * q + lookback_window)%Z).
    { pose proof (Z.mod_pos_bound L lookback_window HW) as Hm.
      pose proof (Z.div_mod L lookback_window ltac:(lia)) as Hd.
      fold q in Hd. lia. }
    assert (Hnat : (Z.to_nat lookback_window * Z.to_nat q)%nat
                   = Z.to_nat (lookback_window * q))
      by (rewrite Z2Nat.inj_mul; lia).
    set (rows := Z.to_nat lookback_window) in *.
    set (cols := Z.to_nat q) in *.
    assert (Hdata :
              (if negb (L =? lookback_window * q)%Z
               then if (lookback_window * q <? L)%Z
                    then py_slice (firstn (Z.to_nat L) x) 0 (lookback_window * q)
                    else firstn (Z.to_nat L) x
                         ++ repeat 0 (Z.to_nat (lookback_window * q - L))
               else firstn (Z.to_nat L) x)
              = firstn (rows * cols) x).
    { destruct (L =? lookback_window * q)%Z eqn:E; cbn [negb].
      - apply Z.eqb_eq in E. rewrite Hnat, <- E. reflexivity.
      - apply Z.eqb_neq in E.
        replace (lookback_window * q <? L)%Z with true
          by (symmetry; apply Z.ltb_lt; lia).
        rewrite py_slice_prefix by lia.
        rewrite firstn_firstn, <- Hnat. f_equal. lia. }
    rewrite Hdata. unfold DQNModel.view.
    assert (Hlen' : length (firstn (rows * cols) x) = (rows * cols)%nat)
      by (rewrite length_firstn; lia).
    rewrite Hlen', Nat.eqb_refl.
    destruct (chunks_shape rows cols (firstn (rows * cols) x) Hlen')
      as (H1 & H2 & H3).
    exists (DQNModel.chunks rows cols (firstn (rows * cols) x)), rows, cols.
    repeat split; trivial; lia.
Qed.

(** X29.  For the state size that [initialize_agent] hands to the network,
    [DQN.__init__] infers the number of features exactly, and on a state of
    that size the forward pass reshapes the whole temporal segment into
    [lookback_window] rows of that many features, with nothing left out. *)
Theorem temporal_features_of_state (lookback_window feature_names : Z)
    (x : list Q) :
  (0 < lookback_window)%Z ->
  (0 < feature_names)%Z ->
  Z.of_nat (length x) = Main.state_size feature_names lookback_window ->
  DQNModel.feature_count lookback_window (Z.of_nat (length x)) = feature_names /\
  exists m,
    DQNModel.temporal_features lookback_window feature_names x = Some m /\
    length m = Z.to_nat lookback_window /\
    Forall (fun r => length r = Z.to_nat feature_names) m /\
    concat m = firstn (length x - 9) x.
Proof.
  intros HW HF Hx. unfold Main.state_size in Hx.
  assert (HL : (Z.of_nat (length x) - 4 - 5 = feature_names * lookback_window)%Z)
    by lia.
  assert (Hq : ((feature_names * lookback_window) / lookback_window
                = feature_names)%Z) by (apply Z.div_mul; lia).
  split.
  { unfold DQNModel.feature_count. rewrite HL, Hq. lia. }
  unfold DQNModel.temporal_features. cbv zeta. rewrite HL, Hq.
  assert (Hpos : (0 < feature_names * lookback_window)%Z) by nia.
  replace (feature_names <=? 0)%Z with false
    by (symmetry; apply Z.leb_gt; exact HF).
  replace (0 <? feature_names * lookback_window)%Z with true
    by (symmetry; apply Z.ltb_lt; exact Hpos).
  rewrite (Z.mul_comm lookback_window feature_names), Z.eqb_refl. cbn [negb].
  rewrite py_slice_prefix by lia.
  assert (Hn : Z.to_nat (feature_names * lookback_window)
               = (Z.to_nat lookback_window * Z.to_nat feature_names)%nat)
    by (rewrite <- Z2Nat.inj_mul; [f_equal|..]; lia).
  assert (Hn9 : Z.to_nat (feature_names * lookback_window) = (length x - 9)%nat)
    by lia.
  assert (Hlen : length (firstn (Z.to_nat (feature_names * lookback_window)) x)
                 = (Z.to_nat lookback_window * Z.to_nat feature_names)%nat)
    by (rewrite length_firstn; lia).
  unfold DQNModel.view. rewrite Hlen, Nat.eqb_refl.
  destruct (chunks_shape _ _ _ Hlen) as (H1 & H2 & H3).
  eexists. split; [reflexivity|]. repeat split; trivial.
  rewrite H3, Hn9. reflexivity.
Qed.

(** ** The data split *)

Lemma py_slice_between {A : Type} (l : list A) (a b : Z) :
  (0 <= a <= b)%Z -> (b <= Z.of_nat (length l))%Z ->
  py_slice l a b = firstn (Z.to_nat b - Z.to_nat a) (skipn (Z.to_nat a) l).
Proof.
  intros H Hb. unfold py_slice, slice_bound.
  replace (a <? 0)%Z with false by (symmetry; apply Z.ltb_ge; lia).
  replace (b <? 0)%Z with false by (symmetry; apply Z.ltb_ge; lia).
  rewrite !Nat.min_l by lia. reflexivity.
Qed.

Lemma split_points (n : nat) :
  let a := Qfloor (inject_Z (Z.of_nat n) * Main.DATA_CONFIG_train_split) in
  let b := Qfloor (inject_Z (Z.of_nat n) * Main.DATA_CONFIG_eval_split) in
  (0 <= a)%Z /\ (0 <= b)%Z /\ (a + b <= Z.of_nat n)%Z /\
  ((0 < n)%nat -> (a + b < Z.of_nat n)%Z).
Proof.
  intros a b.
  pose proof (Qfloor_le (inject_Z (Z.of_nat n) * Main.DATA_CONFIG_train_split)) as Ha.
  pose proof (Qfloor_le (inject_Z (Z.of_nat n) * Main.DATA_CONFIG_eval_split)) as Hb.
  pose proof (Qlt_floor (inject_Z (Z.of_nat n) * Main.DATA_CONFIG_train_split)) as Ha'.
  pose proof (Qlt_floor (inject_Z (Z.of_nat n) * Main.DATA_CONFIG_eval_split)) as Hb'.
  fold a in Ha, Ha'. fold b in Hb, Hb'.
  unfold Main.DATA_CONFIG_train_split in Ha, Ha'.
  unfold Main.DATA_CONFIG_eval_split in Hb, Hb'.
  assert (Hn : 0 <= inject_Z (Z.of_nat n))
    by (change 0 with (inject_Z 0); rewrite <- Zle_Qle; lia).
  rewrite inject_Z_plus in Ha', Hb'.
  change (inject_Z 1) with 1 in Ha', Hb'.
  assert (Ha0 : -1 < inject_Z a) by lra.
  assert (Hb0 : -1 < inject_Z b) by lra.
  change (-1) with (inject_Z (-1)) in Ha0, Hb0.
  rewrite <- Zlt_Qlt in Ha0, Hb0.
  assert (Hsum : inject_Z (a + b) <= inject_Z (Z.of_nat n) * (9 # 10))
    by (rewrite inject_Z_plus; lra).
  repeat split; try lia.
  - rewrite Zle_Qle. lra.
  - intros Hpos. rewrite Zlt_Qlt.
    assert (0 < inject_Z (Z.of_nat n))
      by (change 0 with (inject_Z 0); rewrite <- Zlt_Qlt; lia).
    lra.
Qed.

(** X30.  The sequential split loses and repeats nothing: the training,
    evaluation and test parts are consecutive pieces of the table that join
    back to it, the training part has the floor of 80% of the rows, the
    evaluation part the floor of 10%, and the test part of a table that is
    not empty is never empty. *)
Theorem split_data_partition {A : Type} (data : list A) :
  let '(train_data, eval_data, test_data) := Main.split_data data in
  train_data ++ eval_data ++ test_data = data /\
  Z.of_nat (length train_data) =
    Qfloor (inject_Z (Z.of_nat (length data)) * (8 # 10)) /\
  Z.of_nat (length eval_data) =
    Qfloor (inject_Z (Z.of_nat (length data)) * (1 # 10)) /\
  (data <> [] -> test_data <> []).
Proof.
  unfold Main.split_data. cbv zeta.
  destruct (split_points (length data)) as (Ha & Hb & Hab & Hlt).
  unfold Main.DATA_CONFIG_train_split, Main.DATA_CONFIG_eval_split in *.
  set (a := Qfloor (inject_Z (Z.of_nat (length data)) * (8 # 10))) in *.
  set (b := Qfloor (inject_Z (Z.of_nat (length data)) * (1 # 10))) in *.
  rewrite !py_slice_between by lia.
  change (Z.to_nat 0) with 0%nat. rewrite Nat.sub_0_r. cbn [skipn].
  rewrite Nat2Z.id.
  replace (Z.to_nat (a + b) - Z.to_nat a)%nat with (Z.to_nat b) by lia.
  rewrite (firstn_all2 (n := length data - Z.to_nat (a + b)))
    by (rewrite length_skipn; lia).
  split; [|split; [|split]].
  - rewrite <- (firstn_skipn (Z.to_nat a) data) at 4.
    f_equal.
    rewrite <- (firstn_skipn (Z.to_nat b) (skipn (Z.to_nat a) data)) at 2.
    f_equal. rewrite skipn_skipn. f_equal. lia.
  - rewrite length_firstn. lia.
  - rewrite length_firstn, length_skipn. lia.
  - intros Hne Hnil.
    apply (f_equal (@length A)) in Hnil. rewrite length_skipn in Hnil.
    simpl in Hnil.
    assert (0 < length data)%nat by (destruct data; [contradiction|simpl; lia]).
    specialize (Hlt ltac:(lia)). lia.
Qed.

(** * The further properties on the scenarios *)

Ltac positive_prices :=
  repeat (constructor; [reflexivity|]); constructor.

Lemma episode_never_raises_witness :
  exists t,
    snd (step Scenario.sqrt6
           (run Scenario.sqrt6 (fst (reset Scenario.fresh None)) [2; 1; 0]%Z)
           1) = Ok t.
Proof.
  eapply (episode_never_raises Scenario.sqrt6 Scenario.fresh None).
  reflexivity.
Defined.

Lemma cursor_after_run_witness :
  current_step (run Scenario.sqrt6 Scenario.started [2; 1; 0; 1]%Z) =
  Nat.min (current_step Scenario.started + 4)
          (length (data Scenario.started) - 1).
Proof.
  apply (cursor_after_run Scenario.sqrt6 Scenario.started [2; 1; 0; 1]%Z).
  vm_compute. lia.
Defined.

Lemma run_at_end_witness :
  run Scenario.sqrt6 Scenario.at_end [0; 1; 2]%Z = Scenario.at_end.
Proof.
  apply (run_at_end Scenario.sqrt6 Scenario.at_end [0; 1; 2]%Z).
  reflexivity.
Defined.

Lemma scenario_conditions :
  0 < initial_balance Scenario.fresh /\
  0 <= transaction_cost Scenario.fresh < 1 /\
  Forall (fun r => 0 < CLOSE r) (data Scenario.fresh).
Proof.
  split; [reflexivity|]. split; [split; [discriminate|reflexivity]|].
  positive_prices.
Defined.

Lemma position_all_in_or_all_out_witness :
  let e := run Scenario.sqrt6 (reset_env Scenario.fresh None) [2; 1; 0]%Z in
  (0 < balance e /\ btc_held e = 0) \/ (balance e = 0 /\ 0 < btc_held e).
Proof.
  destruct scenario_conditions as (H1 & H2 & H3).
  exact (position_all_in_or_all_out Scenario.sqrt6 Scenario.fresh None
           [2; 1; 0]%Z H1 H2 H3).
Defined.

Lemma exactly_one_trade_valid_witness :
  let e := run Scenario.sqrt6 (reset_env Scenario.fresh None) [2; 1; 0]%Z in
  _can_buy e = negb (_can_sell e) /\
  (_can_buy e = true <-> 0 < balance e) /\
  (_can_sell e = true <-> 0 < btc_held e).
Proof.
  destruct scenario_conditions as (H1 & H2 & H3).
  exact (exactly_one_trade_valid Scenario.sqrt6 Scenario.fresh None
           [2; 1; 0]%Z H1 H2 H3).
Defined.

Lemma buy_accounting_witness :
  let e' := fst (step Scenario.sqrt6 Scenario.started 2) in
  balance e' = 0 /\
  btc_held e' * 110 ==
    balance Scenario.started * (1 - transaction_cost Scenario.started) /\
  total_value e' ==
    balance Scenario.started * (1 - transaction_cost Scenario.started) /\
  last_trading_action e' = Some 2%Z /\
  last_action_step e' = current_step Scenario.started.
Proof.
  apply (buy_accounting Scenario.sqrt6 Scenario.started 110);
    by_computation.
Defined.

Lemma sell_accounting_witness :
  let e' := fst (step Scenario.sqrt6 Scenario.bought 0) in
  btc_held e' = 0 /\
  balance e' ==
    balance Scenario.bought
    + btc_held Scenario.bought * 90 * (1 - transaction_cost Scenario.bought) /\
  total_value e' == balance e' /\
  last_trading_action e' = Some 0%Z /\
  last_action_step e' = current_step Scenario.bought.
Proof.
  apply (sell_accounting Scenario.sqrt6 Scenario.bought 90);
    by_computation.
Defined.

Lemma blocked_is_hold_with_penalty_witness :
  exists tb th,
    snd (step Scenario.sqrt6 Scenario.started 0) = Ok tb /\
    snd (step Scenario.sqrt6 Scenario.started 1) = Ok th /\
    fst (step Scenario.sqrt6 Scenario.started 0)
      = fst (step Scenario.sqrt6 Scenario.started 1) /\
    next_state tb = next_state th /\
    done tb = done th /\
    reward tb == reward th - (501 # 100).
Proof.
  destruct (blocked_is_hold_with_penalty Scenario.sqrt6 Scenario.started 0
              eq_refl (or_introl (conj eq_refl eq_refl)))
    as (Hobj & _ & Hok & Hret).
  assert (Hc : state_computable Scenario.started
                 (S (current_step Scenario.started)))
    by (repeat split; by_computation).
  destruct (proj2 Hret Hc) as [th Hth].
  destruct (Hok th Hth) as (tb & Htb & Hs & Hd & Hr).
  exists tb, th. repeat split; assumption.
Defined.

Lemma win_rate_in_unit_interval_witness :
  _calculate_win_rate Scenario.traded = Ok 0 /\ 0 <= 0 <= 1.
Proof.
  assert (H : _calculate_win_rate Scenario.traded = Ok 0) by by_computation.
  split; [exact H|].
  exact (win_rate_in_unit_interval Scenario.traded 0 H).
Defined.

Lemma max_drawdown_bounds_witness :
  -1 < _calculate_max_drawdown [100; 120; 90] /\
  _calculate_max_drawdown [100; 120; 90] <= 0.
Proof.
  apply (max_drawdown_bounds [100; 120; 90]). positive_prices.
Defined.

Lemma max_drawdown_of_rising_history_witness :
  Forall (fun v => 0 < v) [100; 100; 120] /\
  Sorted Qle [100; 100; 120] /\
  _calculate_max_drawdown [100; 100; 120] == 0.
Proof.
  assert (Hpos : Forall (fun v => 0 < v) [100; 100; 120])
    by positive_prices.
  assert (Hs : Sorted Qle [100; 100; 120])
    by (repeat constructor; discriminate).
  split; [exact Hpos|]. split; [exact Hs|].
  exact (max_drawdown_of_rising_history [100; 100; 120] Hpos Hs).
Defined.

Lemma performance_final_between_extremes_witness :
  exists m,
    get_portfolio_performance Scenario.sqrt6 Scenario.traded = Ok (Some m) /\
    min_value m <= final_value m /\ final_value m <= max_value m /\
    total_return_pct m == 100 * total_return m /\
    (num_trades m <= length (portfolio_values Scenario.traded))%nat.
Proof.
  destruct (get_portfolio_performance Scenario.sqrt6 Scenario.traded)
    as [[m|]|] eqn:E; try (vm_compute in E; discriminate E).
  exists m. split; [reflexivity|].
  exact (performance_final_between_extremes Scenario.sqrt6 Scenario.fresh None
           [2; 0]%Z m E).
Defined.

Lemma buy_and_hold_tracks_benchmark_witness :
  let e' := run Scenario.sqrt6 (reset_env Scenario.fresh None) [2; 1]%Z in
  exists m,
    get_buy_and_hold_performance Scenario.sqrt6 e'
      (Some 1%Z) (Some 2%Z) = Ok m /\
    total_value e' == (1 - transaction_cost Scenario.fresh) * bh_final_value m /\
    current_step e' = 3%nat.
Proof.
  apply (buy_and_hold_tracks_benchmark Scenario.sqrt6 Scenario.fresh None 1 110).
  - reflexivity.
  - vm_compute. lia.
  - reflexivity.
  - by_computation.
Defined.

Lemma profit_factor_above_one_witness :
  exists first rest f,
    portfolio_values Scenario.traded = first :: rest /\
    rest <> [] /\
    _calculate_profit_factor Scenario.traded = Finite f /\
    (1 < f <-> first < last rest first).
Proof.
  destruct (portfolio_values Scenario.traded) as [|first rest] eqn:Hpv;
    [vm_compute in Hpv; discriminate Hpv|].
  assert (Hrest : rest <> []).
  { intros ->. vm_compute in Hpv. discriminate Hpv. }
  destruct (_calculate_profit_factor Scenario.traded) as [f|] eqn:Hf;
    [|vm_compute in Hf; discriminate Hf].
  exists first, rest, f. repeat split; trivial;
    apply (profit_factor_above_one Scenario.traded first f rest Hpv Hrest Hf).
Defined.

Lemma profit_factor_without_loss_witness :
  _calculate_profit_factor Scenario.idle = Infinity.
Proof.
  apply (profit_factor_without_loss Scenario.idle).
  - vm_compute. lia.
  - vm_compute. repeat constructor; discriminate.
Defined.

Lemma valid_actions_match_simulator_witness :
  exists s valid,
    _get_state Scenario.started = Ok s /\
    DQNModel._get_valid_actions s = Ok valid /\
    In 1%nat valid /\
    (In 0%nat valid <-> _can_sell Scenario.started = true) /\
    (In 2%nat valid <-> _can_buy Scenario.started = true) /\
    forall a, In a valid -> (a <= 2)%nat.
Proof.
  destruct (_get_state Scenario.started) as [s|] eqn:Hs;
    [|vm_compute in Hs; discriminate Hs].
  destruct (valid_actions_match_simulator Scenario.started s Hs)
    as (valid & H).
  exists s, valid. split; [reflexivity|exact H].
Defined.

Lemma exploring_agent_is_never_blocked_witness :
  exists s a t,
    _get_state Scenario.started = Ok s /\
    DQNModel.select_action Scenario.toy_features Scenario.toy_value
      Scenario.toy_advantage Scenario.repo_agent s true (1 # 2) 7 tt = Ok a /\
    snd (step Scenario.sqrt6 Scenario.started (Z.of_nat a)) = Ok t /\
    info_blocked (step_info t) = false.
Proof.
  destruct (_get_state Scenario.started) as [s|] eqn:Hs;
    [|vm_compute in Hs; discriminate Hs].
  assert (Hu : (1 # 2) < DQNModel.epsilon Scenario.repo_agent)
    by by_computation.
  destruct (exploring_agent_is_never_blocked Scenario.sqrt6 Q unit unit
              Scenario.toy_features Scenario.toy_value Scenario.toy_advantage
              Scenario.repo_agent Scenario.started s (1 # 2) 7%nat tt
              Hs eq_refl Hu) as (a & t & H).
  exists s, a, t. split; [reflexivity|exact H].
Defined.

Lemma greedy_agent_is_never_blocked_witness :
  exists s a t,
    _get_state Scenario.started = Ok s /\
    DQNModel.select_action Scenario.toy_features Scenario.toy_value
      Scenario.toy_advantage Scenario.repo_agent s false 0 0 tt = Ok a /\
    snd (step Scenario.sqrt6 Scenario.started (Z.of_nat a)) = Ok t /\
    info_blocked (step_info t) = false.
Proof.
  destruct (_get_state Scenario.started) as [s|] eqn:Hs;
    [|vm_compute in Hs; discriminate Hs].
  destruct (DQNModel.forward Scenario.toy_features Scenario.toy_value
              Scenario.toy_advantage
              (DQNModel.q_network Scenario.repo_agent) tt s)
    as [|q0 [|q1 [|q2 [|q3 l]]]] eqn:Hq;
    try (vm_compute in Hs; injection Hs as <-; vm_compute in Hq;
         discriminate Hq).
  assert (Hq1 : - (1000 # 1) < q1).
  { vm_compute in Hs. injection Hs as <-. vm_compute in Hq.
    injection Hq as _ <- _. reflexivity. }
  destruct (greedy_agent_is_never_blocked Scenario.sqrt6 Q unit unit
              Scenario.toy_features Scenario.toy_value Scenario.toy_advantage
              Scenario.repo_agent Scenario.started s 0 0%nat tt q0 q1 q2
              Hs eq_refl Hq Hq1) as (a & t & H).
  exists s, a, t. split; [reflexivity|exact H].
Defined.

(** Two learning steps with an optimizer that moves the parameter from 1/2
    to 3/2 and to 5/2, and a target network copied at every second step:
    after the first step the target network still holds 1/2, after the
    second it holds 5/2 as the online network does. *)
Lemma target_network_sync_witness :
  let ag := Scenario.toy_agent Scenario.sync_config 1 in
  let learn_all :=
    DQNModel.learn_all Scenario.toy_features Scenario.toy_value
      Scenario.toy_advantage Scenario.moving_optimizer in
  let ag1 := learn_all ag [Scenario.toy_draw] in
  let ag2 := learn_all ag ([Scenario.toy_draw] ++ [Scenario.toy_draw]) in
  (0 < DQNModel.batch_size ag <= length (DQNModel.memory ag))%nat /\
  (0 < DQNModel.target_update_freq ag)%nat /\
  DQNModel.steps_done ag2 = (DQNModel.steps_done ag + 1 + 1)%nat /\
  (DQNModel.steps_done ag2 mod DQNModel.target_update_freq ag)%nat = 0%nat /\
  DQNModel.target_network ag2 = DQNModel.q_network ag2 /\
  DQNModel.q_network ag2 == 5 # 2 /\
  DQNModel.q_network ag1 == 3 # 2 /\
  DQNModel.target_network ag1 == 1 # 2.
Proof.
  intros ag learn_all ag1 ag2.
  assert (Hmem : (0 < DQNModel.batch_size ag
                  <= length (DQNModel.memory ag))%nat)
    by (vm_compute; lia).
  assert (Hfreq : (0 < DQNModel.target_update_freq ag)%nat)
    by (vm_compute; lia).
  destruct (target_network_sync Q unit unit Scenario.toy_features
              Scenario.toy_value Scenario.toy_advantage
              Scenario.moving_optimizer ag [Scenario.toy_draw]
              Scenario.toy_draw Hmem Hfreq) as [Hsteps Hsync].
  assert (Hmod : (DQNModel.steps_done ag2
                  mod DQNModel.target_update_freq ag)%nat = 0%nat)
    by (vm_compute; reflexivity).
  split; [exact Hmem|]. split; [exact Hfreq|]. split; [exact Hsteps|].
  split; [exact Hmod|]. split; [exact (Hsync Hmod)|].
  repeat split; by_computation.
Defined.

Lemma epsilon_frozen_at_floor_witness :
  DQNModel.epsilon
    (DQNModel.learn_all Scenario.toy_features Scenario.toy_value
       Scenario.toy_advantage Scenario.toy_optimizer Scenario.settled_agent
       [Scenario.toy_draw; Scenario.toy_draw])
  = DQNModel.epsilon Scenario.settled_agent.
Proof.
  apply (epsilon_frozen_at_floor Q unit unit Scenario.toy_features
           Scenario.toy_value Scenario.toy_advantage Scenario.toy_optimizer
           Scenario.settled_agent [Scenario.toy_draw; Scenario.toy_draw]).
  by_computation.
Defined.

Lemma temporal_features_shape_witness :
  exists m rows cols,
    DQNModel.temporal_features 3 2 (repeat 1 20) = Some m /\
    length m = rows /\
    Forall (fun r => length r = cols) m /\
    concat m = firstn (rows * cols) (repeat 1 20) /\
    (rows * cols <= length (repeat (1 : Q) 20) - 9)%nat /\
    (Z.of_nat (length (repeat (1 : Q) 20) - 9 - rows * cols) < 3)%Z.
Proof.
  apply (temporal_features_shape 3 2 (repeat 1 20)).
  - reflexivity.
  - vm_compute. lia.
Defined.

Lemma temporal_features_of_state_witness :
  DQNModel.feature_count 3 (Z.of_nat (length (repeat (1 : Q) 15))) = 2%Z /\
  exists m,
    DQNModel.temporal_features 3 2 (repeat 1 15) = Some m /\
    length m = Z.to_nat 3 /\
    Forall (fun r => length r = Z.to_nat 2) m /\
    concat m = firstn (length (repeat (1 : Q) 15) - 9) (repeat 1 15).
Proof.
  apply (temporal_features_of_state 3 2 (repeat 1 15)); reflexivity.
Defined.
